(** * PAcourt-document-parser: extraction and parsing of docket PDFs

    A shallow embedding of [extraction.py], [font.py] and [parsing.py].

    Conventions of the embedding.
    - A Python [str] is a [string]; its characters are the code points
      U+0000..U+00FF (the [ascii] type read as Latin-1).  Character classes
      ([str.isspace], [\s], [\d], [str.lower]) are the Unicode ones restricted
      to that range.
    - A Python exception is a value of [exn]; a function that may raise
      returns a [result].
    - PDF operands and the interpreter's accumulators are binary64 floats
      ([PrimFloat]), as pypdf's [FloatObject] is a Python [float]; integer
      operands are read as the floats they convert to.
    - A [float] read from a string is the binary64 that [float] returns:
      the nearest to the decimal written, ties to even, an infinity beyond
      the largest float.
    - A [dict] is an association list in insertion order. *)

From Stdlib Require Import Bool Ascii String List ZArith QArith Lia.
From Stdlib Require Import Uint63 PrimFloat SpecFloat FloatOps.
Import ListNotations.

Set Warnings "-inexact-float,-register-all".

Local Open Scope list_scope.
Local Open Scope string_scope.

(* ================================================================== *)
(** * Exceptions *)

(** [ParseError msg] is [ParseError(msg)] as the source raises it: built
    from a message alone, it names no rule, and parsimonious cannot print
    it.  [GrammarParseError rule] is a [ParseError] raised by
    [grammar.parse], which names the rule that did not match. *)
Inductive exn : Type :=
| IndexError
| KeyError
| ValueError
| TypeError
| AttributeError
| RuntimeError (msg : string)
| PdfReadError (msg : string)
| ParseError (msg : string)
| GrammarParseError (rule : string)
| VisitationError (cause : exn).

Inductive result (A : Type) : Type :=
| Ok (a : A)
| Raise (e : exn).

Arguments Ok {A} a.
Arguments Raise {A} e.

Definition bind {A B : Type} (m : result A) (k : A -> result B) : result B :=
  match m with
  | Ok a => k a
  | Raise e => Raise e
  end.

Notation "x <- m ;; k" := (bind m (fun x => k))
  (at level 61, m at next level, right associativity).

Definition is_ok {A : Type} (m : result A) : bool :=
  match m with Ok _ => true | Raise _ => false end.

(* ================================================================== *)
(** * Python built-ins on strings *)

Module Py.

Definition code (c : ascii) : N := N_of_ascii c.

(** [str.isspace] / the [\s] class on U+0000..U+00FF. *)
Definition is_space (c : ascii) : bool :=
  let n := code c in
  ((9 <=? n) && (n <=? 13) || (28 <=? n) && (n <=? 32)
   || (n =? 133) || (n =? 160))%N.

(** The [\d] class on U+0000..U+00FF: the ten decimal digits. *)
Definition is_digit (c : ascii) : bool :=
  let n := code c in ((48 <=? n) && (n <=? 57))%N.

(** [str.lower] on one character of U+0000..U+00FF. *)
Definition lower_char (c : ascii) : ascii :=
  let n := code c in
  if ((65 <=? n) && (n <=? 90)
      || (192 <=? n) && (n <=? 222) && negb (n =? 215))%N
  then ascii_of_N (n + 32) else c.

Fixpoint lower (s : string) : string :=
  match s with
  | EmptyString => EmptyString
  | String c s' => String (lower_char c) (lower s')
  end.

Fixpoint lstrip (s : string) : string :=
  match s with
  | EmptyString => EmptyString
  | String c s' => if is_space c then lstrip s' else s
  end.

Fixpoint rstrip (s : string) : string :=
  match s with
  | EmptyString => EmptyString
  | String c s' =>
      match rstrip s' with
      | EmptyString => if is_space c then EmptyString else String c EmptyString
      | t => String c t
      end
  end.

(** [s.strip()] *)
Definition strip (s : string) : string := rstrip (lstrip s).

(** [s.replace(c, '')] for a one-character [c]. *)
Fixpoint remove_char (c : ascii) (s : string) : string :=
  match s with
  | EmptyString => EmptyString
  | String a s' =>
      if Ascii.eqb a c then remove_char c s' else String a (remove_char c s')
  end.

(** [needle in haystack] *)
Fixpoint contains (needle haystack : string) : bool :=
  String.prefix needle haystack
  || match haystack with
     | EmptyString => false
     | String _ h => contains needle h
     end.

(** [c in s] for a one-character [c]. *)
Fixpoint mem_char (c : ascii) (s : string) : bool :=
  match s with
  | EmptyString => false
  | String a s' => Ascii.eqb a c || mem_char c s'
  end.

(** [s.split(sep)] for a one-character separator: never the empty list. *)
Fixpoint split (sep : ascii) (s : string) : list string :=
  match s with
  | EmptyString => [EmptyString]
  | String c s' =>
      if Ascii.eqb c sep then EmptyString :: split sep s'
      else match split sep s' with
           | l :: ls => String c l :: ls
           | [] => [String c EmptyString]
           end
  end.

(** [s.split(sep, 1)]: at most one cut, at the first separator. *)
Fixpoint split_once (sep : ascii) (s : string) : list string :=
  match s with
  | EmptyString => [EmptyString]
  | String c s' =>
      if Ascii.eqb c sep then [EmptyString; s']
      else match split_once sep s' with
           | l :: ls => String c l :: ls
           | [] => [String c EmptyString]
           end
  end.

(** [sep.join(lines)] for a one-character separator. *)
Fixpoint join (sep : ascii) (lines : list string) : string :=
  match lines with
  | [] => EmptyString
  | [l] => l
  | l :: ls => l ++ String sep (join sep ls)
  end.

(** [xs[i]] *)
Definition index {A : Type} (xs : list A) (i : nat) : result A :=
  match nth_error xs i with
  | Some x => Ok x
  | None => Raise IndexError
  end.

(** [s[-1]], for a non-empty [s]. *)
Fixpoint last_char (s : string) : option ascii :=
  match s with
  | EmptyString => None
  | String c EmptyString => Some c
  | String _ s' => last_char s'
  end.

(** [s[:-1]] *)
Fixpoint drop_last (s : string) : string :=
  match s with
  | EmptyString => EmptyString
  | String _ EmptyString => EmptyString
  | String c s' => String c (drop_last s')
  end.

(** ** [float(s)]

    [float] reads a decimal number and returns the binary64 nearest to it,
    ties to even, an infinity beyond the largest float. *)

(** The white space [float] skips around a number: below U+0080 the six
    characters of C's [isspace], above it what [str.isspace] accepts.  The
    separators U+001C..U+001F, which [str.strip] removes, are not among
    them. *)
Definition is_float_space (c : ascii) : bool :=
  let n := code c in
  ((9 <=? n) && (n <=? 13) || (n =? 32) || (n =? 133) || (n =? 160))%N.

Fixpoint float_lstrip (s : string) : string :=
  match s with
  | EmptyString => EmptyString
  | String c s' => if is_float_space c then float_lstrip s' else s
  end.

Fixpoint float_rstrip (s : string) : string :=
  match s with
  | EmptyString => EmptyString
  | String c s' =>
      match float_rstrip s' with
      | EmptyString =>
          if is_float_space c then EmptyString else String c EmptyString
      | t => String c t
      end
  end.

(** The binary64 nearest to [n / d] for [0 <= n], with the given sign: the
    quotient is taken with enough bits and a record of what is left, then
    rounded to nearest, ties to even; a zero keeps its sign. *)
Definition nearest (negative : bool) (n : Z) (d : positive) : PrimFloat.float :=
  match n with
  | Zpos _ =>
      let '(m, e, l) := SFdiv_core_binary prec emax n 0 (Zpos d) 0 in
      SF2Prim (binary_round_aux prec emax negative m e l)
  | _ => if negative then neg_zero else zero
  end.

Definition round_to_float (negative : bool) (q : Q) : PrimFloat.float :=
  nearest negative (Qnum q) (Qden q).

Definition digit_value (c : ascii) : Z := Z.of_N (code c) - 48.

(** [mantissa * 10 ^ exponent] *)
Definition scale (mantissa exponent : Z) : Q :=
  if (0 <=? exponent)%Z then Qmake (mantissa * 10 ^ exponent) 1
  else Qmake mantissa (Z.to_pos (10 ^ (- exponent))).

(** The rest of a [digitpart] after its first digit: digits, each
    optionally preceded by one underscore.  Returns the number read so far,
    the count of digits, and what follows. *)
Fixpoint digitpart_rest (s : string) (acc : Z) (count : nat)
  : Z * nat * string :=
  match s with
  | String c s' =>
      if is_digit c
      then digitpart_rest s' (10 * acc + digit_value c)%Z (S count)
      else if Ascii.eqb c "_" then
        match s' with
        | String d s'' =>
            if is_digit d
            then digitpart_rest s'' (10 * acc + digit_value d)%Z (S count)
            else (acc, count, s)
        | EmptyString => (acc, count, s)
        end
      else (acc, count, s)
  | EmptyString => (acc, count, s)
  end.

Definition digitpart (s : string) (acc : Z) : option (Z * nat * string) :=
  match s with
  | String c s' =>
      if is_digit c
      then Some (digitpart_rest s' (10 * acc + digit_value c)%Z 1)
      else None
  | EmptyString => None
  end.

(** [number ::= [digitpart] "." digitpart | digitpart ["."]]: the digits
    read as one integer, and how many of them follow the point. *)
Definition number (s : string) : option (Z * nat * string) :=
  match s with
  | EmptyString => None
  | String c s' =>
      if Ascii.eqb c "." then digitpart s' 0
      else
        match digitpart s 0 with
        | Some (int_part, _, rest) =>
            match rest with
            | String d rest' =>
                if Ascii.eqb d "." then
                  match digitpart rest' int_part with
                  | Some r => Some r
                  | None => Some (int_part, O, rest')
                  end
                else Some (int_part, O, rest)
            | EmptyString => Some (int_part, O, rest)
            end
        | None => None
        end
  end.

Definition sign (s : string) : bool * string :=
  match s with
  | String c s' =>
      if Ascii.eqb c "-" then (true, s')
      else if Ascii.eqb c "+" then (false, s')
      else (false, s)
  | EmptyString => (false, s)
  end.

(** [exponent ::= ("e" | "E") [sign] digitpart], when present. *)
Definition exponent (s : string) : option (Z * string) :=
  match s with
  | String c s' =>
      if Ascii.eqb c "e" || Ascii.eqb c "E" then
        let (negative, digits) := sign s' in
        match digitpart digits 0 with
        | Some (e, _, rest) => Some (if negative then (- e)%Z else e, rest)
        | None => None
        end
      else Some (0%Z, s)
  | EmptyString => Some (0%Z, s)
  end.

Definition float (s : string) : result PrimFloat.float :=
  let (negative, body) := sign (float_rstrip (float_lstrip s)) in
  let special := lower body in
  if String.eqb special "inf" || String.eqb special "infinity"
  then Ok (if negative then neg_infinity else infinity)
  else if String.eqb special "nan" then Ok nan
  else
    match number body with
    | Some (mantissa, fraction_digits, rest) =>
        match exponent rest with
        | Some (e, EmptyString) =>
            Ok (round_to_float negative
                  (scale mantissa (e - Z.of_nat fraction_digits)))
        | _ => Raise ValueError
        end
    | None => Raise ValueError
    end.

End Py.

(* ================================================================== *)
(** * Regular expressions: the fragment of [re] the filters use

    [re.match(p, s)] is truthy when some prefix of [s] belongs to the
    language of [p].  The patterns here have no back-references or
    look-around, so the backtracking search of [re] finds a match exactly
    when one exists; [matches] decides that with Brzozowski derivatives. *)

Module Re.

Inductive regex : Type :=
| Void
| Eps
| Class (p : ascii -> bool)
| Cat (r1 r2 : regex)
| Alt (r1 r2 : regex)
| Star (r : regex).

Definition Chr (c : ascii) : regex := Class (Ascii.eqb c).
Definition NotChr (c : ascii) : regex := Class (fun a => negb (Ascii.eqb c a)).

Fixpoint Lit (s : string) : regex :=
  match s with
  | EmptyString => Eps
  | String c s' => Cat (Chr c) (Lit s')
  end.

(** [r{n}] *)
Fixpoint Times (n : nat) (r : regex) : regex :=
  match n with
  | O => Eps
  | S n' => Cat r (Times n' r)
  end.

(** Up to [n] copies of [r]. *)
Fixpoint UpTo (n : nat) (r : regex) : regex :=
  match n with
  | O => Eps
  | S n' => Alt (Cat r (UpTo n' r)) Eps
  end.

(** [r{m,n}] with [m <= n] *)
Definition Rep (m n : nat) (r : regex) : regex :=
  Cat (Times m r) (UpTo (n - m) r).

Fixpoint nullable (r : regex) : bool :=
  match r with
  | Void => false
  | Eps => true
  | Class _ => false
  | Cat r1 r2 => nullable r1 && nullable r2
  | Alt r1 r2 => nullable r1 || nullable r2
  | Star _ => true
  end.

Fixpoint deriv (a : ascii) (r : regex) : regex :=
  match r with
  | Void => Void
  | Eps => Void
  | Class p => if p a then Eps else Void
  | Cat r1 r2 =>
      if nullable r1 then Alt (Cat (deriv a r1) r2) (deriv a r2)
      else Cat (deriv a r1) r2
  | Alt r1 r2 => Alt (deriv a r1) (deriv a r2)
  | Star r1 => Cat (deriv a r1) (Star r1)
  end.

(** [bool(re.match(r, s))] *)
Fixpoint matches (r : regex) (s : string) : bool :=
  nullable r
  || match s with
     | EmptyString => false
     | String a s' => matches (deriv a r) s'
     end.

(** Syntactic checks used to reason about the patterns. *)

(** [void r = true]: the language of [r] is empty. *)
Fixpoint void (r : regex) : bool :=
  match r with
  | Void => true
  | Eps => false
  | Class _ => false
  | Cat r1 r2 => void r1 || void r2
  | Alt r1 r2 => void r1 && void r2
  | Star _ => false
  end.

(** [needs c r = true]: every word of [r] contains the character [c]. *)
Fixpoint needs (c : ascii) (r : regex) : bool :=
  match r with
  | Void => true
  | Eps => false
  | Class p => forallb (fun n => implb (p (ascii_of_nat n)) (Ascii.eqb (ascii_of_nat n) c))
                 (seq 0 256)
  | Cat r1 r2 => needs c r1 || needs c r2
  | Alt r1 r2 => needs c r1 && needs c r2
  | Star _ => false
  end.

End Re.

(* ================================================================== *)
(** * extraction.py: the reader's reserved characters *)

Module DocketReader.

Definition terminator : ascii := "010"%char.
Definition tab : ascii := "_"%char.
Definition comes_before : ascii := "|"%char.
Definition properties_open : ascii := "["%char.
Definition properties_close : ascii := "]"%char.
Definition box_wrap : ascii := "^"%char.

Definition chr (c : ascii) : string := String c EmptyString.

(** [get_special_characters]: each reserved character, as a one-character
    string. *)
Definition get_special_characters : list string :=
  [chr tab; chr terminator; chr properties_open; chr properties_close;
   chr comes_before; chr box_wrap].

End DocketReader.

(* ================================================================== *)
(** * font.py *)

Module Font.

(** A wrapped font resource: its [/BaseFont] name, the map from character
    ids to the text they decode to, and the glyph widths. *)
Record PdfFontWrapper : Type := {
  base_font : string;
  unicode_map : list (N * string);
  widths : list (N * Z)
}.

Fixpoint lookup {V : Type} (d : list (N * V)) (k : N) : result V :=
  match d with
  | [] => Raise KeyError
  | (k', v) :: d' => if N.eqb k' k then Ok v else lookup d' k
  end.

(** The loop of [get_content_and_width], with its two accumulators. *)
Fixpoint decode_from (font : PdfFontWrapper) (bs : list Byte.byte)
  (content : string) (width : Z) : result (string * Z) :=
  match bs with
  | [] => Ok (content, width)
  | character_id :: bs' =>
      u <- lookup (unicode_map font) (Byte.to_N character_id) ;;
      w <- lookup (widths font) (Byte.to_N character_id) ;;
      decode_from font bs' (content ++ u) (width + w)%Z
  end.

Definition get_content_and_width (font : PdfFontWrapper) (bs : list Byte.byte)
  : result (string * Z) :=
  decode_from font bs EmptyString 0%Z.

End Font.

(* ================================================================== *)
(** * extraction.py: pages and the content-stream interpreter *)

Module Extraction.

Import Font.
Local Open Scope float_scope.

Record TextSegment : Type := {
  content : string;
  origin_coordinates : option (float * float);
  font_name : option string;
  x_translation_from_origin : float;
  y_translation_from_origin : float
}.

(** [TextSegment()], also the state after [reset]. *)
Definition new_segment : TextSegment :=
  {| content := EmptyString; origin_coordinates := None; font_name := None;
     x_translation_from_origin := 0; y_translation_from_origin := 0 |}.

Record TextState : Type := {
  ts_font_name : string;
  size : float
}.

Fixpoint lookup_name {V : Type} (d : list (string * V)) (k : string) : result V :=
  match d with
  | [] => Raise KeyError
  | (k', v) :: d' => if String.eqb k' k then Ok v else lookup_name d' k
  end.

(** ** [DocketPageObject.__init__] *)

Record DocketPageObject : Type := {
  fonts : list (string * PdfFontWrapper);
  font_output_names : list (string * string)
}.

(** [char in reader.get_special_characters()]: membership of the whole
    mapped string in the list of reserved one-character strings. *)
Definition is_special (char : string) : bool :=
  existsb (String.eqb char) DocketReader.get_special_characters.

(** The inner loop over [font.unicode_map.values()]. *)
Fixpoint check_unicode_values (values : list string) : result unit :=
  match values with
  | [] => Ok tt
  | char :: rest =>
      if is_special char
      then Raise (PdfReadError
                    ("Special character '" ++ char
                     ++ "' was found in pdf's fonts. Please use a different special character."))
      else check_unicode_values rest
  end.

Definition output_name (font : PdfFontWrapper) : string :=
  if Py.contains "bold" (Py.lower (base_font font)) then "bold" else "normal".

(** The loop over [self.fonts.items()]. *)
Fixpoint init_fonts (items : list (string * PdfFontWrapper))
  (names : list (string * string)) : result (list (string * string)) :=
  match items with
  | [] => Ok names
  | (name, font) :: rest =>
      _ <- check_unicode_values (map snd (unicode_map font)) ;;
      init_fonts rest (names ++ [(name, output_name font)])%list
  end.

Definition page_init (page_fonts : list (string * PdfFontWrapper))
  : result DocketPageObject :=
  names <- init_fonts page_fonts [] ;;
  Ok {| fonts := page_fonts; font_output_names := names |}.

(** [DocketReader.__init__]: one [DocketPageObject] per page, in order. *)
Fixpoint reader_init (pages : list (list (string * PdfFontWrapper)))
  : result (list DocketPageObject) :=
  match pages with
  | [] => Ok []
  | page_fonts :: rest =>
      page <- page_init page_fonts ;;
      others <- reader_init rest ;;
      Ok (page :: others)
  end.

(** ** [DocketPageObject.extract_text] *)

(** A transformation matrix in the six-number form of the PDF format. *)
Record matrix : Type := {
  m0 : float; m1 : float; m2 : float; m3 : float; m4 : float; m5 : float
}.

(** [mult(tm, cm)]: the 3x3 product, flattened as the source returns it. *)
Definition mult (tm cm : matrix) : list float :=
  [ m0 tm * m0 cm + m1 tm * m2 cm + 0 * m4 cm;
    m0 tm * m1 cm + m1 tm * m3 cm + 0 * m5 cm;
    m2 tm * m0 cm + m3 tm * m2 cm + 0 * m4 cm;
    m2 tm * m1 cm + m3 tm * m3 cm + 0 * m5 cm;
    m4 tm * m0 cm + m5 tm * m2 cm + 1 * m4 cm;
    m4 tm * m1 cm + m5 tm * m3 cm + 1 * m5 cm;
    m4 tm * 0 + m5 tm * 0 + 1 * 1 ].

Inductive TJ_item : Type :=
| TJ_bytes (bs : list Byte.byte)
| TJ_number (n : float).

(** The operators the visitor looks at, with their operands. *)
Inductive operation : Type :=
| Tf (font_name : string) (font_size : float)
| q_push
| Q_pop
| ET
| Td (x_translation y_translation : float)
| TJ (items : list TJ_item)
| Tj (bs : list Byte.byte)
| text_showing (operator : string)
| text_spacing (operator : string)
| text_positioning (operator : string)
| other (operator : string).

(** The variables of [extract_text] that its two closures share.  The
    stack keeps its top at the head of the list; [log] collects the messages
    handed to the logger. *)
Record interpreter : Type := {
  text_state : TextState;
  text_state_stack : list TextState;
  segment : TextSegment;
  extracted_segments : list TextSegment;
  cur_displacement : float;
  log : list string
}.

Definition initial : interpreter :=
  {| text_state := {| ts_font_name := EmptyString; size := 0 |};
     text_state_stack := [];
     segment := new_segment;
     extracted_segments := [];
     cur_displacement := 0;
     log := [] |}.

Definition with_segment (st : interpreter) (seg : TextSegment) : interpreter :=
  {| text_state := text_state st; text_state_stack := text_state_stack st;
     segment := seg; extracted_segments := extracted_segments st;
     cur_displacement := cur_displacement st; log := log st |}.

Definition with_displacement (st : interpreter) (d : float) : interpreter :=
  {| text_state := text_state st; text_state_stack := text_state_stack st;
     segment := segment st; extracted_segments := extracted_segments st;
     cur_displacement := d; log := log st |}.

Definition with_text_state (st : interpreter) (ts : TextState)
  (stack : list TextState) : interpreter :=
  {| text_state := ts; text_state_stack := stack;
     segment := segment st; extracted_segments := extracted_segments st;
     cur_displacement := cur_displacement st; log := log st |}.

Definition warn (st : interpreter) (msg : string) : interpreter :=
  {| text_state := text_state st; text_state_stack := text_state_stack st;
     segment := segment st; extracted_segments := extracted_segments st;
     cur_displacement := cur_displacement st;
     log := (log st ++ [msg])%list |}.

Definition set_content (seg : TextSegment) (c : string) : TextSegment :=
  {| content := c; origin_coordinates := origin_coordinates seg;
     font_name := font_name seg;
     x_translation_from_origin := x_translation_from_origin seg;
     y_translation_from_origin := y_translation_from_origin seg |}.

Definition set_font_name (seg : TextSegment) (f : string) : TextSegment :=
  {| content := content seg; origin_coordinates := origin_coordinates seg;
     font_name := Some f;
     x_translation_from_origin := x_translation_from_origin seg;
     y_translation_from_origin := y_translation_from_origin seg |}.

Definition set_origin (seg : TextSegment) (o : float * float) : TextSegment :=
  {| content := content seg; origin_coordinates := Some o;
     font_name := font_name seg;
     x_translation_from_origin := x_translation_from_origin seg;
     y_translation_from_origin := y_translation_from_origin seg |}.

Definition set_translation (seg : TextSegment) (x y : float) : TextSegment :=
  {| content := content seg; origin_coordinates := origin_coordinates seg;
     font_name := font_name seg;
     x_translation_from_origin := x; y_translation_from_origin := y |}.

Definition add_content (seg : TextSegment) (s : string) : TextSegment :=
  set_content seg (content seg ++ s).

Definition ends_with_box_wrap (s : string) : bool :=
  match Py.last_char s with
  | Some c => Ascii.eqb c DocketReader.box_wrap
  | None => false
  end.

Section Interpreter.

Variable page : DocketPageObject.
Variables x_tolerance y_tolerance : float.

(** [terminate_segment]: a segment with content is copied to the output,
    without a trailing box-wrap character and with its output font name;
    then the segment and the displacement are reset. *)
Definition terminate_segment (st : interpreter) : result interpreter :=
  let seg := segment st in
  extracted <-
    (if negb (String.eqb (content seg) EmptyString) then
       let seg1 :=
         if ends_with_box_wrap (content seg)
         then set_content seg (Py.drop_last (content seg)) else seg in
       name <- lookup_name (font_output_names page) (ts_font_name (text_state st)) ;;
       Ok (extracted_segments st ++ [set_font_name seg1 name])%list
     else Ok (extracted_segments st)) ;;
  Ok {| text_state := text_state st; text_state_stack := text_state_stack st;
        segment := new_segment; extracted_segments := extracted;
        cur_displacement := 0; log := log st |}.

(** The last two branches of the [Td] handler, reached when the move is
    neither a box wrap, nor a return to the line, nor a new line. *)
Definition reposition_horizontal (x_translation : float) (st : interpreter)
  : interpreter :=
  let seg := segment st in
  if (x_translation <? 0) && negb (String.eqb (content seg) EmptyString) then
    with_segment st (add_content seg (DocketReader.chr DocketReader.comes_before))
  else if (0 <? x_translation) && negb (String.eqb (content seg) EmptyString) then
    let units_of_spacing := x_translation - cur_displacement st in
    if x_tolerance * size (text_state st) <? units_of_spacing then
      with_segment st (add_content seg (DocketReader.chr DocketReader.tab))
    else if units_of_spacing <? -0.1 then
      warn st ("Potentially overlapping text after: '" ++ content seg ++ "'.")
    else
      with_segment st
        (set_translation seg (x_translation_from_origin seg + x_translation)
           (y_translation_from_origin seg))
  else st.

(** The [Td] handler. *)
Definition reposition (x_translation y_translation : float) (st : interpreter)
  : result interpreter :=
  let seg := segment st in
  st1 <-
    (if (y_translation <? 0)
        && (abs (x_translation + x_translation_from_origin seg) <? x_tolerance)
     then
       Ok (with_segment st
             (set_translation
                (add_content seg (DocketReader.chr DocketReader.box_wrap))
                0 (y_translation_from_origin seg + y_translation)))
     else if (0 <? y_translation)
             && (abs (y_translation + y_translation_from_origin seg) <? y_tolerance)
     then
       Ok (with_segment st
             (add_content (set_translation seg 0 0)
                (if x_translation <? 0
                 then DocketReader.chr DocketReader.comes_before
                 else DocketReader.chr DocketReader.tab)))
     else if y_tolerance <=? abs y_translation then terminate_segment st
     else Ok (reposition_horizontal x_translation st)) ;;
  Ok (with_displacement st1 0).

(** The float of a glyph width (an [int] below 2^53 in any font). *)
Definition float_of_Z (z : Z) : float :=
  if (z <? 0)%Z then - of_uint63 (Uint63.of_Z (- z))
  else of_uint63 (Uint63.of_Z z).

(** One byte string shown with the current font. *)
Definition show (bs : list Byte.byte) (st : interpreter) : result interpreter :=
  font <- lookup_name (fonts page) (ts_font_name (text_state st)) ;;
  cw <- get_content_and_width font bs ;;
  let displacement := float_of_Z (snd cw) / 1000 * size (text_state st) in
  Ok (with_segment
        (with_displacement st (cur_displacement st + displacement))
        (add_content (segment st) (fst cw))).

Fixpoint show_items (items : list TJ_item) (st : interpreter)
  : result interpreter :=
  match items with
  | [] => Ok st
  | TJ_bytes bs :: rest => st1 <- show bs st ;; show_items rest st1
  | TJ_number n :: rest =>
      show_items rest
        (with_displacement st
           (cur_displacement st - n * size (text_state st) / 1000))
  end.

(** [operation_visitor(operator, args, cm, tm)] *)
Definition operation_visitor (op : operation) (cm tm : matrix)
  (st : interpreter) : result interpreter :=
  let st :=
    match op, origin_coordinates (segment st) with
    | (TJ _ | Tj _), None =>
        let m := mult tm cm in
        with_segment st (set_origin (segment st) (nth 4 m 0, nth 5 m 0))
    | _, _ => st
    end in
  match op with
  | Tf font_name font_size =>
      st1 <- terminate_segment st ;;
      Ok (with_text_state st1 {| ts_font_name := font_name; size := font_size |}
            (text_state_stack st1))
  | q_push =>
      Ok (with_text_state st (text_state st)
            (text_state st :: text_state_stack st))
  | Q_pop =>
      st1 <- terminate_segment st ;;
      match text_state_stack st1 with
      | [] => Raise IndexError
      | top :: below => Ok (with_text_state st1 top below)
      end
  | ET => terminate_segment st
  | Td x_translation y_translation => reposition x_translation y_translation st
  | TJ items => show_items items st
  | Tj bs => show bs st
  | text_showing operator =>
      Ok (warn st ("Found unexpected text showing operator: " ++ operator))
  | text_spacing operator =>
      Ok (warn st ("Found unexpected text spacing operator: " ++ operator))
  | text_positioning operator =>
      Ok (warn st ("Found unexpected text positioning operator: " ++ operator))
  | other _ => Ok st
  end.

Fixpoint run (ops : list (operation * matrix * matrix)) (st : interpreter)
  : result interpreter :=
  match ops with
  | [] => Ok st
  | (op, cm, tm) :: rest =>
      st1 <- operation_visitor op cm tm st ;; run rest st1
  end.

(** [f'{round(n, 2):06.2f}'], the rendering of one coordinate; the float
    formatting of Python is taken as given. *)
Variable format_coordinate : float -> string.

(** [segment_to_str]: iterating over a missing origin, or appending a
    missing font name, raises [TypeError]. *)
Definition segment_to_str (seg : TextSegment) : result string :=
  match origin_coordinates seg, font_name seg with
  | Some (x, y), Some name =>
      let properties :=
        (format_coordinate x ++ "," ++ format_coordinate y ++ "," ++ name)%string in
      Ok (content seg
          ++ DocketReader.chr DocketReader.properties_open
          ++ properties
          ++ DocketReader.chr DocketReader.properties_close
          ++ DocketReader.chr DocketReader.terminator)%string
  | _, _ => Raise TypeError
  end.

Fixpoint format_segments (segs : list TextSegment) : result string :=
  match segs with
  | [] => Ok EmptyString
  | seg :: rest =>
      s <- segment_to_str seg ;;
      r <- format_segments rest ;;
      Ok (s ++ r)%string
  end.

(** [extract_text] for one page. *)
Definition extract_text (ops : list (operation * matrix * matrix))
  : result string :=
  st <- run ops initial ;;
  format_segments (extracted_segments st).

End Interpreter.

End Extraction.

(* ================================================================== *)
(** * parsing.py: document type and page-break filters *)

Module Parsing.

Import Re.

Inductive DocumentType : Type :=
| COURT_SUMMARY
| DOCKET.

(** [get_document_type]: [text.split('\n')[1]] raises [IndexError] when the
    text has no second line. *)
Definition get_document_type (text : string) : result DocumentType :=
  line_2 <- Py.index (Py.split "010"%char text) 1 ;;
  if Py.contains "docket" (Py.lower line_2) then Ok DOCKET
  else if Py.contains "court summary" (Py.lower line_2) then Ok COURT_SUMMARY
  else Raise (ParseError "Could not determine document type").

(** The patterns both filters build from the reader's characters. *)

Infix "+++" := Cat (at level 60, right associativity).

(** [re.escape(properties_open)] *)
Definition props_open : regex := Chr DocketReader.properties_open.
(** ['[^' + props_open + ']*'] *)
Definition not_props_open : regex := Star (NotChr DocketReader.properties_open).
Definition props_close : regex := Chr DocketReader.properties_close.
Definition not_props_close : regex := Star (NotChr DocketReader.properties_close).
Definition box_wrap : regex := Chr DocketReader.box_wrap.

Definition properties_regex : regex :=
  props_open +++ not_props_close +++ props_close.

(** [r"v\. *" + properties_regex] *)
Definition versus_line_regex : regex :=
  Lit "v." +++ Star (Chr " "%char) +++ properties_regex.

(** [r"\d{1,2}/\d{1,2}/\d{4}"] *)
Definition date_regex : regex :=
  Rep 1 2 (Class Py.is_digit) +++ Chr "/"%char
  +++ Rep 1 2 (Class Py.is_digit) +++ Chr "/"%char
  +++ Rep 4 4 (Class Py.is_digit).

(** [r"Printed:\s*" + date_regex + not_props_open + properties_regex] *)
Definition printed_date_line_regex : regex :=
  Lit "Printed:" +++ Star (Class Py.is_space) +++ date_regex
  +++ not_props_open +++ properties_regex.

Definition bold_properties_regex : regex :=
  props_open +++ not_props_close +++ Lit "bold" +++ props_close.

(** [not_props_open + r'\(Continued\)' + bold_properties_regex] *)
Definition continuation_regex : regex :=
  not_props_open +++ Lit "(Continued)" +++ bold_properties_regex.

Definition continuation_textbox_regex : regex :=
  not_props_open +++ Lit "(Continued)" +++ box_wrap +++ not_props_open
  +++ bold_properties_regex.

(** The loop of [remove_docket_page_breaks] over [input_lines[1:]]:
    [prev] is [input_lines[index - 1]]. *)
Fixpoint docket_loop (prev : string) (lines : list string)
  (in_page_break : bool) (output_lines : list string) : list string :=
  match lines with
  | [] => output_lines
  | line :: rest =>
      if in_page_break then
        if matches versus_line_regex prev
        then docket_loop line rest false output_lines
        else docket_loop line rest true output_lines
      else if matches printed_date_line_regex line
      then docket_loop line rest true output_lines
      else docket_loop line rest false (output_lines ++ [line])
  end.

(** The value of [in_page_break] once the same loop has gone over [lines]. *)
Fixpoint docket_in_page_break (prev : string) (lines : list string)
  (in_page_break : bool) : bool :=
  match lines with
  | [] => in_page_break
  | line :: rest =>
      if in_page_break then
        if matches versus_line_regex prev
        then docket_in_page_break line rest false
        else docket_in_page_break line rest true
      else if matches printed_date_line_regex line
      then docket_in_page_break line rest true
      else docket_in_page_break line rest false
  end.

Definition remove_docket_page_breaks (extracted_text : string) : string :=
  let input_lines := Py.split DocketReader.terminator extracted_text in
  let first := hd EmptyString input_lines in
  let output_lines := docket_loop first (tl input_lines) false [first] in
  Py.join DocketReader.terminator output_lines
  ++ DocketReader.chr DocketReader.terminator.

(** The loop of [remove_court_summary_page_breaks];
    [line.split(box_wrap, 1)[1]] may raise [IndexError]. *)
Fixpoint court_summary_loop (prev : string) (lines : list string)
  (in_page_break : bool) (output_lines : list string)
  : result (list string) :=
  match lines with
  | [] => Ok output_lines
  | line :: rest =>
      if in_page_break then
        if matches continuation_regex prev
           && negb (matches continuation_regex line)
        then
          if matches continuation_textbox_regex line then
            post_page_break <- Py.index (Py.split_once DocketReader.box_wrap line) 1 ;;
            court_summary_loop line rest false (output_lines ++ [post_page_break])
          else court_summary_loop line rest false (output_lines ++ [line])
        else court_summary_loop line rest true output_lines
      else if matches printed_date_line_regex line
      then court_summary_loop line rest true output_lines
      else court_summary_loop line rest false (output_lines ++ [line])
  end.

Definition remove_court_summary_page_breaks (extracted_text : string)
  : result string :=
  let input_lines := Py.split DocketReader.terminator extracted_text in
  let first := hd EmptyString input_lines in
  output_lines <- court_summary_loop first (tl input_lines) false [first] ;;
  Ok (Py.join DocketReader.terminator output_lines
      ++ DocketReader.chr DocketReader.terminator).

Definition remove_page_breaks (extracted_text : string) : result string :=
  document_type <- get_document_type extracted_text ;;
  match document_type with
  | DOCKET => Ok (remove_docket_page_breaks extracted_text)
  | COURT_SUMMARY => remove_court_summary_page_breaks extracted_text
  end.

(** ** Parse trees and reduced values *)

(** A node of a parsimonious parse tree: rule name, matched text,
    children. *)
Inductive Node : Type :=
| mkNode (expr_name : string) (text : string) (children : list Node).

Definition node_text (n : Node) : string :=
  match n with mkNode _ text _ => text end.

(** What a visit method may return: a raw node, a list, a [dict] (in
    insertion order), or a field value. *)
Inductive value : Type :=
| VNode (n : Node)
| VList (items : list value)
| VDict (fields : list (string * value))
| VStr (s : string)
| VFloat (f : float)
| VDate (year month day : Z).

Definition dict_has (key : string) (d : list (string * value)) : bool :=
  existsb (fun kv => String.eqb (fst kv) key) d.

Fixpoint dict_get (key : string) (d : list (string * value)) : option value :=
  match d with
  | [] => None
  | (k, v) :: d' => if String.eqb k key then Some v else dict_get key d'
  end.

Definition dict_remove (key : string) (d : list (string * value))
  : list (string * value) :=
  filter (fun kv => negb (String.eqb (fst kv) key)) d.

(** [d[key] = v] *)
Fixpoint dict_set (key : string) (v : value) (d : list (string * value))
  : list (string * value) :=
  match d with
  | [] => [(key, v)]
  | (k, v') :: d' =>
      if String.eqb k key then (k, v) :: d' else (k, v') :: dict_set key v d'
  end.

(** [bool(v)] *)
Definition truthy (v : value) : bool :=
  match v with
  | VNode _ => true
  | VList items => match items with [] => false | _ => true end
  | VDict fields => match fields with [] => false | _ => true end
  | VStr s => negb (String.eqb s EmptyString)
  | VFloat f => negb (f =? 0)%float
  | VDate _ _ _ => true
  end.

(** ** [NodeVisitor.visit] of parsimonious

    The method named [visit_<expr_name>] is called on the node and the
    visited children, [generic_visit] when there is none; an exception
    other than a [VisitationError] is wrapped into one. *)

Definition method : Type := Node -> list value -> result value.


Section NodeVisitor.

Variable methods : string -> option method.
Variable generic_visit : method.



End NodeVisitor.


(** ** Leaf reducers *)


(** [CourtSummaryVisitor.visit_leaf] *)
Definition summary_visit_leaf (leaf_name : string) : method :=
  fun node _ =>
    let text := Py.strip (node_text node) in
    let text := Py.remove_char DocketReader.box_wrap text in
    Ok (VDict [(leaf_name, VStr text)]).

(** The body of [visit_money] on the text of the node: [money[0]] raises
    [IndexError] on an empty string, [money[2:-1]] is the text between the
    first two characters and the last one. *)
Definition money_value (node_text : string) : result float :=
  let money := Py.strip node_text in
  let money := Py.remove_char ","%char money in
  match money with
  | EmptyString => Raise IndexError
  | String c rest =>
      if Ascii.eqb c "$" then Py.float rest
      else if Ascii.eqb c "(" then
        f <- Py.float (substring 2 (String.length money - 3) money) ;;
        Ok (- f)%float
      else Raise (ParseError
                    ("Expected money term to start with $ or ($"
                     ++ DocketReader.chr DocketReader.terminator
                     ++ "Instead found " ++ money))
  end.

Definition visit_money (money_term : string) : method :=
  fun node _ =>
    money_float <- money_value (node_text node) ;;
    Ok (VDict [(money_term, VFloat money_float)]).

(** ** [CourtSummaryVisitor.visit_county_section]

    The loop over [flatten(visited_children)] with its variable
    [county_name]; the dictionaries it changes are the ones inside
    [visited_children], which is what the method returns.  [flatten] skips
    raw nodes, descends into lists and yields anything else. *)

Definition county_in_dict (d : list (string * value)) (county_name : option value)
  : result (list (string * value) * option value) :=
  let (d1, county_name1) :=
    if dict_has "county" d
    then (dict_remove "county" d, dict_get "county" d)
    else (d, county_name) in
  if dict_has "docket_number" d1 then
    match county_name1 with
    | Some name =>
        if truthy name then Ok (dict_set "county" name d1, county_name1)
        else Raise (RuntimeError "Failed to find county before docket number")
    | None => Raise (RuntimeError "Failed to find county before docket number")
    end
  else Ok (d1, county_name1).

Fixpoint county_in_item (item : value) (county_name : option value)
  : result (value * option value) :=
  match item with
  | VNode _ => Ok (item, county_name)
  | VList items =>
      r <- (fix each (xs : list value) (name : option value)
              : result (list value * option value) :=
              match xs with
              | [] => Ok ([], name)
              | x :: xs' =>
                  r1 <- county_in_item x name ;;
                  r2 <- each xs' (snd r1) ;;
                  Ok (fst r1 :: fst r2, snd r2)
              end) items county_name ;;
      Ok (VList (fst r), snd r)
  | VDict d =>
      r <- county_in_dict d county_name ;;
      Ok (VDict (fst r), snd r)
  | VStr s =>
      (* a string has no [pop] and no item assignment *)
      if Py.contains "county" s then Raise AttributeError
      else if Py.contains "docket_number" s then
        match county_name with
        | Some name =>
            if truthy name then Raise TypeError
            else Raise (RuntimeError "Failed to find county before docket number")
        | None => Raise (RuntimeError "Failed to find county before docket number")
        end
      else Ok (item, county_name)
  | VFloat _ | VDate _ _ _ => Raise TypeError
  end.

Definition visit_county_section : method :=
  fun _ visited_children =>
    r <- county_in_item (VList visited_children) None ;;
    Ok (fst r).

(** ** The two visitors

    [extra] stands for the date reducers and the structural reducers that
    are not modelled here. *)





Section Reduction.

Variable docket_extra : string -> option method.
Variable summary_extra : string -> option method.





(** [grammar.parse] of the grammar loaded for a document type: a tree, or a
    [ParseError]. *)
Variable grammar_parse : DocumentType -> string -> result Node.


End Reduction.

End Parsing.

(* ================================================================== *)
(** * Sample inputs *)

Module Samples.

Import Font Extraction.

(** Sample serialized dockets.  In [docket_two_pages] the page header puts
    "v." and the defendant on lines of their own; in [docket_versus_inline]
    they share a line. *)
Definition line (s : string) : string :=
  (s ++ DocketReader.chr DocketReader.terminator)%string.

Definition docket_two_pages : string :=
  (line "Court of Common Pleas[010.00,020.00,bold]"
   ++ line "DOCKET[010.00,030.00,bold]"
   ++ line "Case Status: Closed[010.00,040.00,normal]"
   ++ line "Printed: 1/1/2020[010.00,700.00,normal]"
   ++ line "Commonwealth of Pennsylvania[200.00,020.00,bold]"
   ++ line "v.[200.00,030.00,bold]"
   ++ line "Smith[200.00,040.00,bold]"
   ++ line "Arrest Date: 2/2/2019[010.00,050.00,normal]")%string.

Definition docket_versus_inline : string :=
  (line "Court of Common Pleas[010.00,020.00,bold]"
   ++ line "DOCKET[010.00,030.00,bold]"
   ++ line "Printed: 1/1/2020[010.00,700.00,normal]"
   ++ line "v. Smith[200.00,030.00,bold]"
   ++ line "Arrest Date: 2/2/2019[010.00,050.00,normal]")%string.

Definition summary_one_page : string :=
  (line "First Judicial District[010.00,020.00,bold]"
   ++ line "Court Summary[010.00,030.00,bold]"
   ++ line "Smith, John[010.00,040.00,normal]")%string.

(** A docket whose second line is itself a printed-date line. *)
Definition docket_printed_second_line : string :=
  (line "Court of Common Pleas[010.00,020.00,bold]"
   ++ line "Printed: 1/1/2020 DOCKET[010.00,030.00,bold]"
   ++ line "v.[200.00,030.00,bold]"
   ++ line "Smith[200.00,040.00,bold]"
   ++ line "Court Summary[010.00,050.00,normal]")%string.

(** A page with one regular font, and an interpreter in the middle of a
    segment on it. *)
Definition arial : PdfFontWrapper :=
  {| base_font := "/ArialMT";
     unicode_map := [(65, "A"); (66, "B"); (32, " ")]%N;
     widths := [(65%N, 667%Z); (66%N, 667%Z); (32%N, 278%Z)] |}.

Definition one_font_page : DocketPageObject :=
  {| fonts := [("/F1", arial)]; font_output_names := [("/F1", "normal")] |}.

Definition in_segment (text : string) (x_carry y_carry : float) : interpreter :=
  {| text_state := {| ts_font_name := "/F1"; size := 10 |};
     text_state_stack := [];
     segment :=
       {| content := text; origin_coordinates := Some (72, 700)%float;
          font_name := None;
          x_translation_from_origin := x_carry;
          y_translation_from_origin := y_carry |};
     extracted_segments := [];
     cur_displacement := 0;
     log := [] |}.

Definition identity : matrix :=
  {| m0 := 1; m1 := 0; m2 := 0; m3 := 1; m4 := 0; m5 := 0 |}.

(** A text block that selects a font, shows an empty array and moves down
    one line before it ends. *)
Definition wrap_only_block : list (operation * matrix * matrix) :=
  [ (Tf "/F1" 10, identity, identity);
    (TJ [], identity, identity);
    (Td 0 (-12), identity, identity);
    (ET, identity, identity) ].

(** The state of [wrap_only_block] just before its [ET]: the content is the
    box-wrap character alone. *)
Definition before_ET : interpreter :=
  {| text_state := {| ts_font_name := "/F1"; size := 10 |};
     text_state_stack := [];
     segment :=
       {| content := "^"; origin_coordinates := Some (0, 0)%float;
          font_name := None;
          x_translation_from_origin := 0;
          y_translation_from_origin := (-12)%float |};
     extracted_segments := [];
     cur_displacement := 0;
     log := [] |}.

(** A font whose ToUnicode map sends one character id to two characters,
    the second of them reserved. *)
Definition ligature_font : PdfFontWrapper :=
  {| base_font := "/ArialMT";
     unicode_map := [(65%N, "f[")];
     widths := [(65%N, 556%Z)] |}.

Definition ligature_block : list (operation * matrix * matrix) :=
  [ (Tf "/F1" 10, identity, identity);
    (Tj [Byte.x41], identity, identity);
    (ET, identity, identity) ].







(** A run of zeros, and an amount of 310 digits. *)
Fixpoint zeros (n : nat) : string :=
  match n with
  | O => EmptyString
  | S k => String "0" (zeros k)
  end.

Definition huge_amount : string := "$1" ++ zeros 309.

End Samples.

(* ================================================================== *)
(** * font.py: the widths of a font *)

Module FontWidths.

(** [range(first, last + 1)], for character codes (non-negative). *)
Definition char_range (first_char last_char : N) : list N :=
  map (fun k => (first_char + N.of_nat k)%N)
    (seq 0 (N.to_nat (last_char + 1 - first_char))).

(** The loop of [get_widths_dict]: [widths_dict[i] = Widths[i - first]]; the
    keys are distinct, so each assignment adds an entry. *)
Fixpoint widths_loop (first_char : N) (array : list Z) (codes : list N)
  (widths_dict : list (N * Z)) : result (list (N * Z)) :=
  match codes with
  | [] => Ok widths_dict
  | i :: rest =>
      w <- Py.index array (N.to_nat (i - first_char)) ;;
      widths_loop first_char array rest (widths_dict ++ [(i, w)])%list
  end.

Definition get_widths_dict (first_char last_char : N) (array : list Z)
  : result (list (N * Z)) :=
  widths_loop first_char array (char_range first_char last_char) [].

End FontWidths.

(* ================================================================== *)
(** * parsing.py: [flatten] and the structural reducers *)

Module Reducers.

Import Parsing.

(** [flatten]: a raw node is left out, a list is flattened, anything else
    (a [str], a [dict], a number, a date) is yielded.  A node of a subclass
    of [Node] is iterated instead of skipped; its children are nodes again,
    so it yields nothing either. *)
Fixpoint flatten_item (item : value) : list value :=
  match item with
  | VNode _ => []
  | VList items => flat_map flatten_item items
  | VDict _ | VStr _ | VFloat _ | VDate _ _ _ => [item]
  end.

Definition flatten (visited_children : list value) : list value :=
  flat_map flatten_item visited_children.

(** [key in item]: a key of a [dict], a substring of a [str], an element of
    a list or of a node's children; a number or a date is not iterable. *)
Definition contains_key (key : string) (item : value) : result bool :=
  match item with
  | VDict d => Ok (dict_has key d)
  | VStr s => Ok (Py.contains key s)
  | VList items =>
      Ok (existsb (fun v => match v with
                            | VStr s => String.eqb s key
                            | _ => false
                            end) items)
  | VNode _ => Ok false
  | VFloat _ | VDate _ _ _ => Raise TypeError
  end.

(** [d.update(u)] *)
Definition dict_update (d u : list (string * value)) : list (string * value) :=
  fold_left (fun acc kv => dict_set (fst kv) (snd kv) acc) u d.

Definition is_dict (item : value) : bool :=
  match item with VDict _ => true | _ => false end.

(** The loop of [visit_whole_docket], [visit_docket_section] and
    [visit_charge_segment]: every dictionary met is merged into one. *)
Definition merge_dicts (items : list value) : list (string * value) :=
  fold_left (fun info visited_child =>
               match visited_child with
               | VDict d => dict_update info d
               | _ => info
               end) items [].

Definition visit_whole_docket : method :=
  fun _ visited_children =>
    Ok (VDict (merge_dicts (flatten visited_children))).

Definition visit_docket_section : method :=
  fun _ visited_children =>
    Ok (VDict (merge_dicts (flatten visited_children))).

Definition visit_charge_segment : method :=
  fun _ visited_children =>
    Ok (VDict (merge_dicts (flatten visited_children))).

(** ** [CourtSummaryVisitor.visit_category_section]

    The dictionaries changed are the ones inside [visited_children], which
    is what the method returns. *)

Definition category_name (node : Node) : string :=
  Py.strip match Py.split DocketReader.properties_open (node_text node) with
           | first :: _ => first
           | [] => EmptyString
           end.

Fixpoint category_in_item (name : string) (item : value) : result value :=
  match item with
  | VNode _ => Ok item
  | VList items =>
      r <- (fix each (xs : list value) : result (list value) :=
              match xs with
              | [] => Ok []
              | x :: xs' =>
                  r1 <- category_in_item name x ;;
                  r2 <- each xs' ;;
                  Ok (r1 :: r2)
              end) items ;;
      Ok (VList r)
  | VDict d =>
      if dict_has "docket_number" d
      then Ok (VDict (dict_set "category" (VStr name) d))
      else Ok item
  | VStr s =>
      (* a string has no item assignment *)
      if Py.contains "docket_number" s then Raise TypeError else Ok item
  | VFloat _ | VDate _ _ _ => Raise TypeError
  end.

Definition visit_category_section : method :=
  fun node visited_children =>
    category_in_item (category_name node) (VList visited_children).

(** ** [CourtSummaryVisitor.visit_whole_summary] *)

Definition summary_step (summary_info : list (string * value))
  (visited_child : value) : result (list (string * value)) :=
  is_docket <- contains_key "docket_number" visited_child ;;
  if is_docket then
    match dict_get "dockets" summary_info with
    | Some (VList dockets) =>
        Ok (dict_set "dockets" (VList (dockets ++ [visited_child]))
              summary_info)
    | Some _ => Raise AttributeError
    | None => Raise KeyError
    end
  else
    match visited_child with
    | VDict d => Ok (dict_update summary_info d)
    | _ => Ok summary_info
    end.

Fixpoint summary_loop (items : list value)
  (summary_info : list (string * value)) : result (list (string * value)) :=
  match items with
  | [] => Ok summary_info
  | visited_child :: rest =>
      summary_info' <- summary_step summary_info visited_child ;;
      summary_loop rest summary_info'
  end.

Definition visit_whole_summary : method :=
  fun _ visited_children =>
    summary_info <- summary_loop (flatten visited_children)
                      [("dockets", VList [])] ;;
    Ok (VDict summary_info).

(** ** [CourtSummaryVisitor.visit_aliases] *)

Definition summary_aliases (text : string) : list string :=
  let aliases := Py.split DocketReader.box_wrap (Py.strip text) in
  if Py.contains "WARRANT" (last aliases EmptyString)
  then removelast aliases
  else aliases.

Definition summary_visit_aliases : method :=
  fun node _ =>
    Ok (VDict [("aliases", VList (map VStr (summary_aliases (node_text node))))]).

(** ** [DocketVisitor.visit_charge_info] and
       [DocketVisitor.visit_disposition_grade_statute]

    The loop the two share: the value under [part] is popped from each
    child and collected, what is left of the child is merged.  A string has
    no [pop], and [update] takes it for a sequence of pairs, which only the
    empty string is.  [flatten] yields neither lists nor nodes. *)

Definition parts_step (part : string)
  (state : list (string * value) * list value) (child : value)
  : result (list (string * value) * list value) :=
  has_part <- contains_key part child ;;
  match child with
  | VDict d =>
      if has_part then
        match dict_get part d with
        | Some v =>
            Ok (dict_update (fst state) (dict_remove part d),
                (snd state ++ [v])%list)
        | None => Raise KeyError
        end
      else Ok (dict_update (fst state) d, snd state)
  | VStr s =>
      if has_part then Raise AttributeError
      else if String.eqb s EmptyString then Ok state
      else Raise ValueError
  | _ => Raise TypeError
  end.

Fixpoint parts_loop (part : string) (items : list value)
  (state : list (string * value) * list value)
  : result (list (string * value) * list value) :=
  match items with
  | [] => Ok state
  | child :: rest =>
      state' <- parts_step part state child ;;
      parts_loop part rest state'
  end.

(** The operand of [' '.join]: every part has to be a [str]. *)
Fixpoint strings_of (parts : list value) : result (list string) :=
  match parts with
  | [] => Ok []
  | VStr s :: rest => ss <- strings_of rest ;; Ok (s :: ss)
  | _ :: _ => Raise TypeError
  end.

Definition joined_parts (part field : string) (visited_children : list value)
  : result (list (string * value)) :=
  state <- parts_loop part (flatten visited_children) ([], []) ;;
  parts <- strings_of (snd state) ;;
  Ok (dict_set field (VStr (Py.strip (Py.join " " parts))) (fst state)).

Definition visit_charge_info : method :=
  fun _ visited_children =>
    charge_info <- joined_parts "charge_description_part" "charge_description"
                     visited_children ;;
    Ok (VDict [("charge_info", VDict charge_info)]).

Definition visit_disposition_grade_statute : method :=
  fun _ visited_children =>
    disposition_grade_statute <-
      joined_parts "offense_disposition_part" "offense_disposition"
        visited_children ;;
    Ok (VDict disposition_grade_statute).

End Reducers.

(* ================================================================== *)
(** * Further sample inputs *)

Module MoreSamples.

Import Font Extraction Samples.

(** A text block of two lines: a bold heading, then a value shown after a
    move to the next line. *)
Definition two_fonts_page : DocketPageObject :=
  {| fonts := [("/F1", arial);
               ("/F2", {| base_font := "/Arial-BoldMT";
                          unicode_map := [(65, "A"); (66, "B")]%N;
                          widths := [(65%N, 722%Z); (66%N, 722%Z)] |})];
     font_output_names := [("/F1", "normal"); ("/F2", "bold")] |}.

Definition at_position (x y : float) : matrix :=
  {| m0 := 1; m1 := 0; m2 := 0; m3 := 1; m4 := x; m5 := y |}.

Definition two_line_block : list (operation * matrix * matrix) :=
  [ (other "BT", identity, identity);
    (Tf "/F2" 12, identity, identity);
    (Td 72 700, identity, identity);
    (Tj [Byte.x41; Byte.x42], identity, at_position 72 700);
    (Tf "/F1" 10, identity, at_position 72 700);
    (Td 0 (-14), identity, at_position 72 700);
    (TJ [TJ_bytes [Byte.x42]; TJ_number (-20); TJ_bytes [Byte.x41]],
     identity, at_position 72 686);
    (ET, identity, at_position 72 686) ].

(** The state [two_line_block] leaves on [two_fonts_page]. *)
Definition after_two_line_block : interpreter :=
  {| text_state := {| ts_font_name := "/F1"; size := 10 |};
     text_state_stack := [];
     segment := new_segment;
     extracted_segments :=
       [ {| content := "AB"; origin_coordinates := Some (72, 700)%float;
            font_name := Some "bold";
            x_translation_from_origin := 0;
            y_translation_from_origin := 0 |};
         {| content := "^BA"; origin_coordinates := Some (72, 686)%float;
            font_name := Some "normal";
            x_translation_from_origin := 0;
            y_translation_from_origin := (-14)%float |} ];
     cur_displacement := 0;
     log := [] |}.

(** The visited children of a county section: the county heading, then a
    list with one docket record and a raw node. *)
Definition bucks_children : list Parsing.value :=
  [ Parsing.VDict [("county", Parsing.VStr "Bucks")];
    Parsing.VList
      [ Parsing.VDict [("docket_number", Parsing.VStr "CP-09-CR-0000001-2020");
                       ("otn", Parsing.VStr "T 123456-7")];
        Parsing.VNode (Parsing.mkNode "" "" []) ] ].

(** The node of a category section, and its visited children. *)
Definition closed_section : Parsing.Node :=
  Parsing.mkNode "category_section" " Closed [010.00,020.00,bold]" [].

Definition closed_children : list Parsing.value :=
  [ Parsing.VList
      [ Parsing.VDict [("docket_number", Parsing.VStr "CP-09-CR-0000001-2020");
                       ("county", Parsing.VStr "Bucks")] ];
    Parsing.VDict [("otn", Parsing.VStr "T 123456-7")] ].

(** The visited children of a whole summary: two fields of the defendant,
    the second given twice, around one docket record. *)
Definition summary_children : list Parsing.value :=
  [ Parsing.VDict [("defendant_name_reversed", Parsing.VStr "Smith, John")];
    Parsing.VList
      [ Parsing.VDict [("aliases", Parsing.VList [Parsing.VStr "J Smith"])];
        Parsing.VDict [("docket_number", Parsing.VStr "CP-09-CR-0000001-2020");
                       ("aliases", Parsing.VList [])] ];
    Parsing.VDict [("aliases", Parsing.VList [Parsing.VStr "Johnny Smith"])] ].

(** The visited children of a charge: its sequence number, the two lines of
    its description, and its grade. *)
Definition charge_children : list Parsing.value :=
  [ Parsing.VDict [("sequence", Parsing.VStr "1")];
    Parsing.VList
      [ Parsing.VDict [("charge_description_part", Parsing.VStr "Theft By")];
        Parsing.VDict [("grade", Parsing.VStr "M1")];
        Parsing.VDict [("charge_description_part",
                        Parsing.VStr "Unlawful Taking")] ] ].

End MoreSamples.

(* ================================================================== *)
(** * Predicates used in the statements *)

(** A line: a string without the separator. *)
Definition sep_free (sep : ascii) (s : string) : Prop :=
  Py.mem_char sep s = false.

Definition printed_free (l : string) : Prop :=
  Re.matches Parsing.printed_date_line_regex l = false.

Definition versus_free (l : string) : Prop :=
  Re.matches Parsing.versus_line_regex l = false.

(** What the loop of the docket filter keeps of [lines] when it comes to
    them outside a page break; the line before them is then not looked
    at. *)
Definition docket_kept (lines : list string) : list string :=
  Parsing.docket_loop EmptyString lines false [].

(** The number written by a string of decimal digits, continuing [acc]. *)
Fixpoint digits_value (s : string) (acc : Z) : Z :=
  match s with
  | EmptyString => acc
  | String c s' => digits_value s' (10 * acc + Py.digit_value c)%Z
  end.

Fixpoint all_digits (s : string) : bool :=
  match s with
  | EmptyString => true
  | String c s' => Py.is_digit c && all_digits s'
  end.

(** The decimal number [int_digits.frac_digits]. *)
Definition decimal (int_digits frac_digits : string) : Q :=
  Py.scale (digits_value (int_digits ++ frac_digits) 0)
    (- Z.of_nat (String.length frac_digits)).

(** [plain_decimal d q]: [d] is a run of digits, optionally followed by a
    point and further digits, and [q] is the number it writes. *)
Inductive plain_decimal : string -> Q -> Prop :=
| plain_integer (i : string) :
    all_digits i = true -> i <> EmptyString ->
    plain_decimal i (decimal i EmptyString)
| plain_point (i f : string) :
    all_digits i = true -> i <> EmptyString -> all_digits f = true ->
    plain_decimal (i ++ "." ++ f) (decimal i f).

(** What may follow a run of digits for [Py.digitpart_rest] to stop there. *)
Definition stops (rest : string) : Prop :=
  match rest with
  | EmptyString => True
  | String c _ => Py.is_digit c = false /\ Ascii.eqb c "_" = false
  end.

Fixpoint no_spaces (s : string) : bool :=
  match s with
  | EmptyString => true
  | String c s' => negb (Py.is_space c) && no_spaces s'
  end.

(** [subsequence kept lines]: [kept] is [lines] with some elements left
    out, the others in their order. *)
Inductive subsequence {A : Type} : list A -> list A -> Prop :=
| subsequence_nil : subsequence [] []
| subsequence_skip (x : A) (kept lines : list A) :
    subsequence kept lines -> subsequence kept (x :: lines)
| subsequence_keep (x : A) (kept lines : list A) :
    subsequence kept lines -> subsequence (x :: kept) (x :: lines).

Definition continuation_free (l : string) : Prop :=
  Re.matches Parsing.continuation_regex l = false.

(** A segment as [terminate_segment] emits it: named after a font of the
    page. *)
Definition named (page : Extraction.DocketPageObject)
  (seg : Extraction.TextSegment) : Prop :=
  exists name,
    Extraction.font_name seg = Some name
    /\ In name (map snd (Extraction.font_output_names page)).

(** [extends st st']: the working segment of [st'] is that of [st] gone on:
    an origin once set is kept, the content is only added to. *)
Definition extends (st st' : Extraction.interpreter) : Prop :=
  (forall o,
      Extraction.origin_coordinates (Extraction.segment st) = Some o ->
      Extraction.origin_coordinates (Extraction.segment st') = Some o)
  /\ exists suffix,
      Extraction.content (Extraction.segment st')
      = (Extraction.content (Extraction.segment st) ++ suffix)%string.

(** [emits page st st']: the output of [st'] is that of [st] with at most
    one more segment, named after a font of the page. *)
Definition emits (page : Extraction.DocketPageObject)
  (st st' : Extraction.interpreter) : Prop :=
  exists more,
    Extraction.extracted_segments st'
    = (Extraction.extracted_segments st ++ more)%list
    /\ (List.length more <= 1)%nat
    /\ Forall (named page) more.

(** Operators other than the save and restore of the graphics state. *)
Definition no_save_restore (op : Extraction.operation) : bool :=
  match op with
  | Extraction.q_push | Extraction.Q_pop => false
  | _ => true
  end.

(** Items as [flatten] yields them: neither a raw node nor a list. *)
Definition is_field (item : Parsing.value) : Prop :=
  match item with
  | Parsing.VNode _ | Parsing.VList _ => False
  | _ => True
  end.

Definition is_record (item : Parsing.value) : Prop :=
  match item with
  | Parsing.VDict _ => True
  | _ => False
  end.

(** The key-value pairs of the dictionaries among [items], in order. *)
Definition bindings (items : list Parsing.value)
  : list (string * Parsing.value) :=
  flat_map (fun item => match item with
                        | Parsing.VDict d => d
                        | _ => []
                        end) items.

(** The three reducers that merge the dictionaries of their children. *)
Definition merging_reducers : list Parsing.method :=
  [ Reducers.visit_whole_docket; Reducers.visit_docket_section;
    Reducers.visit_charge_segment ].

(** An item after [visit_county_section]: a record carries a county exactly
    when it carries a docket number, and the county is then a non-empty
    value; a string mentions neither. *)
Definition county_settled (item : Parsing.value) : Prop :=
  match item with
  | Parsing.VDict d =>
      Parsing.dict_has "county" d = Parsing.dict_has "docket_number" d
      /\ (Parsing.dict_has "docket_number" d = true ->
          exists name,
            Parsing.dict_get "county" d = Some name
            /\ Parsing.truthy name = true)
  | Parsing.VStr s =>
      Py.contains "county" s = false /\ Py.contains "docket_number" s = false
  | _ => False
  end.

(** What [visit_category_section] does to one record. *)
Definition with_category (name : string) (item : Parsing.value)
  : Parsing.value :=
  match item with
  | Parsing.VDict d =>
      if Parsing.dict_has "docket_number" d
      then Parsing.VDict (Parsing.dict_set "category" (Parsing.VStr name) d)
      else item
  | _ => item
  end.

(** The items [visit_whole_summary] collects under "dockets". *)
Definition is_docket (item : Parsing.value) : bool :=
  match item with
  | Parsing.VDict d => Parsing.dict_has "docket_number" d
  | Parsing.VStr s => Py.contains "docket_number" s
  | _ => false
  end.

(** The items [visit_whole_summary] is written for: records, those that are
    not dockets without a key "dockets" of their own, and strings. *)
Definition summary_item (item : Parsing.value) : Prop :=
  match item with
  | Parsing.VDict d =>
      Parsing.dict_has "docket_number" d = true
      \/ Parsing.dict_has "dockets" d = false
  | Parsing.VStr _ => True
  | _ => False
  end.

(** A state of the interpreter in which no content holds the character
    [c]. *)
Definition character_free (c : ascii) (st : Extraction.interpreter) : Prop :=
  Py.mem_char c (Extraction.content (Extraction.segment st)) = false
  /\ Forall (fun seg => Py.mem_char c (Extraction.content seg) = false)
       (Extraction.extracted_segments st).

(** The strings found under [part] in the records among [items], in
    order. *)
Definition part_strings (part : string) (items : list Parsing.value)
  : list string :=
  flat_map (fun item =>
              match item with
              | Parsing.VDict d =>
                  match Parsing.dict_get part d with
                  | Some (Parsing.VStr s) => [s]
                  | _ => []
                  end
              | _ => []
              end) items.

(** A child as the collectors of parts expect it: a record in which
    [part], when present, is a string. *)
Definition part_record (part : string) (item : Parsing.value) : Prop :=
  match item with
  | Parsing.VDict d =>
      match Parsing.dict_get part d with
      | Some (Parsing.VStr _) | None => True
      | Some _ => False
      end
  | _ => False
  end.

(** Fonts whose maps send every character id to at most one character. *)
Definition one_character_maps
  (page_fonts : list (string * Font.PdfFontWrapper)) : bool :=
  forallb (fun nf =>
             forallb (fun kv => (String.length (snd kv) <=? 1)%nat)
               (Font.unicode_map (snd nf)))
    page_fonts.

(** A content that the output format can carry: without the terminator and
    without the two brackets of the properties. *)
Definition format_free (s : string) : Prop :=
  sep_free DocketReader.terminator s
  /\ sep_free DocketReader.properties_open s
  /\ sep_free DocketReader.properties_close s.

(* ================================================================== *)
(** * Facts about strings, [split] and [join] *)

Section StringFacts.

Lemma append_assoc (a b c : string) : (a ++ b) ++ c = a ++ (b ++ c).
Proof.
  induction a as [|x a IH]; simpl; [reflexivity | now rewrite IH].
Qed.

Lemma append_nil_r (s : string) : s ++ "" = s.
Proof.
  induction s as [|x s IH]; simpl; [reflexivity | now rewrite IH].
Qed.

Lemma mem_char_append (c : ascii) (a b : string) :
  Py.mem_char c (a ++ b) = Py.mem_char c a || Py.mem_char c b.
Proof.
  induction a as [|x a IH]; simpl; [reflexivity|].
  now rewrite IH, orb_assoc.
Qed.

End StringFacts.

Section SplitJoin.

Variable sep : ascii.

Lemma split_not_nil (s : string) : Py.split sep s <> [].
Proof.
  induction s as [|c s IH]; simpl; [discriminate|].
  destruct (Ascii.eqb c sep); [discriminate|].
  destruct (Py.split sep s); discriminate.
Qed.

Lemma split_sep_free (s : string) : sep_free sep s -> Py.split sep s = [s].
Proof.
  unfold sep_free. induction s as [|c s IH]; simpl; intros H; [reflexivity|].
  apply orb_false_iff in H. destruct H as [Hc Hs].
  rewrite Hc, (IH Hs). reflexivity.
Qed.

Lemma split_append_sep (l s : string) :
  sep_free sep l -> Py.split sep (l ++ String sep s) = l :: Py.split sep s.
Proof.
  unfold sep_free. induction l as [|c l IH]; simpl; intros H.
  - now rewrite Ascii.eqb_refl.
  - apply orb_false_iff in H. destruct H as [Hc Hl].
    rewrite Hc, (IH Hl). reflexivity.
Qed.

Lemma split_lines_sep_free (s : string) : Forall (sep_free sep) (Py.split sep s).
Proof.
  induction s as [|c s IH]; simpl.
  - constructor; [reflexivity | constructor].
  - destruct (Ascii.eqb c sep) eqn:Hc.
    + constructor; [reflexivity | exact IH].
    + destruct (Py.split sep s) as [|l ls].
      * constructor; [|constructor]. unfold sep_free. simpl. now rewrite Hc.
      * inversion IH as [|? ? Hl Hls]; subst.
        constructor; [|exact Hls]. unfold sep_free in *. simpl. now rewrite Hc.
Qed.

Lemma split_join (lines : list string) :
  lines <> [] -> Forall (sep_free sep) lines ->
  Py.split sep (Py.join sep lines) = lines.
Proof.
  induction lines as [|l ls IH]; intros Hne Hall; [congruence|].
  inversion Hall as [|? ? Hl Hls]; subst.
  destruct ls as [|l2 ls].
  - simpl. now apply split_sep_free.
  - change (Py.join sep (l :: l2 :: ls))
      with (l ++ String sep (Py.join sep (l2 :: ls))).
    rewrite split_append_sep by exact Hl.
    rewrite IH; [reflexivity | discriminate | exact Hls].
Qed.

Lemma join_split (s : string) : Py.join sep (Py.split sep s) = s.
Proof.
  induction s as [|c s IH]; simpl; [reflexivity|].
  destruct (Ascii.eqb_spec c sep) as [->|Hne].
  - pose proof (split_not_nil s) as Hnil.
    destruct (Py.split sep s) as [|l ls]; [congruence|].
    simpl in *. now rewrite IH.
  - pose proof (split_not_nil s) as Hnil.
    destruct (Py.split sep s) as [|l ls]; [congruence|].
    destruct ls as [|l2 ls]; simpl in *; now rewrite <- IH.
Qed.

Lemma join_snoc_empty (lines : list string) :
  lines <> [] ->
  Py.join sep (lines ++ [EmptyString]) = Py.join sep lines ++ String sep "".
Proof.
  induction lines as [|l ls IH]; intros Hne; [congruence|].
  destruct ls as [|l2 ls].
  - reflexivity.
  - change (Py.join sep ((l :: l2 :: ls) ++ [EmptyString]))
      with (l ++ String sep (Py.join sep ((l2 :: ls) ++ [EmptyString]))).
    rewrite IH by discriminate.
    change (Py.join sep (l :: l2 :: ls))
      with (l ++ String sep (Py.join sep (l2 :: ls))).
    now rewrite append_assoc.
Qed.

Lemma split_once_mem (s : string) :
  Py.mem_char sep s = true ->
  exists a b, Py.split_once sep s = [a; b].
Proof.
  induction s as [|c s IH]; simpl; [discriminate|].
  destruct (Ascii.eqb c sep); simpl; intros H.
  - now exists EmptyString, s.
  - destruct (IH H) as (a & b & ->). now exists (String c a), b.
Qed.

End SplitJoin.

(* ================================================================== *)
(** * Facts about the regular-expression matcher *)

Section RegexFacts.

Import Re.

Lemma void_nullable (r : regex) : void r = true -> nullable r = false.
Proof.
  induction r; simpl; intros H; try discriminate; try reflexivity.
  - apply orb_true_iff in H. destruct H as [H|H].
    + now rewrite IHr1.
    + rewrite IHr2 by exact H. apply andb_false_r.
  - apply andb_true_iff in H. destruct H as [H1 H2].
    now rewrite IHr1, IHr2.
Qed.

Lemma void_deriv (a : ascii) (r : regex) :
  void r = true -> void (deriv a r) = true.
Proof.
  induction r; simpl; intros H; try discriminate; try reflexivity.
  - apply orb_true_iff in H. destruct H as [H|H].
    + rewrite (void_nullable r1 H). simpl. now rewrite IHr1.
    + destruct (nullable r1); simpl; rewrite ?H, ?IHr2, ?orb_true_r; auto.
  - apply andb_true_iff in H. destruct H as [H1 H2].
    now rewrite IHr1, IHr2.
Qed.

Lemma void_matches (r : regex) (s : string) :
  void r = true -> matches r s = false.
Proof.
  revert r. induction s as [|a s IH]; intros r H; simpl.
  - now rewrite void_nullable.
  - rewrite void_nullable by exact H. simpl. apply IH. now apply void_deriv.
Qed.

Lemma ascii_enum (P : ascii -> bool) (a : ascii) :
  forallb (fun n => P (ascii_of_nat n)) (seq 0 256) = true -> P a = true.
Proof.
  intros H. rewrite forallb_forall in H.
  rewrite <- (ascii_nat_embedding a). apply H.
  apply in_seq. pose proof (nat_ascii_bounded a). lia.
Qed.

Lemma needs_nullable (c : ascii) (r : regex) :
  needs c r = true -> nullable r = false.
Proof.
  induction r; simpl; intros H; try discriminate; try reflexivity.
  - apply orb_true_iff in H. destruct H as [H|H].
    + now rewrite IHr1.
    + rewrite IHr2 by exact H. apply andb_false_r.
  - apply andb_true_iff in H. destruct H as [H1 H2].
    now rewrite IHr1, IHr2.
Qed.

Lemma needs_deriv (c a : ascii) (r : regex) :
  needs c r = true -> a = c \/ needs c (deriv a r) = true.
Proof.
  induction r; simpl; intros H; try discriminate; auto.
  - destruct (p a) eqn:Hp; [left | now right].
    pose proof (ascii_enum (fun x => implb (p x) (Ascii.eqb x c)) a H) as Ha.
    simpl in Ha. rewrite Hp in Ha. simpl in Ha. now apply Ascii.eqb_eq.
  - apply orb_true_iff in H. destruct H as [H|H].
    + rewrite (needs_nullable c r1 H).
      destruct (IHr1 H) as [->|H1]; [now left | right; simpl; now rewrite H1].
    + destruct (IHr2 H) as [->|H2]; [now left | right].
      destruct (nullable r1); simpl; rewrite ?H, ?H2, ?orb_true_r; auto.
  - apply andb_true_iff in H. destruct H as [H1 H2].
    destruct (IHr1 H1) as [->|H1']; [now left|].
    destruct (IHr2 H2) as [->|H2']; [now left|].
    right. now rewrite H1', H2'.
Qed.

Lemma needs_matches (c : ascii) (r : regex) (s : string) :
  needs c r = true -> matches r s = true -> Py.mem_char c s = true.
Proof.
  revert r. induction s as [|a s IH]; intros r Hn Hm; simpl in *.
  - rewrite (needs_nullable c r Hn) in Hm. discriminate.
  - rewrite (needs_nullable c r Hn) in Hm. simpl in Hm.
    destruct (needs_deriv c a r Hn) as [->|Hd].
    + now rewrite Ascii.eqb_refl.
    + rewrite (IH _ Hd Hm). apply orb_true_r.
Qed.

End RegexFacts.

(* ================================================================== *)
(** * The page-break filters *)

Section PageBreaks.

Import Re Parsing.
Local Open Scope list_scope.

Lemma versus_first (c : ascii) (s : string) :
  matches versus_line_regex (String c s) = true -> c = "v"%char.
Proof.
  intros H. destruct (Ascii.eqb_spec "v"%char c) as [E|E]; [now symmetry|].
  apply Ascii.eqb_neq in E.
  change (matches versus_line_regex (String c s))
    with (matches (deriv c versus_line_regex) s) in H.
  rewrite void_matches in H; [discriminate|].
  cbn -[Ascii.eqb]. rewrite E. reflexivity.
Qed.

Lemma printed_first (c : ascii) (s : string) :
  matches printed_date_line_regex (String c s) = true -> c = "P"%char.
Proof.
  intros H. destruct (Ascii.eqb_spec "P"%char c) as [E|E]; [now symmetry|].
  apply Ascii.eqb_neq in E.
  change (matches printed_date_line_regex (String c s))
    with (matches (deriv c printed_date_line_regex) s) in H.
  rewrite void_matches in H; [discriminate|].
  cbn -[Ascii.eqb]. rewrite E. reflexivity.
Qed.

Lemma printed_not_versus (l : string) :
  matches printed_date_line_regex l = true -> versus_free l.
Proof.
  unfold versus_free. destruct l as [|c s]; intros H; [discriminate H|].
  apply printed_first in H. subst c.
  destruct (matches versus_line_regex (String "P" s)) eqn:E; [|reflexivity].
  apply versus_first in E. discriminate E.
Qed.

Lemma textbox_has_box_wrap (l : string) :
  matches continuation_textbox_regex l = true ->
  Py.mem_char DocketReader.box_wrap l = true.
Proof.
  apply needs_matches. vm_compute. reflexivity.
Qed.

(** ** The docket loop *)

Lemma docket_loop_acc (lines : list string) :
  forall prev b acc,
    docket_loop prev lines b acc = acc ++ docket_loop prev lines b [].
Proof.
  induction lines as [|l ls IH]; intros prev b acc; simpl.
  - now rewrite app_nil_r.
  - destruct b.
    + destruct (matches versus_line_regex prev); apply IH.
    + destruct (matches printed_date_line_regex l); [apply IH|].
      rewrite (IH l false (acc ++ [l])), (IH l false [l]).
      now rewrite <- app_assoc.
Qed.

Lemma docket_loop_printed_free (lines : list string) :
  forall prev acc,
    Forall printed_free lines ->
    docket_loop prev lines false acc = acc ++ lines.
Proof.
  induction lines as [|l ls IH]; intros prev acc H; simpl.
  - now rewrite app_nil_r.
  - inversion H as [|? ? Hl Hls]; subst. rewrite Hl.
    rewrite IH by exact Hls. now rewrite <- app_assoc.
Qed.

(** Outside a page break the previous line is not looked at. *)
Lemma docket_loop_prev (lines : list string) (p1 p2 : string) (acc : list string) :
  docket_loop p1 lines false acc = docket_loop p2 lines false acc.
Proof.
  destruct lines; reflexivity.
Qed.


Lemma docket_loop_kept (lines : list string) :
  forall prev b, Forall printed_free (docket_loop prev lines b []).
Proof.
  induction lines as [|l ls IH]; intros prev b; simpl; [constructor|].
  destruct b.
  - destruct (matches versus_line_regex prev); apply IH.
  - destruct (matches printed_date_line_regex l) eqn:E; [apply IH|].
    rewrite docket_loop_acc. constructor; [exact E | apply IH].
Qed.

(** Inside a page break every line is dropped up to and including the one
    that follows the first line matching the versus pattern. *)
Lemma docket_loop_region (mid : list string) :
  forall prev versus after post acc,
    versus_free prev -> Forall versus_free mid ->
    matches versus_line_regex versus = true ->
    docket_loop prev (mid ++ versus :: after :: post) true acc
    = docket_loop after post false acc.
Proof.
  induction mid as [|m ms IH]; intros prev versus after post acc Hp Hm Hv.
  - simpl. rewrite Hp, Hv. reflexivity.
  - inversion Hm as [|? ? Hm1 Hms]; subst.
    change ((m :: ms) ++ versus :: after :: post)
      with (m :: (ms ++ versus :: after :: post)).
    cbn [docket_loop]. rewrite Hp. now apply IH.
Qed.


Lemma remove_docket_page_breaks_lines (lines : list string) :
  lines <> [] -> Forall (sep_free DocketReader.terminator) lines ->
  remove_docket_page_breaks (Py.join DocketReader.terminator lines)
  = (Py.join DocketReader.terminator
       (hd EmptyString lines
        :: docket_loop (hd EmptyString lines) (tl lines) false [])
     ++ DocketReader.chr DocketReader.terminator)%string.
Proof.
  intros Hne Hfree. unfold remove_docket_page_breaks.
  rewrite split_join by assumption.
  cbv zeta. now rewrite docket_loop_acc.
Qed.

(** ** The court-summary loop *)

Lemma court_summary_loop_acc (lines : list string) :
  forall prev b acc,
    court_summary_loop prev lines b acc
    = (out <- court_summary_loop prev lines b [] ;; Ok (acc ++ out)).
Proof.
  induction lines as [|l ls IH]; intros prev b acc; simpl.
  - now rewrite app_nil_r.
  - destruct b.
    + destruct (matches continuation_regex prev
                && negb (matches continuation_regex l)); [|apply IH].
      destruct (matches continuation_textbox_regex l).
      * destruct (Py.index (Py.split_once DocketReader.box_wrap l) 1)
          as [post|e]; simpl; [|reflexivity].
        rewrite (IH l false (acc ++ [post])), (IH l false [post]).
        destruct (court_summary_loop l ls false []); simpl; [|reflexivity].
        now rewrite <- app_assoc.
      * rewrite (IH l false (acc ++ [l])), (IH l false [l]).
        destruct (court_summary_loop l ls false []); simpl; [|reflexivity].
        now rewrite <- app_assoc.
    + destruct (matches printed_date_line_regex l); [apply IH|].
      rewrite (IH l false (acc ++ [l])), (IH l false [l]).
      destruct (court_summary_loop l ls false []); simpl; [|reflexivity].
      now rewrite <- app_assoc.
Qed.

(** The loop never raises: the text-box pattern only matches a line that
    holds a box-wrap character, so the split has a second part. *)
Lemma court_summary_loop_total (lines : list string) :
  forall prev b acc,
    exists out, court_summary_loop prev lines b acc = Ok out.
Proof.
  induction lines as [|l ls IH]; intros prev b acc; simpl; [now eexists|].
  destruct b.
  - destruct (matches continuation_regex prev
              && negb (matches continuation_regex l)); [|apply IH].
    destruct (matches continuation_textbox_regex l) eqn:E; [|apply IH].
    apply textbox_has_box_wrap in E.
    destruct (split_once_mem _ _ E) as (a & b & ->). simpl. apply IH.
  - destruct (matches printed_date_line_regex l); apply IH.
Qed.

Lemma court_summary_loop_printed_free (lines : list string) :
  forall prev acc,
    Forall printed_free lines ->
    court_summary_loop prev lines false acc = Ok (acc ++ lines).
Proof.
  induction lines as [|l ls IH]; intros prev acc H; simpl.
  - now rewrite app_nil_r.
  - inversion H as [|? ? Hl Hls]; subst. rewrite Hl.
    rewrite IH by exact Hls. now rewrite <- app_assoc.
Qed.

Lemma remove_court_summary_page_breaks_total (text : string) :
  exists out, remove_court_summary_page_breaks text = Ok out.
Proof.
  unfold remove_court_summary_page_breaks. cbv zeta.
  destruct (court_summary_loop_total
              (tl (Py.split DocketReader.terminator text)) (hd EmptyString (Py.split DocketReader.terminator text))
              false [hd EmptyString (Py.split DocketReader.terminator text)]) as [out ->].
  simpl. now eexists.
Qed.

End PageBreaks.

(* ================================================================== *)
(** * Document-type detection *)

Section DocumentTypeDetection.

Import Parsing.
Local Open Scope list_scope.

Lemma split_mem (sep : ascii) (s : string) :
  Py.mem_char sep s = true ->
  exists a b rest, Py.split sep s = a :: b :: rest.
Proof.
  induction s as [|c s IH]; simpl; [discriminate|].
  destruct (Ascii.eqb c sep); simpl; intros H.
  - pose proof (split_not_nil sep s) as Hne.
    destruct (Py.split sep s) as [|b rest]; [congruence|].
    now exists EmptyString, b, rest.
  - destruct (IH H) as (a & b & rest & ->).
    now exists (String c a), b, rest.
Qed.

Lemma second_line_absent (sep : ascii) (s : string) :
  nth_error (Py.split sep s) 1 = None <-> Py.mem_char sep s = false.
Proof.
  split; intros H.
  - destruct (Py.mem_char sep s) eqn:E; [|reflexivity].
    destruct (split_mem sep s E) as (a & b & rest & Hs).
    rewrite Hs in H. discriminate H.
  - now rewrite split_sep_free.
Qed.

(** The second line of a text whose first two lines are known. *)
Lemma second_line_join (sep : ascii) (first line_2 : string) (more : list string) :
  sep_free sep first -> sep_free sep line_2 ->
  nth_error
    (Py.split sep (Py.join sep (first :: line_2 :: more) ++ String sep "")%string)
    1 = Some line_2.
Proof.
  intros Hf H2.
  change (Py.join sep (first :: line_2 :: more))
    with (first ++ String sep (Py.join sep (line_2 :: more)))%string.
  rewrite append_assoc.
  change (String sep (Py.join sep (line_2 :: more)) ++ String sep "")%string
    with (String sep (Py.join sep (line_2 :: more) ++ String sep ""))%string.
  rewrite split_append_sep by exact Hf.
  destruct more as [|m ms].
  - simpl Py.join. rewrite split_append_sep by exact H2. reflexivity.
  - change (Py.join sep (line_2 :: m :: ms))
      with (line_2 ++ String sep (Py.join sep (m :: ms)))%string.
    rewrite append_assoc.
    change (String sep (Py.join sep (m :: ms)) ++ String sep "")%string
      with (String sep (Py.join sep (m :: ms) ++ String sep ""))%string.
    rewrite split_append_sep by exact H2. reflexivity.
Qed.

(** C9.  [get_document_type] raises [IndexError] exactly on a text without a
    terminator (fewer than two lines, the empty text among them); it raises
    the parse error exactly when a second line exists and holds neither
    "docket" nor "court summary" once lower-cased; and a second line that
    holds "docket" gives [DOCKET], whether or not it also holds
    "court summary", because that test comes first. *)
Theorem get_document_type_cases :
  (forall text,
      get_document_type text = Raise IndexError
      <-> Py.mem_char "010"%char text = false)
  /\ (forall text,
         get_document_type text
         = Raise (ParseError "Could not determine document type")
         <-> exists line_2,
             nth_error (Py.split "010"%char text) 1 = Some line_2
             /\ Py.contains "docket" (Py.lower line_2) = false
             /\ Py.contains "court summary" (Py.lower line_2) = false)
  /\ (forall text line_2,
         nth_error (Py.split "010"%char text) 1 = Some line_2 ->
         Py.contains "docket" (Py.lower line_2) = true ->
         Py.contains "court summary" (Py.lower line_2) = true ->
         get_document_type text = Ok DOCKET).
Proof.
  split; [|split].
  - intros text. rewrite <- second_line_absent.
    unfold get_document_type, Py.index.
    destruct (nth_error (Py.split "010" text) 1) as [line_2|]; simpl.
    + split; [|discriminate].
      destruct (Py.contains "docket" (Py.lower line_2)); [discriminate|].
      destruct (Py.contains "court summary" (Py.lower line_2)); discriminate.
    + split; reflexivity.
  - intros text. unfold get_document_type, Py.index.
    destruct (nth_error (Py.split "010" text) 1) as [line_2|]; simpl.
    + split.
      * intros H. exists line_2.
        destruct (Py.contains "docket" (Py.lower line_2)); [discriminate|].
        destruct (Py.contains "court summary" (Py.lower line_2));
          [discriminate|]. auto.
      * intros (l & Hl & Hd & Hc). injection Hl as <-.
        now rewrite Hd, Hc.
    + split; [discriminate|]. intros (l & Hl & _). discriminate Hl.
  - intros text line_2 Hl Hd _. unfold get_document_type, Py.index.
    rewrite Hl. simpl. now rewrite Hd.
Qed.

Lemma get_document_type_cases_witness :
  get_document_type "" = Raise IndexError
  /\ get_document_type ("First Judicial District" ++ DocketReader.chr "010"
                        ++ "Secure Court Summary Docket" ++ DocketReader.chr "010")%string
     = Ok DOCKET.
Proof.
  destruct get_document_type_cases as (H1 & _ & H3). split.
  - apply H1. reflexivity.
  - apply (H3 _ "Secure Court Summary Docket"%string); reflexivity.
Defined.

End DocumentTypeDetection.

(* ================================================================== *)
(** * What the page-break filters keep *)

Section PageBreakFilter.

Import Re Parsing Samples.
Local Open Scope list_scope.

(** C1 as stated fails: the line matching the versus pattern is dropped, and
    so is the line after it; a "v. Smith" line does not match the pattern at
    all, so the break never ends and the line is dropped with the rest. *)
Lemma docket_versus_line_not_kept :
  matches versus_line_regex "v.[200.00,030.00,bold]" = true
  /\ In "v.[200.00,030.00,bold]"%string
       (Py.split DocketReader.terminator docket_two_pages)
  /\ remove_docket_page_breaks docket_two_pages
     = (line "Court of Common Pleas[010.00,020.00,bold]"
        ++ line "DOCKET[010.00,030.00,bold]"
        ++ line "Case Status: Closed[010.00,040.00,normal]"
        ++ line "Arrest Date: 2/2/2019[010.00,050.00,normal]"
        ++ line "")%string
  /\ ~ In "v.[200.00,030.00,bold]"%string
       (Py.split DocketReader.terminator
          (remove_docket_page_breaks docket_two_pages))
  /\ ~ In "v. Smith[200.00,030.00,bold]"%string
       (Py.split DocketReader.terminator
          (remove_docket_page_breaks docket_versus_inline)).
Proof.
  repeat split; try (vm_compute; reflexivity).
  - vm_compute. tauto.
  - vm_compute. intuition discriminate.
  - vm_compute. intuition discriminate.
Qed.

Lemma docket_loop_split (pre rest : list string) :
  forall prev b acc,
    docket_in_page_break prev pre b = false ->
    docket_loop prev (pre ++ rest) b acc
    = docket_loop EmptyString rest false (acc ++ docket_loop prev pre b []).
Proof.
  induction pre as [|l ls IH]; intros prev b acc H.
  - cbn in H. subst b. cbn [app docket_loop]. rewrite app_nil_r.
    apply docket_loop_prev.
  - change ((l :: ls) ++ rest) with (l :: (ls ++ rest)).
    cbn [app docket_loop docket_in_page_break] in *. destruct b.
    + destruct (matches versus_line_regex prev); now apply IH.
    + destruct (matches printed_date_line_regex l); [now apply IH|].
      rewrite (IH l false (acc ++ [l]) H), (docket_loop_acc ls l false [l]).
      now rewrite <- app_assoc.
Qed.

Lemma docket_loop_region_end (mid : list string) :
  forall prev versus tail acc,
    versus_free prev -> Forall versus_free mid ->
    matches versus_line_regex versus = true ->
    docket_loop prev (mid ++ versus :: tail) true acc
    = docket_loop EmptyString (tl tail) false acc.
Proof.
  induction mid as [|m ms IH]; intros prev versus tail acc Hp Hm Hv.
  - cbn [app docket_loop]. rewrite Hp.
    destruct tail as [|after post]; [reflexivity|].
    cbn [docket_loop tl]. rewrite Hv. apply docket_loop_prev.
  - inversion Hm as [|? ? Hm1 Hms]; subst.
    change ((m :: ms) ++ versus :: tail) with (m :: (ms ++ versus :: tail)).
    cbn [docket_loop]. rewrite Hp. now apply IH.
Qed.

Lemma docket_outside_printed_free (pre : list string) :
  forall prev,
    Forall printed_free pre -> docket_in_page_break prev pre false = false.
Proof.
  induction pre as [|l ls IH]; intros prev H; [reflexivity|].
  inversion H as [|? ? Hl Hls]; subst.
  cbn [docket_in_page_break]. rewrite Hl. now apply IH.
Qed.

(** C1, amended.  For a docket text given by its lines: when the filter
    comes to a line matching the printed-date pattern outside a page break,
    and a later line matches the versus pattern [v\. *\[...\]], the printed
    line is dropped together with every following line up to and including
    the line right after the first one that matches the versus pattern; the
    versus line itself is not kept.  The result
    is the first line, what the filter keeps of the lines before the printed
    line, and what it keeps of the lines after the dropped region, where
    further page breaks are dropped in the same way; lines without a
    printed-date line among them are kept as they are. *)
Theorem docket_page_break_region_dropped
  (first printed versus : string) (pre mid tail : list string) :
  Forall (sep_free DocketReader.terminator)
    (first :: pre ++ printed :: mid ++ versus :: tail) ->
  docket_in_page_break first pre false = false ->
  matches printed_date_line_regex printed = true ->
  Forall versus_free mid ->
  matches versus_line_regex versus = true ->
  remove_docket_page_breaks
    (Py.join DocketReader.terminator
       (first :: pre ++ printed :: mid ++ versus :: tail))
  = (Py.join DocketReader.terminator
       (first :: docket_kept pre ++ docket_kept (tl tail))
     ++ DocketReader.chr DocketReader.terminator)%string
  /\ (Forall printed_free pre -> docket_kept pre = pre)
  /\ (Forall printed_free (tl tail) -> docket_kept (tl tail) = tl tail).
Proof.
  intros Hfree Hout Hp Hmid Hv. split; [|split].
  - rewrite remove_docket_page_breaks_lines by (exact Hfree || discriminate).
    cbn [hd tl]. do 2 f_equal. f_equal.
    rewrite (docket_loop_split pre _ first false [] Hout).
    cbn [app docket_loop]. rewrite Hp.
    rewrite docket_loop_region_end
      by (exact Hmid || exact Hv || now apply printed_not_versus).
    rewrite docket_loop_acc. unfold docket_kept. f_equal.
    apply docket_loop_prev.
  - intros H. unfold docket_kept. now rewrite docket_loop_printed_free.
  - intros H. unfold docket_kept. now rewrite docket_loop_printed_free.
Qed.

Lemma docket_page_break_region_dropped_witness :
  (remove_docket_page_breaks
     (Py.join DocketReader.terminator
        ("Court of Common Pleas[010.00,020.00,bold]"%string
         :: [ "DOCKET[010.00,030.00,bold]"%string;
              "Printed: 1/1/2020[010.00,700.00,normal]"%string;
              "v.[200.00,030.00,bold]"%string;
              "Smith[200.00,040.00,bold]"%string;
              "Case Status: Closed[010.00,040.00,normal]"%string ]
         ++ "Printed: 1/1/2020[010.00,700.00,normal]"%string
         :: ["Commonwealth of Pennsylvania[200.00,020.00,bold]"%string]
         ++ "v.[200.00,030.00,bold]"%string
         :: [ "Smith[200.00,040.00,bold]"%string;
              "Arrest Date: 2/2/2019[010.00,050.00,normal]"%string;
              "Printed: 1/1/2020[010.00,700.00,normal]"%string;
              "v.[200.00,030.00,bold]"%string;
              "Smith[200.00,040.00,bold]"%string;
              "Disposition: Guilty[010.00,060.00,normal]"%string;
              ""%string ]))
   = (Py.join DocketReader.terminator
        ("Court of Common Pleas[010.00,020.00,bold]"%string
         :: docket_kept
              [ "DOCKET[010.00,030.00,bold]"%string;
                "Printed: 1/1/2020[010.00,700.00,normal]"%string;
                "v.[200.00,030.00,bold]"%string;
                "Smith[200.00,040.00,bold]"%string;
                "Case Status: Closed[010.00,040.00,normal]"%string ]
         ++ docket_kept
              (tl [ "Smith[200.00,040.00,bold]"%string;
                    "Arrest Date: 2/2/2019[010.00,050.00,normal]"%string;
                    "Printed: 1/1/2020[010.00,700.00,normal]"%string;
                    "v.[200.00,030.00,bold]"%string;
                    "Smith[200.00,040.00,bold]"%string;
                    "Disposition: Guilty[010.00,060.00,normal]"%string;
                    ""%string ]))
      ++ DocketReader.chr DocketReader.terminator)%string)
  /\ docket_kept
       [ "DOCKET[010.00,030.00,bold]"%string;
         "Printed: 1/1/2020[010.00,700.00,normal]"%string;
         "v.[200.00,030.00,bold]"%string;
         "Smith[200.00,040.00,bold]"%string;
         "Case Status: Closed[010.00,040.00,normal]"%string ]
     = [ "DOCKET[010.00,030.00,bold]"%string;
         "Case Status: Closed[010.00,040.00,normal]"%string ]
  /\ docket_kept
       [ "Arrest Date: 2/2/2019[010.00,050.00,normal]"%string;
         "Printed: 1/1/2020[010.00,700.00,normal]"%string;
         "v.[200.00,030.00,bold]"%string;
         "Smith[200.00,040.00,bold]"%string;
         "Disposition: Guilty[010.00,060.00,normal]"%string;
         ""%string ]
     = [ "Arrest Date: 2/2/2019[010.00,050.00,normal]"%string;
         "Disposition: Guilty[010.00,060.00,normal]"%string;
         ""%string ].
Proof.
  split; [|split].
  - apply docket_page_break_region_dropped.
    + repeat constructor.
    + vm_compute. reflexivity.
    + vm_compute. reflexivity.
    + repeat constructor.
    + vm_compute. reflexivity.
  - vm_compute. reflexivity.
  - vm_compute. reflexivity.
Defined.

(** ** Filtering twice *)

Lemma docket_filter_as_lines (text : string) :
  exists first kept,
    sep_free DocketReader.terminator first
    /\ Forall (sep_free DocketReader.terminator) kept
    /\ Forall printed_free kept
    /\ remove_docket_page_breaks text
       = Py.join DocketReader.terminator ((first :: kept) ++ [EmptyString]).
Proof.
  pose proof (split_not_nil DocketReader.terminator text) as Hne.
  pose proof (split_lines_sep_free DocketReader.terminator text) as Hfree.
  unfold remove_docket_page_breaks. cbv zeta.
  destruct (Py.split DocketReader.terminator text) as [|first rest];
    [congruence|].
  inversion Hfree as [|? ? Hf Hrest]; subst. cbn [hd tl].
  exists first, (docket_loop first rest false []).
  split; [exact Hf|]. split; [|split].
  - clear Hne Hfree. generalize first at 1. generalize false.
    induction rest as [|l ls IH]; intros b prev; simpl; [constructor|].
    inversion Hrest as [|? ? Hl Hls]; subst.
    destruct b.
    + destruct (matches versus_line_regex prev); now apply IH.
    + destruct (matches printed_date_line_regex l); [now apply IH|].
      rewrite docket_loop_acc. constructor; [exact Hl | now apply IH].
  - apply docket_loop_kept.
  - rewrite docket_loop_acc, join_snoc_empty by discriminate. reflexivity.
Qed.

(** A text without printed-date lines after its first line only gains a
    terminator. *)
Lemma remove_docket_page_breaks_printed_free (lines : list string) :
  Forall (sep_free DocketReader.terminator) lines ->
  Forall printed_free (tl lines) -> lines <> [] ->
  remove_docket_page_breaks (Py.join DocketReader.terminator lines)
  = (Py.join DocketReader.terminator lines
     ++ DocketReader.chr DocketReader.terminator)%string.
Proof.
  intros Hfree Hp Hne. rewrite remove_docket_page_breaks_lines by assumption.
  rewrite docket_loop_printed_free by exact Hp.
  destruct lines; [congruence | reflexivity].
Qed.

Lemma remove_court_summary_page_breaks_printed_free (text : string) :
  Forall printed_free (tl (Py.split DocketReader.terminator text)) ->
  remove_court_summary_page_breaks text
  = Ok (text ++ DocketReader.chr DocketReader.terminator)%string.
Proof.
  intros Hp. unfold remove_court_summary_page_breaks. cbv zeta.
  rewrite court_summary_loop_printed_free by exact Hp. simpl bind.
  pose proof (split_not_nil DocketReader.terminator text) as Hne.
  pose proof (join_split DocketReader.terminator text) as Hj.
  destruct (Py.split DocketReader.terminator text) as [|first rest];
    [congruence|].
  cbn [hd tl app]. rewrite <- Hj. reflexivity.
Qed.

(** C3 as stated fails: every application of a filter ends its result with
    one more terminator, so the second pass differs from the first. *)
Lemma page_break_filter_not_idempotent :
  remove_docket_page_breaks (remove_docket_page_breaks docket_two_pages)
  <> remove_docket_page_breaks docket_two_pages
  /\ (once <- remove_court_summary_page_breaks summary_one_page ;;
      remove_court_summary_page_breaks once)
     <> remove_court_summary_page_breaks summary_one_page.
Proof.
  split; vm_compute; discriminate.
Qed.

(** C3, amended.  A second pass of the docket filter changes the filtered
    text only by appending one more terminator, for every text.  The same
    holds for the court-summary filter whenever no line after the first of
    the once-filtered text matches the printed-date pattern. *)
Theorem page_break_filter_twice :
  (forall text,
      remove_docket_page_breaks (remove_docket_page_breaks text)
      = (remove_docket_page_breaks text
         ++ DocketReader.chr DocketReader.terminator)%string)
  /\ (forall text once,
         remove_court_summary_page_breaks text = Ok once ->
         Forall printed_free (tl (Py.split DocketReader.terminator once)) ->
         remove_court_summary_page_breaks once
         = Ok (once ++ DocketReader.chr DocketReader.terminator)%string).
Proof.
  split.
  - intros text.
    destruct (docket_filter_as_lines text)
      as (first & kept & Hf & Hk & Hp & ->).
    apply remove_docket_page_breaks_printed_free; [| |discriminate].
    + constructor; [exact Hf|]. apply Forall_app. split; [exact Hk|].
      constructor; [reflexivity | constructor].
    + cbn [tl app]. apply Forall_app. split; [exact Hp|].
      constructor; [reflexivity | constructor].
  - intros text once _ Hp.
    now apply remove_court_summary_page_breaks_printed_free.
Qed.

Lemma page_break_filter_twice_witness :
  remove_docket_page_breaks (remove_docket_page_breaks docket_two_pages)
  = (remove_docket_page_breaks docket_two_pages
     ++ DocketReader.chr DocketReader.terminator)%string
  /\ remove_court_summary_page_breaks
       (summary_one_page ++ DocketReader.chr DocketReader.terminator)%string
     = Ok ((summary_one_page ++ DocketReader.chr DocketReader.terminator)
           ++ DocketReader.chr DocketReader.terminator)%string.
Proof.
  destruct page_break_filter_twice as [Hd Hc]. split.
  - apply Hd.
  - apply (Hc summary_one_page).
    + vm_compute. reflexivity.
    + vm_compute. repeat constructor.
Defined.

(** ** Detecting the type again after filtering *)

(** C7 as stated fails: a second line that is itself a printed-date line is
    dropped by the filter, and another line takes its place. *)
Lemma document_type_changed_by_filter :
  get_document_type docket_printed_second_line = Ok DOCKET
  /\ (out <- remove_page_breaks docket_printed_second_line ;;
      get_document_type out) = Ok COURT_SUMMARY.
Proof.
  split; vm_compute; reflexivity.
Qed.

(** C7, amended.  When the type of a text is determined and its second line
    does not match the printed-date pattern, the page-break filter for that
    type returns a text, and detecting the type on it gives the same type. *)
Theorem document_type_stable_under_filter (text line_2 : string)
  (document_type : DocumentType) :
  get_document_type text = Ok document_type ->
  nth_error (Py.split DocketReader.terminator text) 1 = Some line_2 ->
  printed_free line_2 ->
  exists out,
    remove_page_breaks text = Ok out
    /\ get_document_type out = Ok document_type.
Proof.
  intros Hty Hl Hp.
  assert (Hdet : forall more first,
             sep_free DocketReader.terminator first ->
             sep_free DocketReader.terminator line_2 ->
             get_document_type
               (Py.join DocketReader.terminator (first :: line_2 :: more)
                ++ DocketReader.chr DocketReader.terminator)%string
             = Ok document_type).
  { intros more first Hf H2. unfold get_document_type, Py.index in *.
    change (Py.split "010") with (Py.split DocketReader.terminator) in *.
    unfold DocketReader.chr.
    rewrite second_line_join by assumption.
    rewrite Hl in Hty. exact Hty. }
  unfold remove_page_breaks. rewrite Hty. simpl bind.
  pose proof (split_lines_sep_free DocketReader.terminator text) as Hfree.
  destruct (Py.split DocketReader.terminator text) as [|first rest] eqn:Hs;
    [discriminate Hl|].
  destruct rest as [|l2 rest]; [discriminate Hl|].
  injection Hl as ->.
  inversion Hfree as [|? ? Hf Hrest]; subst.
  inversion Hrest as [|? ? H2 _]; subst.
  destruct document_type.
  - unfold remove_court_summary_page_breaks. cbv zeta. rewrite Hs.
    cbn [hd tl court_summary_loop]. rewrite Hp.
    rewrite court_summary_loop_acc.
    destruct (court_summary_loop_total rest line_2 false []) as [more ->].
    simpl bind. eexists. split; [reflexivity|].
    apply Hdet; assumption.
  - eexists. split; [reflexivity|].
    unfold remove_docket_page_breaks. cbv zeta. rewrite Hs.
    cbn [hd tl docket_loop]. rewrite Hp.
    rewrite docket_loop_acc. apply Hdet; assumption.
Qed.

Lemma document_type_stable_under_filter_witness :
  exists out,
    remove_page_breaks docket_two_pages = Ok out
    /\ get_document_type out = Ok DOCKET.
Proof.
  apply (document_type_stable_under_filter
           docket_two_pages "DOCKET[010.00,030.00,bold]").
  - vm_compute. reflexivity.
  - vm_compute. reflexivity.
  - vm_compute. reflexivity.
Defined.

End PageBreakFilter.

(* ================================================================== *)
(** * The content-stream interpreter *)

Section InterpreterProperties.

Import Font Extraction.
Local Open Scope float_scope.

Variable page : DocketPageObject.
Variables x_tolerance y_tolerance : float.

(** C8.  A move with [dy < 0] and [|dx + x_carry| < x_tolerance] (within the
    tolerance, as the source compares: strictly below it) appends the
    box-wrap character to the content, sets the x carry to 0, adds [dy] to
    the y carry, and leaves the output untouched: the segment goes on.  The
    displacement is reset as after every move. *)
Theorem reposition_box_wrap (dx dy : float) (st : interpreter) :
  (dy <? 0) = true ->
  (abs (dx + x_translation_from_origin (segment st)) <? x_tolerance) = true ->
  reposition page x_tolerance y_tolerance dx dy st
  = Ok {| text_state := text_state st;
          text_state_stack := text_state_stack st;
          segment :=
            {| content := (content (segment st)
                           ++ DocketReader.chr DocketReader.box_wrap)%string;
               origin_coordinates := origin_coordinates (segment st);
               font_name := font_name (segment st);
               x_translation_from_origin := 0;
               y_translation_from_origin :=
                 y_translation_from_origin (segment st) + dy |};
          extracted_segments := extracted_segments st;
          cur_displacement := 0;
          log := log st |}.
Proof.
  intros Hy Hx. unfold reposition. rewrite Hy, Hx. reflexivity.
Qed.

(** The new-line test of the [Td] handler, once the first two branches are
    ruled out: [y_tolerance <= |dy|] ends the segment, anything else goes to
    the horizontal branches, which never touch the output. *)
Lemma reposition_horizontal_keeps_output (dx : float) (st : interpreter) :
  extracted_segments (reposition_horizontal x_tolerance dx st)
  = extracted_segments st
  /\ origin_coordinates (segment (reposition_horizontal x_tolerance dx st))
     = origin_coordinates (segment st)
  /\ exists suffix,
      content (segment (reposition_horizontal x_tolerance dx st))
      = (content (segment st) ++ suffix)%string.
Proof.
  unfold reposition_horizontal.
  destruct ((dx <? 0) && negb (content (segment st) =? "")%string).
  - repeat split. now eexists.
  - destruct ((0 <? dx) && negb (content (segment st) =? "")%string).
    + destruct (x_tolerance * size (text_state st) <? dx - cur_displacement st).
      * repeat split. now eexists.
      * destruct (dx - cur_displacement st <? -0.1); repeat split;
          exists EmptyString; simpl; now rewrite append_nil_r.
    + repeat split. exists EmptyString. now rewrite append_nil_r.
Qed.

(** C5, amended.  When neither the box-wrap nor the return-to-line branch
    applies, the segment is ended exactly when [|dy| >= y_tolerance]: a move
    with [|dy|] equal to the tolerance ends it too.  Only a move with
    [|dy|] below the tolerance reaches the horizontal branches, and those
    leave the output and the origin alone and only extend the content. *)
Theorem reposition_new_line (dx dy : float) (st : interpreter) :
  (dy <? 0) && (abs (dx + x_translation_from_origin (segment st)) <? x_tolerance)
  = false ->
  (0 <? dy) && (abs (dy + y_translation_from_origin (segment st)) <? y_tolerance)
  = false ->
  ((y_tolerance <=? abs dy) = true ->
   reposition page x_tolerance y_tolerance dx dy st
   = (st1 <- terminate_segment page st ;; Ok (with_displacement st1 0)))
  /\ ((y_tolerance <=? abs dy) = false ->
      reposition page x_tolerance y_tolerance dx dy st
      = Ok (with_displacement (reposition_horizontal x_tolerance dx st) 0)
      /\ extracted_segments (reposition_horizontal x_tolerance dx st)
         = extracted_segments st
      /\ origin_coordinates (segment (reposition_horizontal x_tolerance dx st))
         = origin_coordinates (segment st)
      /\ exists suffix,
          content (segment (reposition_horizontal x_tolerance dx st))
          = (content (segment st) ++ suffix)%string).
Proof.
  intros H1 H2. split; intros H3.
  - unfold reposition. rewrite H1, H2, H3. reflexivity.
  - split.
    + unfold reposition. rewrite H1, H2, H3. reflexivity.
    + apply reposition_horizontal_keeps_output.
Qed.



Variable format_coordinate : float -> string.

(** [terminate_segment] on a segment with content whose font has no output
    name on the page. *)
Lemma terminate_segment_unknown_font (st : interpreter) (e : exn) :
  content (segment st) <> EmptyString ->
  lookup_name (font_output_names page) (ts_font_name (text_state st)) = Raise e ->
  terminate_segment page st = Raise e.
Proof.
  intros Hne He. unfold terminate_segment.
  apply String.eqb_neq in Hne. rewrite Hne, He. reflexivity.
Qed.


End InterpreterProperties.

Section InterpreterExamples.

Import Font Extraction Samples.
Local Open Scope float_scope.

Lemma one_font_page_init : page_init [("/F1"%string, arial)] = Ok one_font_page.
Proof. reflexivity. Qed.

Lemma reposition_box_wrap_witness :
  reposition one_font_page 0.3 1 (-0.1) (-0.5) (in_segment "Main Street" 0.1 0)
  = Ok {| text_state := {| ts_font_name := "/F1"; size := 10 |};
          text_state_stack := [];
          segment :=
            {| content := "Main Street^";
               origin_coordinates := Some (72, 700);
               font_name := None;
               x_translation_from_origin := 0;
               y_translation_from_origin := 0 + -0.5 |};
          extracted_segments := [];
          cur_displacement := 0;
          log := [] |}.
Proof.
  apply (reposition_box_wrap one_font_page 0.3 1 (-0.1) (-0.5)
           (in_segment "Main Street" 0.1 0)); reflexivity.
Defined.

(** C5 as stated fails: a move up by exactly the vertical tolerance, taken
    by neither of the first two branches, ends the segment (it is copied to
    the output and reset) instead of reaching the horizontal branches. *)
Lemma reposition_at_tolerance_ends_segment :
  (abs 1 =? 1) = true
  /\ (1 <? 0) && (abs (5 + 0) <? 0.3) = false
  /\ (0 <? 1) && (abs (1 + 0) <? 1) = false
  /\ reposition one_font_page 0.3 1 5 1 (in_segment "Main Street" 0 0)
     <> Ok (with_displacement
              (reposition_horizontal 0.3 5 (in_segment "Main Street" 0 0)) 0)
  /\ reposition one_font_page 0.3 1 5 1 (in_segment "Main Street" 0 0)
     = Ok {| text_state := {| ts_font_name := "/F1"; size := 10 |};
             text_state_stack := [];
             segment := new_segment;
             extracted_segments :=
               [ {| content := "Main Street";
                    origin_coordinates := Some (72, 700);
                    font_name := Some "normal"%string;
                    x_translation_from_origin := 0;
                    y_translation_from_origin := 0 |} ];
             cur_displacement := 0;
             log := [] |}.
Proof.
  repeat split; try reflexivity.
  vm_compute. discriminate.
Qed.

Lemma reposition_new_line_witness :
  reposition one_font_page 0.3 1 5 1 (in_segment "Main Street" 0 0)
  = (st1 <- terminate_segment one_font_page (in_segment "Main Street" 0 0) ;;
     Ok (with_displacement st1 0))
  /\ reposition one_font_page 0.3 1 5 (-0.5) (in_segment "Main Street" 0 0)
     = Ok (with_displacement
             (reposition_horizontal 0.3 5 (in_segment "Main Street" 0 0)) 0).
Proof.
  split.
  - apply (reposition_new_line one_font_page 0.3 1 5 1
             (in_segment "Main Street" 0 0)); reflexivity.
  - apply (reposition_new_line one_font_page 0.3 1 5 (-0.5)
             (in_segment "Main Street" 0 0)); reflexivity.
Defined.

Lemma wrap_only_block_before_ET :
  run one_font_page 0.3 1 (removelast wrap_only_block) initial = Ok before_ET.
Proof. vm_compute. reflexivity. Qed.


(** The whole block through [extract_text]: one line, properties only. *)
Lemma wrap_only_block_text :
  extract_text one_font_page 0.3 1 (fun _ => "000.00"%string) wrap_only_block
  = Ok "[000.00,000.00,normal]
"%string.
Proof. reflexivity. Qed.


End InterpreterExamples.


(* ================================================================== *)
(** * Money leaves *)

Section MoneyReduction.

Import Parsing Samples.

Lemma digit_facts (c : ascii) :
  Py.is_digit c = true ->
  Py.is_space c = false
  /\ Ascii.eqb c "_" = false
  /\ Py.lower_char c = c
  /\ (0 <= Py.digit_value c)%Z
  /\ Ascii.eqb c "-" = false /\ Ascii.eqb c "+" = false
  /\ Ascii.eqb c "i" = false /\ Ascii.eqb c "n" = false
  /\ Ascii.eqb c "." = false.
Proof.
  destruct c as [[] [] [] [] [] [] [] []]; intros H; vm_compute in H;
    try discriminate H; repeat split; vm_compute; congruence.
Qed.

Lemma digitpart_rest_digits (s : string) :
  forall rest acc n,
    all_digits s = true -> stops rest ->
    Py.digitpart_rest (s ++ rest) acc n
    = (digits_value s acc, (n + String.length s)%nat, rest).
Proof.
  induction s as [|c s IH]; intros rest acc n Hd Hstop; simpl.
  - rewrite Nat.add_0_r. destruct rest as [|c r]; [reflexivity|].
    destruct Hstop as [H1 H2]. simpl. now rewrite H1, H2.
  - simpl in Hd. apply andb_true_iff in Hd. destruct Hd as [Hc Hs].
    rewrite Hc, IH by assumption. now rewrite Nat.add_succ_r.
Qed.

Lemma digits_value_nonneg (s : string) :
  forall acc, all_digits s = true -> (0 <= acc)%Z -> (0 <= digits_value s acc)%Z.
Proof.
  induction s as [|c s IH]; intros acc Hd Hacc; cbn [digits_value];
    [exact Hacc|].
  cbn [all_digits] in Hd. apply andb_true_iff in Hd. destruct Hd as [Hc Hs].
  apply IH; [exact Hs|].
  destruct (digit_facts c Hc) as (_ & _ & _ & H0 & _). lia.
Qed.

Lemma digits_value_app (a b : string) (acc : Z) :
  digits_value (a ++ b) acc = digits_value b (digits_value a acc).
Proof.
  revert acc. induction a as [|c a IH]; intros acc; simpl; [reflexivity|].
  apply IH.
Qed.

Lemma scale_nonneg (m e : Z) : (0 <= m)%Z -> (0 <= Py.scale m e)%Q.
Proof.
  intros Hm. unfold Py.scale, Qle.
  destruct (0 <=? e)%Z eqn:E; simpl.
  - apply Z.leb_le in E. rewrite Z.mul_1_r.
    apply Z.mul_nonneg_nonneg; [exact Hm|]. apply Z.pow_nonneg. lia.
  - rewrite Z.mul_1_r. exact Hm.
Qed.

Lemma decimal_nonneg (i f : string) :
  all_digits i = true -> all_digits f = true -> (0 <= decimal i f)%Q.
Proof.
  intros Hi Hf. unfold decimal. apply scale_nonneg.
  rewrite digits_value_app.
  apply digits_value_nonneg; [exact Hf|].
  apply digits_value_nonneg; [exact Hi | lia].
Qed.

Lemma strip_no_spaces (s : string) : no_spaces s = true -> Py.strip s = s.
Proof.
  intros H. unfold Py.strip.
  assert (Hl : Py.lstrip s = s).
  { destruct s as [|c s]; [reflexivity|]. simpl in *.
    apply andb_true_iff in H. destruct H as [Hc _].
    apply negb_true_iff in Hc. now rewrite Hc. }
  rewrite Hl. induction s as [|c s IH]; [reflexivity|].
  simpl in *. apply andb_true_iff in H. destruct H as [Hc Hs].
  apply negb_true_iff in Hc.
  rewrite IH; [|exact Hs|].
  - destruct s; [now rewrite Hc | reflexivity].
  - destruct s as [|d s]; [reflexivity|]. simpl in *.
    apply andb_true_iff in Hs. destruct Hs as [Hd _].
    apply negb_true_iff in Hd. now rewrite Hd.
Qed.

Lemma no_spaces_app (a b : string) :
  no_spaces (a ++ b) = no_spaces a && no_spaces b.
Proof.
  induction a as [|c a IH]; simpl; [reflexivity|].
  now rewrite IH, andb_assoc.
Qed.

Lemma all_digits_no_spaces (s : string) :
  all_digits s = true -> no_spaces s = true.
Proof.
  induction s as [|c s IH]; simpl; intros H; [reflexivity|].
  apply andb_true_iff in H. destruct H as [Hc Hs].
  destruct (digit_facts c Hc) as (Hsp & _). now rewrite Hsp, IH.
Qed.

Lemma float_space_is_space (c : ascii) :
  Py.is_space c = false -> Py.is_float_space c = false.
Proof.
  destruct c as [[] [] [] [] [] [] [] []]; intros H; vm_compute in H;
    try discriminate H; reflexivity.
Qed.

Lemma float_strip_no_spaces (s : string) :
  no_spaces s = true -> Py.float_rstrip (Py.float_lstrip s) = s.
Proof.
  intros H.
  assert (Hl : Py.float_lstrip s = s).
  { destruct s as [|c s]; [reflexivity|]. simpl in *.
    apply andb_true_iff in H. destruct H as [Hc _].
    apply negb_true_iff in Hc. now rewrite (float_space_is_space c Hc). }
  rewrite Hl. induction s as [|c s IH]; [reflexivity|].
  simpl in *. apply andb_true_iff in H. destruct H as [Hc Hs].
  apply negb_true_iff in Hc. apply float_space_is_space in Hc.
  rewrite IH; [|exact Hs|].
  - destruct s; [now rewrite Hc | reflexivity].
  - destruct s as [|d s]; [reflexivity|]. simpl in *.
    apply andb_true_iff in Hs. destruct Hs as [Hd _].
    apply negb_true_iff in Hd. now rewrite (float_space_is_space d Hd).
Qed.

(** [float] on digits, a point, and digits. *)
Lemma float_decimal (i f : string) :
  all_digits i = true -> i <> EmptyString -> all_digits f = true ->
  Py.float (i ++ "." ++ f) = Ok (Py.round_to_float false (decimal i f)).
Proof.
  intros Hi Hne Hf. unfold Py.float.
  rewrite float_strip_no_spaces.
  2:{ rewrite !no_spaces_app, (all_digits_no_spaces i Hi),
        (all_digits_no_spaces f Hf). reflexivity. }
  destruct i as [|c i]; [congruence|]. clear Hne.
  cbn [all_digits] in Hi. apply andb_true_iff in Hi. destruct Hi as [Hc Hi].
  destruct (digit_facts c Hc)
    as (_ & _ & Hlow & _ & Hminus & Hplus & Hi' & Hn' & Hpoint).
  change ((String c i ++ "." ++ f)%string)
    with (String c (i ++ String "." f)).
  unfold Py.sign. rewrite Hminus, Hplus.
  cbn [Py.lower String.eqb]. rewrite Hlow, Hi', Hn'. cbn [andb orb].
  unfold Py.number. rewrite Hpoint.
  unfold Py.digitpart at 1. rewrite Hc.
  rewrite (digitpart_rest_digits i (String "." f)) by (exact Hi || now split).
  change (Ascii.eqb "." ".") with true. cbv iota beta.
  unfold decimal. rewrite digits_value_app. cbn [digits_value].
  destruct f as [|d f].
  - reflexivity.
  - cbn [all_digits] in Hf. apply andb_true_iff in Hf. destruct Hf as [Hd Hf].
    unfold Py.digitpart. rewrite Hd.
    rewrite <- (append_nil_r f) at 1.
    rewrite (digitpart_rest_digits f EmptyString) by (exact Hf || exact I).
    reflexivity.
Qed.

Lemma float_integer (i : string) :
  all_digits i = true -> i <> EmptyString ->
  Py.float i = Ok (Py.round_to_float false (decimal i EmptyString)).
Proof.
  intros Hi Hne. unfold Py.float.
  rewrite float_strip_no_spaces by now apply all_digits_no_spaces.
  destruct i as [|c i]; [congruence|]. clear Hne.
  cbn [all_digits] in Hi. apply andb_true_iff in Hi. destruct Hi as [Hc Hi].
  destruct (digit_facts c Hc)
    as (_ & _ & Hlow & _ & Hminus & Hplus & Hi' & Hn' & Hpoint).
  unfold Py.sign. rewrite Hminus, Hplus.
  cbn [Py.lower String.eqb]. rewrite Hlow, Hi', Hn'. cbn [andb orb].
  unfold Py.number. rewrite Hpoint.
  unfold Py.digitpart at 1. rewrite Hc.
  rewrite <- (append_nil_r i) at 1.
  rewrite (digitpart_rest_digits i EmptyString) by (exact Hi || exact I).
  unfold decimal. rewrite digits_value_app. reflexivity.
Qed.

Lemma float_plain_decimal (d : string) (q : Q) :
  plain_decimal d q ->
  Py.float d = Ok (Py.round_to_float false q) /\ (0 <= q)%Q.
Proof.
  intros [i Hi Hne | i f Hi Hne Hf].
  - split; [now apply float_integer | now apply decimal_nonneg].
  - split; [now apply float_decimal | now apply decimal_nonneg].
Qed.

Lemma substring_prefix (d rest : string) :
  substring 0 (String.length d) (d ++ rest) = d.
Proof.
  induction d as [|c d IH]; simpl.
  - destruct rest; reflexivity.
  - now rewrite IH.
Qed.

Lemma length_append (a b : string) :
  String.length (a ++ b) = (String.length a + String.length b)%nat.
Proof.
  induction a as [|c a IH]; simpl; [reflexivity | now rewrite IH].
Qed.

(** C4 as stated fails: the first character is looked at only after the
    text is stripped and its commas are removed, so a text that begins with
    white space or a comma is not an error for that reason. *)
Lemma money_first_character_after_strip :
  money_value " $5.00" = Ok 5%float
  /\ visit_money "total" (mkNode "total" " $5.00" []) []
     = Ok (VDict [("total"%string, VFloat 5%float)])
  /\ money_value ",$5.00" = Ok 5%float.
Proof.
  repeat split; vm_compute; reflexivity.
Qed.

(** What [float] makes of some decimals: the nearest binary64, the largest
    float up to half a unit in its last place beyond it, an infinity from
    there on, a zero below half the smallest float. *)
Lemma round_to_float_examples :
  Py.round_to_float false (decimal "1234" "56") = 1234.56%float
  /\ Py.round_to_float false (decimal "500" "00") = 500%float
  /\ Py.round_to_float false (decimal "0" "1") = 0.1%float
  /\ Py.round_to_float false (decimal "9007199254740993" "")
     = 9007199254740992%float
  /\ Py.float "1.7976931348623158e308" = Ok 1.7976931348623157e308%float
  /\ Py.float "1.7976931348623159e308" = Ok infinity
  /\ Py.round_to_float false (decimal ("1" ++ zeros 309) "") = infinity
  /\ Py.float "2e-324" = Ok 0%float
  /\ Py.float "3e-324" = Ok 5e-324%float
  /\ Py.float "-0" = Ok (-0)%float
  /\ Py.float " 1_0.5 " = Ok 10.5%float
  /\ Py.float (String (ascii_of_N 28) "5") = Raise ValueError.
Proof.
  repeat split; vm_compute; reflexivity.
Qed.

(** C4, amended.  Let [money] be the text of the node with surrounding
    white space stripped and commas removed.  If [money] is [$] followed by
    a plain decimal (digits, optionally a point and digits), the reduction
    yields the float nearest to the non-negative number it writes; if it is
    a plain decimal between [($] and [)], the reduction yields that float
    negated; if its first character is neither [$] nor [(], the reduction
    raises the parse error. *)
Theorem money_value_cases (node_text : string) :
  let money := Py.remove_char ","%char (Py.strip node_text) in
  (forall d q,
      plain_decimal d q -> money = ("$" ++ d)%string ->
      money_value node_text = Ok (Py.round_to_float false q) /\ (0 <= q)%Q)
  /\ (forall d q,
         plain_decimal d q -> money = ("($" ++ d ++ ")")%string ->
         money_value node_text = Ok (- Py.round_to_float false q)%float)
  /\ (forall c rest,
         money = String c rest -> c <> "$"%char -> c <> "("%char ->
         exists msg, money_value node_text = Raise (ParseError msg)).
Proof.
  intros money. split; [|split].
  - intros d q Hd Hm. destruct (float_plain_decimal d q Hd) as [Hfl Hq].
    split; [|exact Hq].
    unfold money_value. fold money. rewrite Hm. cbn [String.append].
    change (Ascii.eqb "$" "$") with true. cbv iota. exact Hfl.
  - intros d q Hd Hm. destruct (float_plain_decimal d q Hd) as [Hfl _].
    unfold money_value. fold money. rewrite Hm.
    change (("($" ++ d ++ ")")%string)
      with (String "(" (String "$" (d ++ ")"))).
    change (Ascii.eqb "(" "$") with false.
    change (Ascii.eqb "(" "(") with true. cbv iota.
    replace (substring 2
               (String.length (String "(" (String "$" (d ++ ")"))) - 3)
               (String "(" (String "$" (d ++ ")"))))
      with d.
    + rewrite Hfl. reflexivity.
    + cbn [substring String.length]. rewrite length_append.
      cbn [String.length].
      replace (S (S (String.length d + 1)) - 3)%nat
        with (String.length d) by lia.
      now rewrite substring_prefix.
  - intros c rest Hm Hd Hp. unfold money_value. fold money. rewrite Hm.
    apply Ascii.eqb_neq in Hd, Hp. rewrite Hd, Hp. now eexists.
Qed.

Lemma money_value_cases_witness :
  (money_value "$1,234.56"
   = Ok (Py.round_to_float false (decimal "1234" "56"))
   /\ (0 <= decimal "1234" "56")%Q)
  /\ money_value " ($500.00) "
     = Ok (- Py.round_to_float false (decimal "500" "00"))%float
  /\ (exists msg, money_value "12.00" = Raise (ParseError msg))
  /\ (money_value huge_amount
      = Ok (Py.round_to_float false (decimal ("1" ++ zeros 309) ""))
      /\ (0 <= decimal ("1" ++ zeros 309) "")%Q).
Proof.
  split; [|split; [|split]].
  - destruct (money_value_cases "$1,234.56") as (H & _).
    apply (H "1234.56"%string); [|reflexivity].
    apply (plain_point "1234" "56"); (reflexivity || discriminate).
  - destruct (money_value_cases " ($500.00) ") as (_ & H & _).
    apply (H "500.00"%string); [|reflexivity].
    apply (plain_point "500" "00"); (reflexivity || discriminate).
  - destruct (money_value_cases "12.00") as (_ & _ & H).
    apply (H "1"%char "2.00"%string); [reflexivity | discriminate | discriminate].
  - destruct (money_value_cases huge_amount) as (H & _).
    apply (H ("1" ++ zeros 309)%string); [|reflexivity].
    apply (plain_integer ("1" ++ zeros 309)); [reflexivity | discriminate].
Defined.

(** [decimal i f] is the integer written by all the digits, divided by the
    power of ten of the number of fraction digits. *)
Lemma decimal_quotient (i f : string) :
  (decimal i f
   == inject_Z (digits_value (i ++ f) 0)
      / inject_Z (10 ^ Z.of_nat (String.length f)))%Q.
Proof.
  unfold decimal, Py.scale.
  destruct (String.length f) as [|k].
  - change (- Z.of_nat 0)%Z with 0%Z. cbn [Z.leb Z.compare Z.pow].
    rewrite Z.mul_1_r, Qmake_Qdiv. reflexivity.
  - assert (H : (0 <=? - Z.of_nat (S k))%Z = false) by (apply Z.leb_gt; lia).
    rewrite H, Z.opp_involutive, Qmake_Qdiv, Z2Pos.id; [reflexivity|].
    apply Z.pow_pos_nonneg; lia.
Qed.

(** The amounts "$1,234.56" and "($500.00)", and an amount of 310 digits,
    as numbers and as the floats the reduction returns. *)
Lemma decimal_examples :
  (decimal "1234" "56" == 1234.56)%Q
  /\ (decimal "500" "00" == 500.0)%Q
  /\ money_value "$1,234.56" = Ok 1234.56%float
  /\ money_value " ($500.00) " = Ok (-500)%float
  /\ money_value huge_amount = Ok infinity
  /\ money_value ("(" ++ huge_amount ++ ")") = Ok neg_infinity.
Proof.
  repeat split; vm_compute; reflexivity.
Qed.

End MoneyReduction.

(* ================================================================== *)
(** * End-to-end parsing *)

Section EndToEnd.

Import Parsing Samples.

Variable docket_extra : string -> option method.
Variable summary_extra : string -> option method.
Variable grammar_parse : DocumentType -> string -> result Node.








End EndToEnd.

Section EndToEndExamples.

Import Parsing Samples.



End EndToEndExamples.

(* ================================================================== *)
(** * The reserved-character check *)

Section ReservedCharacters.

Import Font Extraction Samples.
Local Open Scope list_scope.

(** What the check at construction does establish: once a reader is built,
    no entry of any font's map is, as a whole, a reserved character. *)
Lemma check_unicode_values_ok (values : list string) :
  check_unicode_values values = Ok tt ->
  forall v, In v values -> is_special v = false.
Proof.
  induction values as [|x xs IH]; simpl; intros H v Hin; [contradiction|].
  destruct (is_special x) eqn:E; [discriminate|].
  destruct Hin as [<-|Hin]; [exact E | now apply IH].
Qed.

Lemma init_fonts_ok (items : list (string * PdfFontWrapper)) :
  forall names out,
    init_fonts items names = Ok out ->
    forall name font v,
      In (name, font) items -> In v (map snd (unicode_map font)) ->
      is_special v = false.
Proof.
  induction items as [|[n f] rest IH]; simpl; intros names out H name font v Hin Hv;
    [contradiction|].
  destruct (check_unicode_values (map snd (unicode_map f))) as [[]|e] eqn:E;
    [|discriminate].
  simpl in H. destruct Hin as [Heq|Hin].
  - injection Heq as -> ->. now apply (check_unicode_values_ok _ E).
  - now apply (IH _ _ H name font v).
Qed.

Lemma reader_init_ok (pages : list (list (string * PdfFontWrapper))) :
  forall reader,
    reader_init pages = Ok reader ->
    forall page_fonts name font v,
      In page_fonts pages -> In (name, font) page_fonts ->
      In v (map snd (unicode_map font)) ->
      is_special v = false.
Proof.
  induction pages as [|p ps IH]; simpl; intros reader H page_fonts name font v Hp Hf Hv;
    [contradiction|].
  unfold page_init in H.
  destruct (init_fonts p []) as [names|e] eqn:E; [|discriminate].
  simpl in H.
  destruct (reader_init ps) as [others|e] eqn:E2; [|discriminate].
  destruct Hp as [<-|Hp].
  - now apply (init_fonts_ok _ _ _ E name font v).
  - now apply (IH _ eq_refl page_fonts name font v).
Qed.

(** C6 fails on the code: the check compares each mapped string as a whole
    with the reserved one-character strings.  A font that maps a character
    id to "f[" passes it, the reader is built, and the page's text then
    holds the reserved bracket inside the content of a segment. *)
Theorem reserved_character_in_long_mapping_undetected :
  is_special "f[" = false
  /\ Py.mem_char DocketReader.properties_open "f[" = true
  /\ reader_init [[("/F1"%string, ligature_font)]]
     = Ok [ {| fonts := [("/F1"%string, ligature_font)];
               font_output_names := [("/F1", "normal")]%string |} ]
  /\ get_content_and_width ligature_font [Byte.x41] = Ok ("f["%string, 556%Z)
  /\ extract_text
       {| fonts := [("/F1"%string, ligature_font)];
          font_output_names := [("/F1", "normal")]%string |}
       0.3 1 (fun _ => "000.00"%string) ligature_block
     = Ok "f[[000.00,000.00,normal]
"%string.
Proof.
  repeat split; vm_compute; reflexivity.
Qed.

End ReservedCharacters.

(* ================================================================== *)
(** * Further properties of the page-break filters *)

Section PageBreakFilterMore.

Import Re Parsing Samples.
Local Open Scope list_scope.

Lemma subsequence_refl {A : Type} (l : list A) : subsequence l l.
Proof.
  induction l; constructor; assumption.
Qed.

Lemma docket_loop_subsequence (lines : list string) :
  forall prev b, subsequence (docket_loop prev lines b []) lines.
Proof.
  induction lines as [|l ls IH]; intros prev b; simpl; [constructor|].
  destruct b.
  - destruct (matches versus_line_regex prev); apply subsequence_skip, IH.
  - destruct (matches printed_date_line_regex l);
      [apply subsequence_skip, IH|].
    rewrite docket_loop_acc. simpl. apply subsequence_keep, IH.
Qed.

Lemma subsequence_Forall {A : Type} (P : A -> Prop) (kept lines : list A) :
  subsequence kept lines -> Forall P lines -> Forall P kept.
Proof.
  intros Hs. induction Hs as [|x kept lines Hs IH|x kept lines Hs IH];
    intros Hall; [constructor | |]; inversion Hall; subst; auto.
Qed.

(** The docket filter only leaves lines out: the lines of its result are
    the first line of the text, then lines of the text in their order, none
    of them a printed-date line, then one empty line. *)
Theorem docket_filter_keeps_subsequence (text : string) :
  exists first rest kept,
    Py.split DocketReader.terminator text = first :: rest
    /\ subsequence kept rest
    /\ Forall printed_free kept
    /\ Py.split DocketReader.terminator (remove_docket_page_breaks text)
       = first :: kept ++ [EmptyString].
Proof.
  pose proof (split_not_nil DocketReader.terminator text) as Hne.
  pose proof (split_lines_sep_free DocketReader.terminator text) as Hfree.
  unfold remove_docket_page_breaks. cbv zeta.
  destruct (Py.split DocketReader.terminator text) as [|first rest];
    [congruence|].
  cbn [hd tl]. exists first, rest, (docket_loop first rest false []).
  split; [reflexivity|]. split; [apply docket_loop_subsequence|].
  split; [apply docket_loop_kept|].
  rewrite docket_loop_acc.
  change ([first] ++ docket_loop first rest false [])
    with (first :: docket_loop first rest false []).
  unfold DocketReader.chr.
  rewrite <- (join_snoc_empty DocketReader.terminator
                (first :: docket_loop first rest false [])) by discriminate.
  apply split_join; [discriminate|].
  inversion Hfree as [|? ? Hf Hrest]; subst.
  constructor; [exact Hf|]. apply Forall_app. split.
  - apply (subsequence_Forall _ _ rest); [apply docket_loop_subsequence | exact Hrest].
  - constructor; [reflexivity | constructor].
Qed.



(** [remove_page_breaks] raises exactly when the document type cannot be
    determined, and then what [get_document_type] raises: the court-summary
    filter itself never fails. *)
Theorem remove_page_breaks_raises (text : string) (e : exn) :
  remove_page_breaks text = Raise e <-> get_document_type text = Raise e.
Proof.
  unfold remove_page_breaks.
  destruct (get_document_type text) as [ty|e0]; simpl.
  - destruct ty.
    + destruct (remove_court_summary_page_breaks_total text) as [out ->].
      split; discriminate.
    + split; discriminate.
  - split; intros H; injection H as ->; reflexivity.
Qed.

(** A text whose type is determined and which has no printed-date line
    after its first line comes back with one terminator appended, whatever
    its type. *)
Theorem remove_page_breaks_without_printed_lines (text : string)
  (document_type : DocumentType) :
  get_document_type text = Ok document_type ->
  Forall printed_free (tl (Py.split DocketReader.terminator text)) ->
  remove_page_breaks text
  = Ok (text ++ DocketReader.chr DocketReader.terminator)%string.
Proof.
  intros Hty Hp. unfold remove_page_breaks. rewrite Hty. simpl bind.
  destruct document_type.
  - now apply remove_court_summary_page_breaks_printed_free.
  - f_equal.
    pose proof (remove_docket_page_breaks_printed_free
                  (Py.split DocketReader.terminator text)
                  (split_lines_sep_free DocketReader.terminator text) Hp
                  (split_not_nil DocketReader.terminator text)) as H.
    now rewrite join_split in H.
Qed.

Lemma remove_page_breaks_without_printed_lines_witness :
  remove_page_breaks summary_one_page
  = Ok (summary_one_page ++ DocketReader.chr DocketReader.terminator)%string.
Proof.
  apply (remove_page_breaks_without_printed_lines summary_one_page COURT_SUMMARY).
  - vm_compute. reflexivity.
  - vm_compute. repeat constructor.
Defined.

Lemma split_once_parts (sep : ascii) (s : string) :
  forall a b,
    Py.split_once sep s = [a; b] ->
    s = (a ++ String sep b)%string /\ Py.mem_char sep a = false.
Proof.
  induction s as [|c s IH]; intros a b H; simpl in H; [discriminate|].
  destruct (Ascii.eqb_spec c sep) as [->|Hne].
  - injection H as <- <-. split; reflexivity.
  - destruct (Py.split_once sep s) as [|l [|l2 [|l3 ls]]] eqn:E;
      try discriminate.
    injection H as <- <-. destruct (IH l l2 eq_refl) as [-> Hl].
    split; [reflexivity|]. simpl. rewrite Hl.
    apply Ascii.eqb_neq in Hne. now rewrite Hne.
Qed.

Lemma court_summary_loop_prev (lines : list string) (p1 p2 : string)
  (acc : list string) :
  court_summary_loop p1 lines false acc = court_summary_loop p2 lines false acc.
Proof.
  destruct lines; reflexivity.
Qed.

Lemma court_summary_loop_app_free (pre rest : list string) :
  forall prev acc,
    Forall printed_free pre ->
    court_summary_loop prev (pre ++ rest) false acc
    = court_summary_loop prev rest false (acc ++ pre).
Proof.
  induction pre as [|l ls IH]; intros prev acc H.
  - simpl. now rewrite app_nil_r.
  - inversion H as [|? ? Hl Hls]; subst.
    change ((l :: ls) ++ rest) with (l :: (ls ++ rest)).
    cbn [court_summary_loop]. rewrite Hl, (IH l) by exact Hls.
    rewrite <- app_assoc. simpl. apply court_summary_loop_prev.
Qed.

(** Inside a page break of a court summary, lines are dropped until one
    that is not a continuation line follows one that is. *)
Lemma court_summary_loop_region (mid : list string) :
  forall prev continued resumed post acc,
    continuation_free prev -> Forall continuation_free mid ->
    matches continuation_regex continued = true ->
    continuation_free resumed ->
    court_summary_loop prev (mid ++ continued :: resumed :: post) true acc
    = if matches continuation_textbox_regex resumed
      then kept <- Py.index (Py.split_once DocketReader.box_wrap resumed) 1 ;;
           court_summary_loop resumed post false (acc ++ [kept])
      else court_summary_loop resumed post false (acc ++ [resumed]).
Proof.
  induction mid as [|m ms IH]; intros prev continued resumed post acc Hp Hm Hc Hr.
  - cbn [app court_summary_loop]. rewrite Hp, Hc, Hr. reflexivity.
  - inversion Hm as [|? ? Hm1 Hms]; subst.
    change ((m :: ms) ++ continued :: resumed :: post)
      with (m :: (ms ++ continued :: resumed :: post)).
    cbn [court_summary_loop]. rewrite Hp. cbn [andb]. now apply IH.
Qed.

(** The page break of a court summary, in a text where no line before the
    printed-date line and no line after the region matches the printed-date
    pattern.  When the printed-date line and the lines after it match no
    "(Continued)" pattern up to a first line that does, and the line right
    after that one is not a "(Continued)" line itself, the lines from the
    printed-date line through the "(Continued)" line are dropped and the
    line after it is kept: whole when it does not match the
    continuation-textbox pattern, otherwise only what follows its first
    box-wrap character.  The lines before and after are kept unchanged. *)
Theorem court_summary_page_break_region
  (first printed continued resumed : string) (pre mid post : list string) :
  Forall (sep_free DocketReader.terminator)
    (first :: pre ++ printed :: mid ++ continued :: resumed :: post) ->
  Forall printed_free pre ->
  matches printed_date_line_regex printed = true ->
  Forall continuation_free (printed :: mid) ->
  matches continuation_regex continued = true ->
  continuation_free resumed ->
  Forall printed_free post ->
  exists kept,
    remove_court_summary_page_breaks
      (Py.join DocketReader.terminator
         (first :: pre ++ printed :: mid ++ continued :: resumed :: post))
    = Ok (Py.join DocketReader.terminator (first :: pre ++ kept :: post)
          ++ DocketReader.chr DocketReader.terminator)%string
    /\ (matches continuation_textbox_regex resumed = false -> kept = resumed)
    /\ (matches continuation_textbox_regex resumed = true ->
        exists before,
          resumed = (before ++ String DocketReader.box_wrap kept)%string
          /\ Py.mem_char DocketReader.box_wrap before = false).
Proof.
  intros Hfree Hpre Hp Hcf Hc Hr Hpost.
  inversion Hcf as [|? ? Hpc Hmid]; subst.
  unfold remove_court_summary_page_breaks. cbv zeta.
  rewrite split_join by (exact Hfree || discriminate). cbn [hd tl].
  rewrite court_summary_loop_app_free by exact Hpre.
  cbn [court_summary_loop]. rewrite Hp.
  rewrite court_summary_loop_region by assumption.
  destruct (matches continuation_textbox_regex resumed) eqn:E.
  - pose proof (textbox_has_box_wrap resumed E) as Hbw.
    destruct (split_once_mem _ _ Hbw) as (a & b & Hs).
    rewrite Hs. cbn [Py.index nth_error bind].
    rewrite court_summary_loop_printed_free by exact Hpost.
    exists b. split; [|split].
    + cbn [bind app]. rewrite <- !app_assoc. reflexivity.
    + discriminate.
    + intros _. exists a. now apply split_once_parts.
  - rewrite court_summary_loop_printed_free by exact Hpost.
    exists resumed. split; [|split].
    + cbn [bind app]. rewrite <- !app_assoc. reflexivity.
    + reflexivity.
    + discriminate.
Qed.

Lemma court_summary_page_break_region_witness :
  exists kept,
    remove_court_summary_page_breaks
      (Py.join DocketReader.terminator
         ("First Judicial District[010.00,020.00,bold]"%string
          :: ["Court Summary[010.00,030.00,bold]"%string]
          ++ "Printed: 1/1/2020[010.00,700.00,normal]"%string
          :: ["Court Summary[010.00,030.00,bold]"%string]
          ++ "Closed (Continued)[010.00,060.00,bold]"%string
          :: "Closed (Continued)^Philadelphia[010.00,070.00,bold]"%string
          :: ["CP-51-CR-0000001-2020[010.00,080.00,normal]"%string; ""%string]))
    = Ok (Py.join DocketReader.terminator
            ("First Judicial District[010.00,020.00,bold]"%string
             :: ["Court Summary[010.00,030.00,bold]"%string]
             ++ kept
             :: ["CP-51-CR-0000001-2020[010.00,080.00,normal]"%string;
                 ""%string])
          ++ DocketReader.chr DocketReader.terminator)%string
    /\ (matches continuation_textbox_regex
          "Closed (Continued)^Philadelphia[010.00,070.00,bold]" = false ->
        kept = "Closed (Continued)^Philadelphia[010.00,070.00,bold]"%string)
    /\ (matches continuation_textbox_regex
          "Closed (Continued)^Philadelphia[010.00,070.00,bold]" = true ->
        exists before,
          "Closed (Continued)^Philadelphia[010.00,070.00,bold]"%string
          = (before ++ String DocketReader.box_wrap kept)%string
          /\ Py.mem_char DocketReader.box_wrap before = false).
Proof.
  apply (court_summary_page_break_region
           "First Judicial District[010.00,020.00,bold]"
           "Printed: 1/1/2020[010.00,700.00,normal]"
           "Closed (Continued)[010.00,060.00,bold]"
           "Closed (Continued)^Philadelphia[010.00,070.00,bold]"
           ["Court Summary[010.00,030.00,bold]"%string]
           ["Court Summary[010.00,030.00,bold]"%string]).
  - repeat constructor.
  - repeat constructor.
  - vm_compute. reflexivity.
  - repeat constructor.
  - vm_compute. reflexivity.
  - vm_compute. reflexivity.
  - repeat constructor.
Defined.

End PageBreakFilterMore.

(* ================================================================== *)
(** * Further properties of pages and of the interpreter *)

Section PageInit.

Import Font Extraction.
Local Open Scope list_scope.

Lemma init_fonts_names (items : list (string * PdfFontWrapper)) :
  forall names out,
    init_fonts items names = Ok out ->
    out = names ++ map (fun nf => (fst nf, output_name (snd nf))) items.
Proof.
  induction items as [|[n f] rest IH]; simpl; intros names out H.
  - injection H as <-. now rewrite app_nil_r.
  - destruct (check_unicode_values (map snd (unicode_map f))) as [[]|e];
      [|discriminate].
    simpl in H. rewrite (IH _ _ H), <- app_assoc. reflexivity.
Qed.

Lemma lookup_name_map (fonts : list (string * PdfFontWrapper)) (name : string) :
  (exists font, In (name, font) fonts) ->
  exists font,
    In (name, font) fonts
    /\ lookup_name (map (fun nf => (fst nf, output_name (snd nf))) fonts) name
       = Ok (output_name font).
Proof.
  induction fonts as [|[n f] rest IH]; intros [font Hin]; [contradiction|].
  simpl. destruct (String.eqb_spec n name) as [->|Hne].
  - exists f. split; [now left | reflexivity].
  - destruct Hin as [Heq|Hin]; [congruence|].
    destruct IH as (f' & Hin' & Hl); [now exists font|].
    exists f'. split; [now right | exact Hl].
Qed.

(** A page that is built gives every one of its fonts an output name, one
    per font in the order of the fonts, and the name is "bold" or
    "normal". *)
Theorem page_init_output_names (page_fonts : list (string * PdfFontWrapper))
  (page : DocketPageObject) :
  page_init page_fonts = Ok page ->
  fonts page = page_fonts
  /\ map fst (font_output_names page) = map fst page_fonts
  /\ forall name font,
      In (name, font) page_fonts ->
      exists out,
        lookup_name (font_output_names page) name = Ok out
        /\ (out = "bold"%string \/ out = "normal"%string).
Proof.
  unfold page_init. intros H.
  destruct (init_fonts page_fonts []) as [names|e] eqn:E; [|discriminate].
  injection H as <-. cbn [fonts font_output_names].
  apply init_fonts_names in E. cbn [app] in E. subst names.
  split; [reflexivity|]. split.
  - rewrite map_map. reflexivity.
  - intros name font Hin.
    destruct (lookup_name_map page_fonts name) as (f & _ & Hl);
      [now exists font|].
    exists (output_name f). split; [exact Hl|].
    unfold output_name. destruct (Py.contains "bold" (Py.lower (base_font f)));
      auto.
Qed.

Lemma page_init_output_names_witness :
  fonts Samples.one_font_page = [("/F1"%string, Samples.arial)]
  /\ map fst (font_output_names Samples.one_font_page)
     = map fst [("/F1"%string, Samples.arial)]
  /\ forall name font,
      In (name, font) [("/F1"%string, Samples.arial)] ->
      exists out,
        lookup_name (font_output_names Samples.one_font_page) name = Ok out
        /\ (out = "bold"%string \/ out = "normal"%string).
Proof.
  apply (page_init_output_names [("/F1"%string, Samples.arial)]).
  reflexivity.
Defined.

Lemma check_unicode_values_raises (values : list string) (e : exn) :
  check_unicode_values values = Raise e -> exists msg, e = PdfReadError msg.
Proof.
  induction values as [|x xs IH]; simpl; [discriminate|].
  destruct (is_special x); [|exact IH].
  intros H. injection H as <-. now eexists.
Qed.

Lemma init_fonts_raises (items : list (string * PdfFontWrapper)) :
  forall names e,
    init_fonts items names = Raise e -> exists msg, e = PdfReadError msg.
Proof.
  induction items as [|[n f] rest IH]; simpl; intros names e H; [discriminate|].
  destruct (check_unicode_values (map snd (unicode_map f))) as [[]|e0] eqn:E.
  - simpl in H. now apply (IH _ _ H).
  - simpl in H. injection H as <-. now apply (check_unicode_values_raises _ _ E).
Qed.

Lemma reader_init_raises (pages : list (list (string * PdfFontWrapper))) :
  forall e, reader_init pages = Raise e -> exists msg, e = PdfReadError msg.
Proof.
  induction pages as [|p ps IH]; simpl; intros e H; [discriminate|].
  unfold page_init in H.
  destruct (init_fonts p []) as [names|e0] eqn:E.
  - simpl in H. destruct (reader_init ps) as [others|e1]; [discriminate|].
    simpl in H. injection H as <-. now apply IH.
  - simpl in H. injection H as <-. now apply (init_fonts_raises _ _ _ E).
Qed.

(** When a font of some page maps a character id to one of the six reserved
    characters, no reader is built: construction raises [PdfReadError]. *)
Theorem reader_init_rejects_reserved_character
  (pages : list (list (string * PdfFontWrapper)))
  (page_fonts : list (string * PdfFontWrapper))
  (name : string) (font : PdfFontWrapper) (character_id : N) (c : ascii) :
  In page_fonts pages -> In (name, font) page_fonts ->
  In (character_id, DocketReader.chr c) (unicode_map font) ->
  In c [DocketReader.tab; DocketReader.terminator;
        DocketReader.properties_open; DocketReader.properties_close;
        DocketReader.comes_before; DocketReader.box_wrap] ->
  exists msg, reader_init pages = Raise (PdfReadError msg).
Proof.
  intros Hp Hf Hv Hc.
  destruct (reader_init pages) as [reader|e] eqn:E.
  - assert (Hs : is_special (DocketReader.chr c) = false).
    { apply (reader_init_ok pages reader E page_fonts name font); try assumption.
      apply in_map_iff. now exists (character_id, DocketReader.chr c). }
    exfalso. simpl in Hc.
    repeat (destruct Hc as [<-|Hc]; [discriminate Hs|]). contradiction.
  - destruct (reader_init_raises _ _ E) as [msg ->]. now exists msg.
Qed.

Lemma reader_init_rejects_reserved_character_witness :
  exists msg,
    reader_init
      [ [("/F1"%string, Samples.arial)];
        [("/F2"%string,
          {| base_font := "/Arial-BoldMT";
             unicode_map := [(65%N, "A"%string); (95%N, "_"%string)];
             widths := [(65%N, 722%Z); (95%N, 556%Z)] |})] ]
    = Raise (PdfReadError msg).
Proof.
  apply (reader_init_rejects_reserved_character _
           [("/F2"%string,
             {| base_font := "/Arial-BoldMT";
                unicode_map := [(65%N, "A"%string); (95%N, "_"%string)];
                widths := [(65%N, 722%Z); (95%N, 556%Z)] |})]
           "/F2"
           {| base_font := "/Arial-BoldMT";
              unicode_map := [(65%N, "A"%string); (95%N, "_"%string)];
              widths := [(65%N, 722%Z); (95%N, 556%Z)] |}
           95%N "_"%char).
  - right. left. reflexivity.
  - left. reflexivity.
  - right. left. reflexivity.
  - left. reflexivity.
Defined.

End PageInit.

Section InterpreterInvariants.

Import Font Extraction.
Local Open Scope list_scope.

Variable page : DocketPageObject.
Variables x_tolerance y_tolerance : float.

Lemma lookup_name_In {V : Type} (d : list (string * V)) (k : string) (v : V) :
  lookup_name d k = Ok v -> In v (map snd d).
Proof.
  induction d as [|[k' v'] d IH]; simpl; [discriminate|].
  destruct (String.eqb k' k); intros H.
  - injection H as <-. now left.
  - right. now apply IH.
Qed.

Lemma emits_same (st st' : interpreter) :
  extracted_segments st' = extracted_segments st -> emits page st st'.
Proof.
  intros H. exists []. rewrite app_nil_r. repeat split; auto.
Qed.

Lemma extends_refl (st st' : interpreter) :
  segment st' = segment st -> extends st st'.
Proof.
  intros H. unfold extends. rewrite H. split; [auto|].
  exists EmptyString. now rewrite append_nil_r.
Qed.

Lemma extends_trans (a b c : interpreter) :
  extends a b -> extends b c -> extends a c.
Proof.
  intros [Ho [s Hs]] [Ho' [s' Hs']]. split; [auto|].
  exists (s ++ s')%string. now rewrite Hs', Hs, append_assoc.
Qed.

Lemma terminate_segment_step (st st' : interpreter) :
  terminate_segment page st = Ok st' ->
  emits page st st'
  /\ segment st' = new_segment
  /\ text_state st' = text_state st
  /\ text_state_stack st' = text_state_stack st.
Proof.
  unfold terminate_segment.
  destruct (negb (content (segment st) =? "")%string).
  - destruct (lookup_name (font_output_names page)
                (ts_font_name (text_state st))) as [name|e] eqn:E;
      [|discriminate].
    simpl. intros H. injection H as <-. cbn.
    split; [|auto].
    eexists. split; [reflexivity|]. split; [simpl; lia|].
    constructor; [|constructor].
    exists name. split; [reflexivity | now apply (lookup_name_In _ _ _ E)].
  - simpl. intros H. injection H as <-. cbn.
    split; [|auto]. now apply emits_same.
Qed.

Lemma reposition_horizontal_step (dx : float) (st : interpreter) :
  extracted_segments (reposition_horizontal x_tolerance dx st)
  = extracted_segments st
  /\ text_state (reposition_horizontal x_tolerance dx st) = text_state st
  /\ text_state_stack (reposition_horizontal x_tolerance dx st)
     = text_state_stack st
  /\ extends st (reposition_horizontal x_tolerance dx st).
Proof.
  unfold reposition_horizontal, extends.
  destruct ((dx <? 0)%float && negb (content (segment st) =? "")%string).
  - repeat split; [auto | now eexists].
  - destruct ((0 <? dx)%float && negb (content (segment st) =? "")%string).
    + destruct (x_tolerance * size (text_state st)
                <? dx - cur_displacement st)%float.
      * repeat split; [auto | now eexists].
      * destruct (dx - cur_displacement st <? -0.1)%float; repeat split;
          auto; exists EmptyString; cbn; now rewrite append_nil_r.
    + repeat split; auto. exists EmptyString. now rewrite append_nil_r.
Qed.

Lemma reposition_step (dx dy : float) (st st' : interpreter) :
  reposition page x_tolerance y_tolerance dx dy st = Ok st' ->
  emits page st st'
  /\ (segment st' = new_segment \/ extends st st')
  /\ text_state st' = text_state st
  /\ text_state_stack st' = text_state_stack st.
Proof.
  unfold reposition.
  destruct ((dy <? 0)%float
            && (abs (dx + x_translation_from_origin (segment st))
                <? x_tolerance)%float).
  { simpl. intros H. injection H as <-. cbn.
    split; [now apply emits_same|]. split; [|auto].
    right. split; cbn; [auto | now eexists]. }
  destruct ((0 <? dy)%float
            && (abs (dy + y_translation_from_origin (segment st))
                <? y_tolerance)%float).
  { simpl. intros H. injection H as <-. cbn.
    split; [now apply emits_same|]. split; [|auto].
    right. split; cbn; [auto | now eexists]. }
  destruct (y_tolerance <=? abs dy)%float.
  - destruct (terminate_segment page st) as [st1|e] eqn:E; [|discriminate].
    simpl. intros H. injection H as <-.
    destruct (terminate_segment_step _ _ E) as (He & Hs & Ht & Hk).
    cbn. repeat split; try assumption. now left.
  - simpl. intros H. injection H as <-.
    destruct (reposition_horizontal_step dx st) as (He & Ht & Hk & Hc).
    cbn. split; [now apply emits_same|]. split; [now right|]. auto.
Qed.

Lemma show_step (bs : list Byte.byte) (st st' : interpreter) :
  show page bs st = Ok st' ->
  extracted_segments st' = extracted_segments st
  /\ extends st st'
  /\ text_state st' = text_state st
  /\ text_state_stack st' = text_state_stack st.
Proof.
  unfold show.
  destruct (lookup_name (fonts page) (ts_font_name (text_state st)))
    as [font|e]; [|discriminate].
  simpl. destruct (get_content_and_width font bs) as [[c w]|e]; [|discriminate].
  simpl. intros H. injection H as <-. cbn.
  repeat split; cbn; [auto | now eexists].
Qed.

Lemma show_items_step (items : list TJ_item) :
  forall st st',
    show_items page items st = Ok st' ->
    extracted_segments st' = extracted_segments st
    /\ extends st st'
    /\ text_state st' = text_state st
    /\ text_state_stack st' = text_state_stack st.
Proof.
  induction items as [|[bs|n] rest IH]; intros st st' H; simpl in H.
  - injection H as <-. split; [reflexivity|].
    split; [now apply extends_refl|]. split; reflexivity.
  - destruct (show page bs st) as [st1|e] eqn:E; [|discriminate].
    simpl in H. destruct (show_step _ _ _ E) as (H1 & H2 & H3 & H4).
    destruct (IH _ _ H) as (H1' & H2' & H3' & H4').
    split; [congruence|].
    split; [now apply (extends_trans st st1 st')|]. split; congruence.
  - destruct (IH _ _ H) as (H1' & H2' & H3' & H4').
    split; [exact H1'|].
    split; [|split; assumption].
    eapply extends_trans; [|exact H2'].
    now apply extends_refl.
Qed.

Lemma operation_visitor_step (op : operation) (cm tm : matrix)
  (st st' : interpreter) :
  operation_visitor page x_tolerance y_tolerance op cm tm st = Ok st' ->
  emits page st st'
  /\ (segment st' = new_segment \/ extends st st')
  /\ (no_save_restore op = true ->
      text_state_stack st' = text_state_stack st).
Proof.
  unfold operation_visitor.
  set (st0 := match op, origin_coordinates (segment st) with
              | (TJ _ | Tj _), None => _
              | _, _ => st
              end).
  assert (H0 : extracted_segments st0 = extracted_segments st
               /\ extends st st0
               /\ text_state st0 = text_state st
               /\ text_state_stack st0 = text_state_stack st).
  { subst st0.
    destruct op; try (split; [reflexivity|]; split;
                      [now apply extends_refl|]; split; reflexivity);
      destruct (origin_coordinates (segment st)) eqn:Eo;
      try (split; [reflexivity|]; split;
           [now apply extends_refl|]; split; reflexivity);
      (split; [reflexivity|]; split; [|split; reflexivity]);
      (split; [intros o Ho; congruence|]);
      exists EmptyString; cbn; now rewrite append_nil_r. }
  clearbody st0. destruct H0 as (He0 & Hx0 & Ht0 & Hk0).
  assert (Hem : forall st1, emits page st0 st1 -> emits page st st1).
  { intros st1 (more & Hm & Hl & Hn). exists more. now rewrite <- He0. }
  assert (Hex : forall st1,
             segment st1 = new_segment \/ extends st0 st1 ->
             segment st1 = new_segment \/ extends st st1).
  { intros st1 [Hn|Hx]; [now left | right].
    now apply (extends_trans st st0 st1). }
  destruct op.
  - (* Tf *)
    destruct (terminate_segment page st0) as [st1|e] eqn:E; [|discriminate].
    simpl. intros H. injection H as <-.
    destruct (terminate_segment_step _ _ E) as (He & Hs & Ht & Hk).
    cbn. split; [now apply Hem|]. split; [now left|]. intros _. congruence.
  - (* q *)
    intros H. injection H as <-. cbn.
    split; [apply Hem; now apply emits_same|].
    split; [right; exact Hx0 | discriminate].
  - (* Q *)
    destruct (terminate_segment page st0) as [st1|e] eqn:E; [|discriminate].
    simpl. destruct (text_state_stack st1) as [|top below]; [discriminate|].
    intros H. injection H as <-.
    destruct (terminate_segment_step _ _ E) as (He & Hs & Ht & Hk).
    cbn. split; [now apply Hem|]. split; [now left | discriminate].
  - (* ET *)
    intros H. destruct (terminate_segment_step _ _ H) as (He & Hs & Ht & Hk).
    split; [now apply Hem|]. split; [now left|]. intros _. congruence.
  - (* Td *)
    intros H. destruct (reposition_step _ _ _ _ H) as (He & Hs & Ht & Hk).
    split; [now apply Hem|]. split; [now apply Hex|]. intros _. congruence.
  - (* TJ *)
    intros H. destruct (show_items_step _ _ _ H) as (He & Hs & Ht & Hk).
    split; [apply Hem; now apply emits_same|].
    split; [apply Hex; now right|]. intros _. congruence.
  - (* Tj *)
    intros H. destruct (show_step _ _ _ H) as (He & Hs & Ht & Hk).
    split; [apply Hem; now apply emits_same|].
    split; [apply Hex; now right|]. intros _. congruence.
  - intros H. injection H as <-. cbn.
    split; [apply Hem; now apply emits_same|].
    split; [right; exact Hx0 | auto].
  - intros H. injection H as <-. cbn.
    split; [apply Hem; now apply emits_same|].
    split; [right; exact Hx0 | auto].
  - intros H. injection H as <-. cbn.
    split; [apply Hem; now apply emits_same|].
    split; [right; exact Hx0 | auto].
  - intros H. injection H as <-.
    split; [apply Hem; now apply emits_same|].
    split; [right; exact Hx0 | auto].
Qed.

(** Whatever the operation, the working segment either starts afresh or
    goes on: once the first show operator of a segment has set its origin,
    no later operation moves it, and content is only ever added at the end. *)
Theorem operation_keeps_segment (op : operation) (cm tm : matrix)
  (st st' : interpreter) :
  operation_visitor page x_tolerance y_tolerance op cm tm st = Ok st' ->
  segment st' = new_segment
  \/ ((forall o, origin_coordinates (segment st) = Some o ->
                 origin_coordinates (segment st') = Some o)
      /\ exists suffix,
          content (segment st') = (content (segment st) ++ suffix)%string).
Proof.
  intros H. destruct (operation_visitor_step _ _ _ _ _ H) as (_ & Hs & _).
  exact Hs.
Qed.

(** Running a content stream only appends to the output: the segments
    already emitted stay as they are, at most one segment is added per
    operation, and every added segment carries the output name of a font of
    the page. *)
Theorem run_output_grows (ops : list (operation * matrix * matrix)) :
  forall st st',
    run page x_tolerance y_tolerance ops st = Ok st' ->
    exists more,
      extracted_segments st' = extracted_segments st ++ more
      /\ (List.length more <= List.length ops)%nat
      /\ Forall (named page) more.
Proof.
  induction ops as [|[[op cm] tm] rest IH]; intros st st' H; simpl in H.
  - injection H as <-. exists []. rewrite app_nil_r. repeat split; auto.
  - destruct (operation_visitor page x_tolerance y_tolerance op cm tm st)
      as [st1|e] eqn:E; [|discriminate].
    simpl in H.
    destruct (operation_visitor_step _ _ _ _ _ E) as ((m1 & H1 & L1 & N1) & _).
    destruct (IH _ _ H) as (m2 & H2 & L2 & N2).
    exists (m1 ++ m2). split; [|split].
    + now rewrite H2, H1, app_assoc.
    + rewrite length_app. simpl. lia.
    + now apply Forall_app.
Qed.

Lemma run_keeps_stack (ops : list (operation * matrix * matrix)) :
  forall st st',
    forallb (fun o => no_save_restore (fst (fst o))) ops = true ->
    run page x_tolerance y_tolerance ops st = Ok st' ->
    text_state_stack st' = text_state_stack st.
Proof.
  induction ops as [|[[op cm] tm] rest IH]; intros st st' Hn H; simpl in *.
  - now injection H as <-.
  - apply andb_true_iff in Hn. destruct Hn as [Hop Hrest].
    destruct (operation_visitor page x_tolerance y_tolerance op cm tm st)
      as [st1|e] eqn:E; [|discriminate].
    simpl in H. destruct (operation_visitor_step _ _ _ _ _ E) as (_ & _ & Hk).
    rewrite (IH _ _ Hrest H). now apply Hk.
Qed.

Lemma run_app (a b : list (operation * matrix * matrix)) :
  forall st,
    run page x_tolerance y_tolerance (a ++ b) st
    = (st1 <- run page x_tolerance y_tolerance a st ;;
       run page x_tolerance y_tolerance b st1).
Proof.
  induction a as [|[[op cm] tm] rest IH]; intros st; simpl; [reflexivity|].
  destruct (operation_visitor page x_tolerance y_tolerance op cm tm st);
    simpl; [apply IH | reflexivity].
Qed.

(** Saving the graphics state, running operations that neither save nor
    restore, and restoring brings back the font and size in force at the
    save, with the stack as it was. *)
Theorem restore_brings_back_text_state
  (ops : list (operation * matrix * matrix)) (cm tm cm' tm' : matrix)
  (st st' : interpreter) :
  forallb (fun o => no_save_restore (fst (fst o))) ops = true ->
  run page x_tolerance y_tolerance
    ((q_push, cm, tm) :: ops ++ [(Q_pop, cm', tm')]) st = Ok st' ->
  text_state st' = text_state st
  /\ text_state_stack st' = text_state_stack st.
Proof.
  intros Hn H. cbn [run] in H.
  assert (Hq : exists s0,
             operation_visitor page x_tolerance y_tolerance q_push cm tm st
             = Ok s0
             /\ text_state_stack s0 = text_state st :: text_state_stack st).
  { unfold operation_visitor. eexists. split; reflexivity. }
  destruct Hq as (s0 & Hq & Hk0). rewrite Hq in H. cbn [bind] in H.
  rewrite run_app in H.
  destruct (run page x_tolerance y_tolerance ops s0) as [s1|e] eqn:E;
    [|discriminate].
  cbn [bind run] in H.
  pose proof (run_keeps_stack _ _ _ Hn E) as Hk1. rewrite Hk0 in Hk1.
  unfold operation_visitor in H.
  destruct (terminate_segment page s1) as [s2|e] eqn:E2; [|discriminate].
  destruct (terminate_segment_step _ _ E2) as (_ & _ & _ & Hk2).
  cbn [bind] in H. rewrite Hk2, Hk1 in H. cbn in H.
  injection H as <-. cbn. auto.
Qed.

(** A restore with nothing saved never succeeds. *)
Theorem restore_without_save_raises (cm tm : matrix) (st : interpreter) :
  text_state_stack st = [] ->
  exists e,
    operation_visitor page x_tolerance y_tolerance Q_pop cm tm st = Raise e.
Proof.
  intros Hk. unfold operation_visitor.
  destruct (terminate_segment page st) as [s1|e] eqn:E; [|now exists e].
  destruct (terminate_segment_step _ _ E) as (_ & _ & _ & Hk1).
  cbn [bind]. rewrite Hk1, Hk. now exists IndexError.
Qed.

End InterpreterInvariants.

Section InterpreterInvariantsExamples.

Import Font Extraction Samples MoreSamples.
Local Open Scope list_scope.
Local Open Scope float_scope.

Lemma operation_keeps_segment_witness :
  {| content := "ABA"; origin_coordinates := Some (72, 700);
     font_name := None;
     x_translation_from_origin := 0;
     y_translation_from_origin := 0 |} = new_segment
  \/ ((forall o : float * float,
          Some (72, 700) = Some o -> Some (72, 700) = Some o)
      /\ exists suffix, "ABA"%string = ("AB" ++ suffix)%string).
Proof.
  apply (operation_keeps_segment one_font_page 0.3 1 (Tj [Byte.x41])
           identity (at_position 10 10) (in_segment "AB" 0 0)
           {| text_state := {| ts_font_name := "/F1"; size := 10 |};
              text_state_stack := [];
              segment :=
                {| content := "ABA"; origin_coordinates := Some (72, 700);
                   font_name := None;
                   x_translation_from_origin := 0;
                   y_translation_from_origin := 0 |};
              extracted_segments := [];
              cur_displacement := 0 + Extraction.float_of_Z 667 / 1000 * 10;
              log := [] |}).
  reflexivity.
Defined.

Lemma run_output_grows_witness :
  exists more,
    [ {| content := "AB"; origin_coordinates := Some (72, 700);
         font_name := Some "bold"%string;
         x_translation_from_origin := 0;
         y_translation_from_origin := 0 |};
      {| content := "^BA"; origin_coordinates := Some (72, 686);
         font_name := Some "normal"%string;
         x_translation_from_origin := 0;
         y_translation_from_origin := -14 |} ]
    = [] ++ more
    /\ (List.length more <= 8)%nat
    /\ Forall (named two_fonts_page) more.
Proof.
  apply (run_output_grows two_fonts_page 0.3 1 two_line_block initial
           {| text_state := {| ts_font_name := "/F1"; size := 10 |};
              text_state_stack := [];
              segment := new_segment;
              extracted_segments :=
                [ {| content := "AB"; origin_coordinates := Some (72, 700);
                     font_name := Some "bold"%string;
                     x_translation_from_origin := 0;
                     y_translation_from_origin := 0 |};
                  {| content := "^BA"; origin_coordinates := Some (72, 686);
                     font_name := Some "normal"%string;
                     x_translation_from_origin := 0;
                     y_translation_from_origin := -14 |} ];
              cur_displacement := 0;
              log := [] |}).
  vm_compute. reflexivity.
Defined.

Lemma restore_brings_back_text_state_witness :
  {| ts_font_name := "/F1"; size := 10 |} = text_state (in_segment "AB" 0 0)
  /\ [] = text_state_stack (in_segment "AB" 0 0).
Proof.
  apply (restore_brings_back_text_state two_fonts_page 0.3 1
           [ (Tj [Byte.x41], identity, identity);
             (Tf "/F2" 12, identity, identity) ]
           identity identity identity identity (in_segment "AB" 0 0)
           {| text_state := {| ts_font_name := "/F1"; size := 10 |};
              text_state_stack := [];
              segment := new_segment;
              extracted_segments :=
                [ {| content := "ABA"; origin_coordinates := Some (72, 700);
                     font_name := Some "normal"%string;
                     x_translation_from_origin := 0;
                     y_translation_from_origin := 0 |} ];
              cur_displacement := 0;
              log := [] |}).
  - reflexivity.
  - vm_compute. reflexivity.
Defined.

Lemma restore_without_save_raises_witness :
  exists e,
    operation_visitor one_font_page 0.3 1 Q_pop identity identity
      (in_segment "AB" 0 0)
    = Raise e.
Proof.
  apply (restore_without_save_raises one_font_page 0.3 1 identity identity
           (in_segment "AB" 0 0)).
  reflexivity.
Defined.

End InterpreterInvariantsExamples.

Section Serialization.

Import Font Extraction Samples MoreSamples.
Local Open Scope list_scope.

Variable page : DocketPageObject.
Variables x_tolerance y_tolerance : float.
Variable format_coordinate : float -> string.

Lemma split_terminated (sep : ascii) (body : string) :
  exists x xs,
    Py.split sep (body ++ String sep "")%string = x :: xs ++ [EmptyString].
Proof.
  induction body as [|c body IH]; simpl.
  - rewrite Ascii.eqb_refl. now exists EmptyString, [].
  - destruct IH as (x & xs & ->).
    destruct (Ascii.eqb c sep).
    + now exists EmptyString, (x :: xs).
    + now exists (String c x), xs.
Qed.

Lemma segment_to_str_terminated (seg : TextSegment) (s : string) :
  segment_to_str format_coordinate seg = Ok s ->
  exists body, s = (body ++ String DocketReader.terminator "")%string.
Proof.
  unfold segment_to_str.
  destruct (origin_coordinates seg) as [[x y]|]; [|discriminate].
  destruct (font_name seg) as [name|]; [|discriminate].
  intros H. injection H as <-.
  exists (content seg ++ DocketReader.chr DocketReader.properties_open
          ++ (format_coordinate x ++ "," ++ format_coordinate y ++ "," ++ name)
          ++ DocketReader.chr DocketReader.properties_close)%string.
  unfold DocketReader.chr. rewrite !append_assoc. simpl.
  rewrite !append_assoc. reflexivity.
Qed.

Lemma format_segments_terminated (segs : list TextSegment) :
  forall text,
    format_segments format_coordinate segs = Ok text ->
    text = EmptyString
    \/ exists body, text = (body ++ String DocketReader.terminator "")%string.
Proof.
  induction segs as [|seg rest IH]; intros text H; simpl in H.
  - injection H as <-. now left.
  - destruct (segment_to_str format_coordinate seg) as [s|e] eqn:E;
      [|discriminate].
    simpl in H.
    destruct (format_segments format_coordinate rest) as [r|e];
      [|discriminate].
    simpl in H. injection H as <-. right.
    destruct (segment_to_str_terminated _ _ E) as [body ->].
    destruct (IH r eq_refl) as [->|[body' ->]].
    + exists body. now rewrite append_nil_r.
    + exists (body ++ String DocketReader.terminator "" ++ body')%string.
      rewrite !append_assoc. reflexivity.
Qed.

(** The text extracted from a page, split at the terminator, ends with an
    empty line: every segment is written with its terminator. *)
Theorem extract_text_last_line_empty
  (ops : list (operation * matrix * matrix)) (text : string) :
  extract_text page x_tolerance y_tolerance format_coordinate ops = Ok text ->
  exists lines,
    Py.split DocketReader.terminator text = lines ++ [EmptyString].
Proof.
  unfold extract_text.
  destruct (run page x_tolerance y_tolerance ops initial) as [st|e];
    [|discriminate].
  simpl. intros H.
  destruct (format_segments_terminated _ _ H) as [->|[body ->]].
  - now exists [].
  - destruct (split_terminated DocketReader.terminator body) as (x & xs & ->).
    now exists (x :: xs).
Qed.

End Serialization.

Section SerializationExamples.

Import Font Extraction Samples MoreSamples.
Local Open Scope list_scope.

Lemma extract_text_last_line_empty_witness :
  exists lines,
    Py.split DocketReader.terminator
      "AB[000.00,000.00,bold]
^BA[000.00,000.00,normal]
"
    = lines ++ [EmptyString].
Proof.
  apply (extract_text_last_line_empty two_fonts_page 0.3%float 1%float
           (fun _ => "000.00"%string) two_line_block).
  vm_compute. reflexivity.
Defined.

End SerializationExamples.

(* ================================================================== *)
(** * Further properties of fonts *)

Section FontProperties.

Import Font FontWidths.
Local Open Scope list_scope.

Lemma decode_from_app (font : PdfFontWrapper) (a b : list Byte.byte) :
  forall content width,
    decode_from font (a ++ b) content width
    = (cw <- decode_from font a content width ;;
       decode_from font b (fst cw) (snd cw)).
Proof.
  induction a as [|x a IH]; intros content width; simpl; [reflexivity|].
  destruct (lookup (unicode_map font) (Byte.to_N x)) as [u|e]; [|reflexivity].
  simpl. destruct (lookup (widths font) (Byte.to_N x)) as [w|e];
    [|reflexivity].
  simpl. apply IH.
Qed.

Lemma decode_from_acc (font : PdfFontWrapper) (bs : list Byte.byte) :
  forall content width,
    decode_from font bs content width
    = (cw <- decode_from font bs EmptyString 0%Z ;;
       Ok ((content ++ fst cw)%string, (width + snd cw)%Z)).
Proof.
  induction bs as [|x bs IH]; intros content width; simpl.
  - now rewrite append_nil_r, Z.add_0_r.
  - destruct (lookup (unicode_map font) (Byte.to_N x)) as [u|e]; [|reflexivity].
    simpl. destruct (lookup (widths font) (Byte.to_N x)) as [w|e];
      [|reflexivity].
    simpl. rewrite (IH (content ++ u)%string (width + w)%Z), (IH u w).
    destruct (decode_from font bs EmptyString 0%Z) as [[c v]|e]; simpl;
      [|reflexivity].
    now rewrite append_assoc, Z.add_assoc.
Qed.

(** Decoding a byte string in two parts and in one go agree: the contents
    are joined and the widths added. *)
Theorem get_content_and_width_app (font : PdfFontWrapper)
  (a b : list Byte.byte) (ca cb : string) (wa wb : Z) :
  get_content_and_width font a = Ok (ca, wa) ->
  get_content_and_width font b = Ok (cb, wb) ->
  get_content_and_width font (a ++ b) = Ok ((ca ++ cb)%string, (wa + wb)%Z).
Proof.
  unfold get_content_and_width. intros Ha Hb.
  rewrite decode_from_app, Ha. cbn [bind fst snd].
  rewrite decode_from_acc, Hb. reflexivity.
Qed.

Lemma get_content_and_width_app_witness :
  get_content_and_width Samples.arial ([Byte.x41; Byte.x20] ++ [Byte.x42])
  = Ok (("A " ++ "B")%string, (945 + 667)%Z).
Proof.
  apply get_content_and_width_app; reflexivity.
Defined.

(** A byte string is decoded exactly when each of its bytes has an entry in
    the unicode map and in the widths of the font; otherwise the lookup
    raises [KeyError]. *)
Theorem get_content_and_width_defined (font : PdfFontWrapper)
  (bs : list Byte.byte) :
  (Forall (fun x => is_ok (lookup (unicode_map font) (Byte.to_N x)) = true
                    /\ is_ok (lookup (widths font) (Byte.to_N x)) = true) bs
   -> exists content width,
       get_content_and_width font bs = Ok (content, width))
  /\ (~ Forall (fun x => is_ok (lookup (unicode_map font) (Byte.to_N x)) = true
                       /\ is_ok (lookup (widths font) (Byte.to_N x)) = true) bs
      -> get_content_and_width font bs = Raise KeyError).
Proof.
  assert (Hl : forall V (d : list (N * V)) k e,
             lookup d k = Raise e -> e = KeyError).
  { intros V d k e. induction d as [|[k' v] d IH]; simpl.
    - intros H. now injection H as <-.
    - destruct (N.eqb k' k); [discriminate | exact IH]. }
  unfold get_content_and_width. generalize EmptyString, 0%Z.
  induction bs as [|x bs IH]; intros content width.
  - split; [intros _; simpl; now eexists; eexists|].
    intros H. exfalso. apply H. constructor.
  - simpl. destruct (lookup (unicode_map font) (Byte.to_N x)) as [u|e] eqn:Eu.
    + destruct (lookup (widths font) (Byte.to_N x)) as [w|e] eqn:Ew.
      * simpl. destruct (IH (content ++ u)%string (width + w)%Z) as [IH1 IH2].
        split.
        -- intros H. inversion H; subst. now apply IH1.
        -- intros H. apply IH2. intros Hall. apply H.
           constructor; [|exact Hall]. rewrite Eu, Ew. now split.
      * simpl. rewrite (Hl _ _ _ _ Ew). split; [|reflexivity].
        intros H. inversion H as [|? ? [_ Hw] _]; subst.
        rewrite Ew in Hw. discriminate.
    + simpl. rewrite (Hl _ _ _ _ Eu). split; [|reflexivity].
      intros H. inversion H as [|? ? [Hu _] _]; subst.
      rewrite Eu in Hu. discriminate.
Qed.

Lemma get_content_and_width_defined_witness :
  (exists content width,
      get_content_and_width Samples.arial [Byte.x41; Byte.x42]
      = Ok (content, width))
  /\ get_content_and_width Samples.arial [Byte.x41; Byte.x43] = Raise KeyError.
Proof.
  split.
  - apply (get_content_and_width_defined Samples.arial [Byte.x41; Byte.x42]).
    repeat constructor.
  - apply (get_content_and_width_defined Samples.arial [Byte.x41; Byte.x43]).
    intros H. inversion H as [|? ? _ H1]; subst.
    inversion H1 as [|? ? [Hu _] _]; subst. discriminate Hu.
Defined.

Lemma widths_loop_ok (first_char : N) (array : list Z) (codes : list N) :
  forall widths_dict,
    (forall i, In i codes ->
               (N.to_nat (i - first_char) < List.length array)%nat) ->
    widths_loop first_char array codes widths_dict
    = Ok (widths_dict
          ++ map (fun i => (i, nth (N.to_nat (i - first_char)) array 0%Z))
               codes).
Proof.
  induction codes as [|i rest IH]; intros widths_dict Hin; simpl.
  - now rewrite app_nil_r.
  - unfold Py.index.
    assert (Hi : (N.to_nat (i - first_char) < List.length array)%nat)
      by (apply Hin; now left).
    rewrite (nth_error_nth' array 0%Z Hi). simpl.
    rewrite IH by (intros j Hj; apply Hin; now right).
    now rewrite <- app_assoc.
Qed.

Lemma widths_loop_raises (first_char : N) (array : list Z) (codes : list N) :
  forall widths_dict,
    Exists (fun i => (List.length array <= N.to_nat (i - first_char))%nat)
      codes ->
    widths_loop first_char array codes widths_dict = Raise IndexError.
Proof.
  induction codes as [|i rest IH]; intros widths_dict H;
    inversion H as [? ? Hi|? ? Hrest]; subst; simpl; unfold Py.index.
  - apply nth_error_None in Hi. now rewrite Hi.
  - destruct (nth_error array (N.to_nat (i - first_char))); simpl;
      [now apply IH | reflexivity].
Qed.

Lemma lookup_map (f : N -> Z) (codes : list N) (i : N) :
  In i codes -> lookup (map (fun j => (j, f j)) codes) i = Ok (f i).
Proof.
  induction codes as [|j rest IH]; simpl; [tauto|].
  intros H. destruct (N.eqb_spec j i) as [->|Hne]; [reflexivity|].
  destruct H as [H|H]; [contradiction | now apply IH].
Qed.

Lemma char_range_In (first_char last_char : N) (k : nat) :
  (k < N.to_nat (last_char + 1 - first_char))%nat ->
  In (first_char + N.of_nat k)%N (char_range first_char last_char).
Proof.
  intros H. unfold char_range.
  apply (in_map (fun k => (first_char + N.of_nat k)%N)).
  apply in_seq. lia.
Qed.

(** [get_widths_dict] succeeds exactly when [/Widths] has an entry for every
    code from [/FirstChar] to [/LastChar]: the keys of the dictionary are
    then these codes, in order, and the code [first_char + k] has the
    [k]-th width.  With a shorter array it raises [IndexError]. *)
Theorem get_widths_dict_cases (first_char last_char : N) (array : list Z) :
  ((N.to_nat (last_char + 1 - first_char) <= List.length array)%nat ->
   exists widths_dict,
     get_widths_dict first_char last_char array = Ok widths_dict
     /\ map fst widths_dict = char_range first_char last_char
     /\ forall k, (k < N.to_nat (last_char + 1 - first_char))%nat ->
                  lookup widths_dict (first_char + N.of_nat k)
                  = Ok (nth k array 0%Z))
  /\ ((List.length array < N.to_nat (last_char + 1 - first_char))%nat ->
      get_widths_dict first_char last_char array = Raise IndexError).
Proof.
  unfold get_widths_dict. split; intros H.
  - eexists. split; [|split].
    + apply widths_loop_ok. intros i Hi. unfold char_range in Hi.
      apply in_map_iff in Hi. destruct Hi as (k & <- & Hk).
      apply in_seq in Hk. lia.
    + simpl. rewrite map_map. simpl. apply map_id.
    + intros k Hk. simpl.
      rewrite (lookup_map
                 (fun i => nth (N.to_nat (i - first_char)) array 0%Z)
                 _ _ (char_range_In first_char last_char k Hk)).
      do 2 f_equal. lia.
  - apply widths_loop_raises. apply Exists_exists.
    exists (first_char + N.of_nat (List.length array))%N. split.
    + now apply char_range_In.
    + lia.
Qed.

Lemma get_widths_dict_cases_witness :
  (exists widths_dict,
      get_widths_dict 65 66 [667; 611]%Z = Ok widths_dict
      /\ map fst widths_dict = char_range 65 66
      /\ forall k, (k < N.to_nat (66 + 1 - 65))%nat ->
                   lookup widths_dict (65 + N.of_nat k) = Ok (nth k [667; 611]%Z 0%Z))
  /\ get_widths_dict 65 67 [667; 611]%Z = Raise IndexError.
Proof.
  split.
  - apply (get_widths_dict_cases 65 66 [667; 611]%Z). simpl. lia.
  - apply (get_widths_dict_cases 65 67 [667; 611]%Z). simpl. lia.
Defined.

End FontProperties.

(* ================================================================== *)
(** * [flatten] and the structural reducers *)

Section ReducerProperties.

Import Parsing Reducers.
Local Open Scope list_scope.

Lemma value_nested_ind (P : value -> Prop)
  (Hnode : forall n, P (VNode n))
  (Hlist : forall items, Forall P items -> P (VList items))
  (Hdict : forall d, P (VDict d))
  (Hstr : forall s, P (VStr s))
  (Hfloat : forall f, P (VFloat f))
  (Hdate : forall y m d, P (VDate y m d)) :
  forall item, P item.
Proof.
  fix IH 1. intros [n|items|d|s|f|y m d].
  - apply Hnode.
  - apply Hlist. induction items as [|x xs IHxs]; constructor;
      [apply IH | exact IHxs].
  - apply Hdict.
  - apply Hstr.
  - apply Hfloat.
  - apply Hdate.
Qed.

Lemma flatten_item_fields (item : value) : Forall is_field (flatten_item item).
Proof.
  induction item as [n|items IH|d|s|f|y m d] using value_nested_ind;
    simpl; try (repeat constructor).
  induction IH as [|x xs Hx _ IHxs]; simpl; [constructor|].
  apply Forall_app. split; assumption.
Qed.

Lemma flatten_fields (visited_children : list value) :
  Forall is_field (flatten visited_children).
Proof.
  unfold flatten. induction visited_children as [|x xs IH]; simpl;
    [constructor|].
  apply Forall_app. split; [apply flatten_item_fields | exact IH].
Qed.

Lemma flatten_of_fields (items : list value) :
  Forall is_field items -> flatten items = items.
Proof.
  unfold flatten. induction 1 as [|x xs Hx _ IH]; simpl; [reflexivity|].
  rewrite IH. destruct x; simpl in Hx; try contradiction; reflexivity.
Qed.

(** [flatten] yields neither raw nodes nor lists, at any depth of
    nesting of its argument. *)
Theorem flatten_yields_fields (visited_children : list value) :
  Forall is_field (flatten visited_children)
  /\ forall a b,
      flatten (a ++ [VList visited_children] ++ b)
      = flatten a ++ flatten visited_children ++ flatten b.
Proof.
  split; [apply flatten_fields|].
  intros a b. unfold flatten. rewrite !flat_map_app. simpl.
  now rewrite app_nil_r.
Qed.

(** Flattening twice is flattening once: a list of fields is its own
    flattening. *)
Theorem flatten_idempotent (visited_children : list value) :
  flatten (flatten visited_children) = flatten visited_children.
Proof.
  apply flatten_of_fields, flatten_fields.
Qed.

(** ** Dictionaries *)

Lemma dict_get_set (key k : string) (v : value) (d : list (string * value)) :
  dict_get key (dict_set k v d)
  = if String.eqb k key then Some v else dict_get key d.
Proof.
  induction d as [|[k' v'] d IH]; simpl; [reflexivity|].
  destruct (String.eqb_spec k' k) as [->|Hne]; simpl.
  - destruct (String.eqb k key); reflexivity.
  - rewrite IH. destruct (String.eqb_spec k' key) as [->|]; [|reflexivity].
    destruct (String.eqb_spec k key); [congruence | reflexivity].
Qed.

Lemma dict_get_app (key : string) (a b : list (string * value)) :
  dict_get key (a ++ b)
  = match dict_get key a with
    | Some v => Some v
    | None => dict_get key b
    end.
Proof.
  induction a as [|[k v] a IH]; simpl; [reflexivity|].
  destruct (String.eqb k key); [reflexivity | exact IH].
Qed.

Lemma dict_get_update (key : string) (u : list (string * value)) :
  forall d,
    dict_get key (dict_update d u)
    = match dict_get key (rev u) with
      | Some v => Some v
      | None => dict_get key d
      end.
Proof.
  unfold dict_update.
  induction u as [|[k v] u IH]; intros d; simpl; [reflexivity|].
  rewrite IH, dict_get_app, dict_get_set. simpl.
  destruct (dict_get key (rev u)); [reflexivity|].
  destruct (String.eqb k key); reflexivity.
Qed.

Lemma dict_has_get (key : string) (d : list (string * value)) :
  dict_has key d = match dict_get key d with Some _ => true | None => false end.
Proof.
  unfold dict_has. induction d as [|[k v] d IH]; simpl; [reflexivity|].
  destruct (String.eqb k key); [reflexivity | exact IH].
Qed.

Lemma dict_get_remove (key k : string) (d : list (string * value)) :
  dict_get key (dict_remove k d)
  = if String.eqb k key then None else dict_get key d.
Proof.
  unfold dict_remove.
  induction d as [|[k' v'] d IH]; simpl.
  - destruct (String.eqb k key); reflexivity.
  - destruct (String.eqb_spec k' k) as [->|Hne]; simpl.
    + rewrite IH. destruct (String.eqb k key); reflexivity.
    + rewrite IH. destruct (String.eqb_spec k' key) as [->|]; [|reflexivity].
      destruct (String.eqb_spec k key); [congruence | reflexivity].
Qed.

Lemma dict_get_rev_None (key : string) (d : list (string * value)) :
  dict_get key d = None -> dict_get key (rev d) = None.
Proof.
  induction d as [|[k v] d IH]; simpl; [reflexivity|].
  destruct (String.eqb k key) eqn:E; [discriminate|].
  intros H. rewrite dict_get_app, (IH H). simpl. now rewrite E.
Qed.

Lemma dict_set_keys_In (x k : string) (v : value) (d : list (string * value)) :
  In x (map fst (dict_set k v d)) -> x = k \/ In x (map fst d).
Proof.
  induction d as [|[k' v'] d IH]; simpl.
  - intros [H|[]]. now left.
  - destruct (String.eqb_spec k' k) as [->|Hne]; simpl.
    + intros [H|H]; [now left | now right; right].
    + intros [H|H]; [now right; left|].
      destruct (IH H) as [H'|H']; [now left | now right; right].
Qed.

Lemma dict_set_NoDup (k : string) (v : value) (d : list (string * value)) :
  NoDup (map fst d) -> NoDup (map fst (dict_set k v d)).
Proof.
  induction d as [|[k' v'] d IH]; simpl; intros H.
  - constructor; [intros [] | constructor].
  - inversion H as [|? ? Hnotin Hd]; subst.
    destruct (String.eqb_spec k' k) as [->|Hne]; simpl.
    + constructor; assumption.
    + constructor; [|now apply IH].
      intros Hin. destruct (dict_set_keys_In _ _ _ _ Hin); congruence.
Qed.

Lemma dict_update_NoDup (u : list (string * value)) :
  forall d, NoDup (map fst d) -> NoDup (map fst (dict_update d u)).
Proof.
  unfold dict_update. induction u as [|[k v] u IH]; intros d H; simpl;
    [exact H|].
  apply IH. now apply dict_set_NoDup.
Qed.

Lemma merge_dicts_from (key : string) (items : list value) :
  forall info,
    dict_get key
      (fold_left (fun info visited_child =>
                    match visited_child with
                    | VDict d => dict_update info d
                    | _ => info
                    end) items info)
    = match dict_get key (rev (bindings items)) with
      | Some v => Some v
      | None => dict_get key info
      end.
Proof.
  induction items as [|x xs IH]; intros info; [reflexivity|].
  cbn [fold_left]. rewrite IH.
  destruct x as [n|l|d|s|f|y m dy]; try reflexivity.
  cbn [bindings flat_map]. fold (bindings xs).
  rewrite rev_app_distr, dict_get_app, dict_get_update.
  destruct (dict_get key (rev (bindings xs))); reflexivity.
Qed.

Lemma merge_dicts_NoDup (items : list value) :
  forall info,
    NoDup (map fst info) ->
    NoDup (map fst
             (fold_left (fun info visited_child =>
                           match visited_child with
                           | VDict d => dict_update info d
                           | _ => info
                           end) items info)).
Proof.
  induction items as [|x xs IH]; intros info H; [exact H|].
  cbn [fold_left]. apply IH.
  destruct x; try exact H. now apply dict_update_NoDup.
Qed.

(** [visit_whole_docket], [visit_docket_section] and [visit_charge_segment]
    always return one dictionary without repeated keys, in which each key
    has the value of its last occurrence among the dictionaries of the
    flattened children. *)
Theorem merging_reducers_last_binding_wins :
  Forall (fun reducer : method =>
            forall node visited_children,
            exists info,
              reducer node visited_children = Ok (VDict info)
              /\ NoDup (map fst info)
              /\ forall key,
                  dict_get key info
                  = dict_get key (rev (bindings (flatten visited_children))))
    merging_reducers.
Proof.
  assert (H : forall visited_children,
             NoDup (map fst (merge_dicts (flatten visited_children)))
             /\ forall key,
                 dict_get key (merge_dicts (flatten visited_children))
                 = dict_get key (rev (bindings (flatten visited_children)))).
  { intros vc. split.
    - apply merge_dicts_NoDup. constructor.
    - intros key. unfold merge_dicts. rewrite merge_dicts_from.
      now destruct (dict_get key (rev (bindings (flatten vc)))). }
  repeat constructor; intros node vc; eexists; (split; [reflexivity|]);
    apply H.
Qed.

(** ** The county and category sections of a court summary *)

Lemma county_in_dict_settled (d d' : list (string * value))
  (county_name county_name' : option value) :
  county_in_dict d county_name = Ok (d', county_name') ->
  county_settled (VDict d').
Proof.
  unfold county_in_dict, county_settled.
  set (p := if dict_has "county" d
            then (dict_remove "county" d, dict_get "county" d)
            else (d, county_name)).
  assert (Hp : dict_has "county" (fst p) = false).
  { subst p. destruct (dict_has "county" d) eqn:E; simpl; [|exact E].
    now rewrite dict_has_get, dict_get_remove. }
  destruct p as [d1 county_name1]. simpl in Hp.
  destruct (dict_has "docket_number" d1) eqn:Hdocket.
  - destruct county_name1 as [name|]; [|discriminate].
    destruct (truthy name) eqn:Hname; [|discriminate].
    intros H. injection H as <- <-.
    rewrite !dict_has_get, !dict_get_set. simpl.
    rewrite dict_has_get in Hdocket.
    destruct (dict_get "docket_number" d1); [|discriminate].
    split; [reflexivity|]. intros _. now exists name.
  - intros H. injection H as <- <-.
    rewrite Hp, Hdocket. split; [reflexivity | discriminate].
Qed.

Lemma county_in_item_settled (item : value) :
  forall county_name r,
    county_in_item item county_name = Ok r ->
    Forall county_settled (flatten_item (fst r)).
Proof.
  induction item as [n|items IH|d|s|f|y m d] using value_nested_ind;
    intros county_name r H; simpl in H.
  - injection H as <-. constructor.
  - match type of H with
    | bind (?each items county_name) _ = _ =>
        assert (Heach : forall name rs,
                   each items name = Ok rs ->
                   Forall county_settled (flat_map flatten_item (fst rs)))
    end.
    { clear H county_name r.
      induction IH as [|x xs Hx _ IHxs]; intros name rs H; simpl in H.
      - injection H as <-. constructor.
      - destruct (county_in_item x name) as [r1|e] eqn:E1; [|discriminate].
        simpl in H.
        match type of H with
        | bind ?m _ = _ => destruct m as [r2|e] eqn:E2; [|discriminate]
        end.
        simpl in H. injection H as <-. simpl.
        apply Forall_app. split; [exact (Hx _ _ E1) | exact (IHxs _ _ E2)]. }
    match type of H with
    | bind ?m _ = _ => destruct m as [rs|e] eqn:E; [|discriminate]
    end.
    simpl in H. injection H as <-. simpl. exact (Heach _ _ E).
  - destruct (county_in_dict d county_name) as [[d' name']|e] eqn:E;
      [|discriminate].
    simpl in H. injection H as <-. simpl.
    constructor; [|constructor]. exact (county_in_dict_settled _ _ _ _ E).
  - destruct (Py.contains "county" s) eqn:Hc; [discriminate|].
    destruct (Py.contains "docket_number" s) eqn:Hd.
    + destruct county_name as [name|]; [|discriminate].
      destruct (truthy name); discriminate.
    + injection H as <-. simpl. constructor; [|constructor]. now split.
  - discriminate.
  - discriminate.
Qed.

(** When [visit_county_section] returns, it returns its children with every
    record settled: a record carries a county exactly when it carries a
    docket number, the county is then a non-empty value, and no other kind
    of item is left but strings that mention neither key. *)
Theorem visit_county_section_settles (node : Node)
  (visited_children : list value) (r : value) :
  visit_county_section node visited_children = Ok r ->
  exists children,
    r = VList children
    /\ List.length children = List.length visited_children
    /\ Forall county_settled (flatten children).
Proof.
  unfold visit_county_section. intros H.
  destruct (county_in_item (VList visited_children) None) as [r1|e] eqn:E;
    [|discriminate].
  simpl in H. injection H as <-.
  pose proof (county_in_item_settled _ _ _ E) as Hall.
  simpl in E.
  match type of E with
  | bind (?each visited_children None) _ = _ =>
      assert (Hlen : forall xs name rs,
                 each xs name = Ok rs ->
                 List.length (fst rs) = List.length xs)
  end.
  { induction xs as [|x xs IHxs]; intros name rs H; simpl in H.
    - now injection H as <-.
    - destruct (county_in_item x name) as [r1'|e]; [|discriminate].
      simpl in H.
      match type of H with
      | bind ?m _ = _ => destruct m as [r2|e] eqn:E2; [|discriminate]
      end.
      simpl in H. injection H as <-. simpl. now rewrite (IHxs _ _ E2). }
  match type of E with
  | bind ?m _ = _ => destruct m as [rs|e] eqn:E'; [|discriminate]
  end.
  simpl in E. injection E as <-. simpl in *.
  exists (fst rs). split; [reflexivity|]. split; [|exact Hall].
  exact (Hlen _ _ _ E').
Qed.

Lemma category_in_item_tags (name : string) (item : value) :
  Forall is_record (flatten_item item) ->
  exists r,
    category_in_item name item = Ok r
    /\ flatten_item r = map (with_category name) (flatten_item item).
Proof.
  induction item as [n|items IH|d|s|f|y m d] using value_nested_ind;
    intros Hrec; simpl in Hrec.
  - eexists. split; reflexivity.
  - simpl.
    match goal with
    | |- exists r, bind (?each items) _ = _ /\ _ =>
        assert (Heach : exists rs,
                   each items = Ok rs
                   /\ flat_map flatten_item rs
                      = map (with_category name) (flat_map flatten_item items))
    end.
    { induction IH as [|x xs Hx _ IHxs]; simpl in *.
      - eexists. split; reflexivity.
      - apply Forall_app in Hrec. destruct Hrec as [Hx' Hxs'].
        destruct (Hx Hx') as (r1 & -> & Hr1).
        destruct (IHxs Hxs') as (rs & -> & Hrs).
        simpl. eexists. split; [reflexivity|].
        simpl. now rewrite Hr1, Hrs, map_app. }
    destruct Heach as (rs & -> & Hrs). simpl.
    eexists. split; [reflexivity | exact Hrs].
  - cbn [category_in_item]. destruct (dict_has "docket_number" d) eqn:E;
      eexists; (split; [reflexivity|]); cbn [flatten_item map with_category];
      now rewrite E.
  - inversion Hrec as [|? ? Hs _]; subst. destruct Hs.
  - inversion Hrec as [|? ? Hs _]; subst. destruct Hs.
  - inversion Hrec as [|? ? Hs _]; subst. destruct Hs.
Qed.

(** On children whose fields are all records, [visit_category_section]
    returns the children, in which every record with a docket number has
    its category set to the heading of the section and every other record
    is as it was. *)
Theorem visit_category_section_tags (node : Node)
  (visited_children : list value) :
  Forall is_record (flatten visited_children) ->
  exists children,
    visit_category_section node visited_children = Ok (VList children)
    /\ flatten children
       = map (with_category (category_name node)) (flatten visited_children).
Proof.
  intros Hrec.
  destruct (category_in_item_tags (category_name node)
              (VList visited_children) Hrec) as (r & Hr & Hflat).
  unfold visit_category_section. rewrite Hr.
  simpl in Hr.
  match type of Hr with
  | bind ?m _ = _ => destruct m as [rs|e]; [|discriminate]
  end.
  simpl in Hr. injection Hr as <-.
  exists rs. split; [reflexivity | exact Hflat].
Qed.

(** ** The whole summary *)

Lemma bindings_cons (item : value) (items : list value) :
  bindings (item :: items) = bindings [item] ++ bindings items.
Proof.
  unfold bindings. simpl. now rewrite app_nil_r.
Qed.

Lemma summary_loop_collects (items : list value) :
  forall info dockets,
    Forall summary_item items ->
    dict_get "dockets" info = Some (VList dockets) ->
    exists info',
      summary_loop items info = Ok info'
      /\ dict_get "dockets" info'
         = Some (VList (dockets ++ filter is_docket items))
      /\ forall key,
          key <> "dockets"%string ->
          dict_get key info'
          = match dict_get key
                    (rev (bindings
                            (filter (fun item => negb (is_docket item)) items)))
            with
            | Some v => Some v
            | None => dict_get key info
            end.
Proof.
  induction items as [|x xs IH]; intros info dockets Hall Hd.
  - exists info. split; [reflexivity|]. split; [now rewrite app_nil_r|].
    reflexivity.
  - inversion Hall as [|? ? Hx Hxs]; subst.
    assert (Hdocket :
              forall info1,
                is_docket x = true ->
                info1 = dict_set "dockets" (VList (dockets ++ [x])) info ->
                summary_loop (x :: xs) info = summary_loop xs info1 ->
                exists info',
                  summary_loop (x :: xs) info = Ok info'
                  /\ dict_get "dockets" info'
                     = Some (VList (dockets ++ filter is_docket (x :: xs)))
                  /\ forall key,
                      key <> "dockets"%string ->
                      dict_get key info'
                      = match dict_get key
                                (rev (bindings
                                        (filter (fun item => negb (is_docket item))
                                           (x :: xs))))
                        with
                        | Some v => Some v
                        | None => dict_get key info
                        end).
    { intros info1 Hx1 -> Hstep.
      destruct (IH (dict_set "dockets" (VList (dockets ++ [x])) info)
                  (dockets ++ [x]) Hxs) as (info' & Hrun & Hdk & Hkeys).
      { now rewrite dict_get_set. }
      exists info'. rewrite Hstep. split; [exact Hrun|].
      cbn [filter]. rewrite Hx1. cbn [negb]. split.
      - rewrite Hdk, <- app_assoc. reflexivity.
      - intros key Hkey. rewrite (Hkeys key Hkey), dict_get_set.
        destruct (String.eqb_spec "dockets" key); [congruence | reflexivity]. }
    assert (Hskip :
              forall info1,
                is_docket x = false ->
                dict_get "dockets" info1 = Some (VList dockets) ->
                (forall key,
                    key <> "dockets"%string ->
                    dict_get key info1
                    = match dict_get key (rev (bindings [x])) with
                      | Some v => Some v
                      | None => dict_get key info
                      end) ->
                summary_loop (x :: xs) info = summary_loop xs info1 ->
                exists info',
                  summary_loop (x :: xs) info = Ok info'
                  /\ dict_get "dockets" info'
                     = Some (VList (dockets ++ filter is_docket (x :: xs)))
                  /\ forall key,
                      key <> "dockets"%string ->
                      dict_get key info'
                      = match dict_get key
                                (rev (bindings
                                        (filter (fun item => negb (is_docket item))
                                           (x :: xs))))
                        with
                        | Some v => Some v
                        | None => dict_get key info
                        end).
    { intros info1 Hx1 Hd1 Hk1 Hstep.
      destruct (IH info1 dockets Hxs Hd1) as (info' & Hrun & Hdk & Hkeys).
      exists info'. rewrite Hstep. split; [exact Hrun|].
      cbn [filter]. rewrite Hx1. cbn [negb]. split; [exact Hdk|].
      intros key Hkey. rewrite (Hkeys key Hkey), (Hk1 key Hkey).
      rewrite (bindings_cons x (filter (fun item => negb (is_docket item)) xs)),
        rev_app_distr, dict_get_app.
      destruct (dict_get key
                  (rev (bindings
                          (filter (fun item => negb (is_docket item)) xs))));
        reflexivity. }
    destruct x as [n|l|d|s|f|y m dy]; simpl in Hx; try contradiction.
    + destruct (dict_has "docket_number" d) eqn:E.
      * apply (Hdocket _ E eq_refl).
        cbn [summary_loop summary_step contains_key bind].
        now rewrite E, Hd.
      * destruct Hx as [Hx|Hx]; [discriminate|].
        apply (Hskip (dict_update info d) E).
        -- rewrite dict_get_update, dict_get_rev_None; [exact Hd|].
           rewrite dict_has_get in Hx.
           now destruct (dict_get "dockets" d).
        -- intros key _. rewrite dict_get_update.
           unfold bindings. cbn [flat_map]. now rewrite app_nil_r.
        -- cbn [summary_loop summary_step contains_key bind].
           now rewrite E.
    + destruct (Py.contains "docket_number" s) eqn:E.
      * apply (Hdocket _ E eq_refl).
        cbn [summary_loop summary_step contains_key bind].
        now rewrite E, Hd.
      * apply (Hskip info E Hd).
        -- intros key _. reflexivity.
        -- cbn [summary_loop summary_step contains_key bind].
           now rewrite E.
Qed.

(** On children whose fields are records and strings, no record other than
    a docket having a key "dockets", [visit_whole_summary] returns a
    dictionary whose "dockets" are the fields with a docket number, in
    order, and whose other keys have the value of their last occurrence
    among the remaining records. *)
Theorem visit_whole_summary_collects (node : Node)
  (visited_children : list value) :
  Forall summary_item (flatten visited_children) ->
  exists summary_info,
    visit_whole_summary node visited_children = Ok (VDict summary_info)
    /\ dict_get "dockets" summary_info
       = Some (VList (filter is_docket (flatten visited_children)))
    /\ forall key,
        key <> "dockets"%string ->
        dict_get key summary_info
        = dict_get key
            (rev (bindings
                    (filter (fun item => negb (is_docket item))
                       (flatten visited_children)))).
Proof.
  intros Hall.
  destruct (summary_loop_collects (flatten visited_children)
              [("dockets"%string, VList [])] [] Hall eq_refl)
    as (info' & Hrun & Hdk & Hkeys).
  exists info'. unfold visit_whole_summary. rewrite Hrun.
  split; [reflexivity|]. split; [exact Hdk|].
  intros key Hkey. rewrite (Hkeys key Hkey).
  destruct (dict_get key _) eqn:E; [reflexivity|].
  cbn [dict_get].
  destruct (String.eqb_spec "dockets" key); [congruence | reflexivity].
Qed.

(** ** Aliases and leaves of a court summary *)

Lemma mem_char_remove_char (c : ascii) (s : string) :
  Py.mem_char c (Py.remove_char c s) = false.
Proof.
  induction s as [|a s IH]; simpl; [reflexivity|].
  destruct (Ascii.eqb a c) eqn:E; [exact IH|].
  simpl. now rewrite E, IH.
Qed.

(** The aliases of a court summary, joined by the box-wrap character and
    followed by the piece left out, if any, give the stripped text of the
    node back; a piece is left out only at the end and only when it
    mentions WARRANT; no alias holds a box-wrap character. *)
Theorem summary_aliases_join (text : string) :
  exists dropped,
    Py.join DocketReader.box_wrap (summary_aliases text ++ dropped)
    = Py.strip text
    /\ (dropped = []
        \/ exists piece,
            dropped = [piece] /\ Py.contains "WARRANT" piece = true)
    /\ (dropped = [] ->
        Py.contains "WARRANT" (last (summary_aliases text) EmptyString)
        = false)
    /\ Forall (sep_free DocketReader.box_wrap) (summary_aliases text).
Proof.
  unfold summary_aliases.
  pose proof (join_split DocketReader.box_wrap (Py.strip text)) as Hjoin.
  pose proof (split_lines_sep_free DocketReader.box_wrap (Py.strip text))
    as Hfree.
  pose proof (split_not_nil DocketReader.box_wrap (Py.strip text)) as Hne.
  set (aliases := Py.split DocketReader.box_wrap (Py.strip text)) in *.
  destruct (Py.contains "WARRANT" (last aliases EmptyString)) eqn:E.
  - exists [last aliases EmptyString].
    rewrite <- (app_removelast_last EmptyString Hne).
    split; [exact Hjoin|]. split; [right; now eexists|].
    split; [discriminate|].
    rewrite (app_removelast_last EmptyString Hne) in Hfree.
    apply Forall_app in Hfree. apply Hfree.
  - exists []. rewrite app_nil_r.
    split; [exact Hjoin|]. split; [now left|]. split; [now intros _|].
    exact Hfree.
Qed.

Lemma remove_char_free (c : ascii) (s : string) :
  Py.mem_char c s = false -> Py.remove_char c s = s.
Proof.
  induction s as [|a s IH]; simpl; intros H; [reflexivity|].
  apply orb_false_iff in H. destruct H as [Ha Hs].
  now rewrite Ha, (IH Hs).
Qed.

Lemma mem_char_lstrip (c : ascii) (s : string) :
  Py.mem_char c s = false -> Py.mem_char c (Py.lstrip s) = false.
Proof.
  induction s as [|a s IH]; simpl; intros H; [reflexivity|].
  destruct (Py.is_space a); [|exact H].
  apply orb_false_iff in H. now apply IH.
Qed.

Lemma mem_char_rstrip (c : ascii) (s : string) :
  Py.mem_char c s = false -> Py.mem_char c (Py.rstrip s) = false.
Proof.
  induction s as [|a s IH]; simpl; intros H; [reflexivity|].
  apply orb_false_iff in H. destruct H as [Ha Hs].
  specialize (IH Hs).
  destruct (Py.rstrip s) as [|b t].
  - destruct (Py.is_space a); simpl; [reflexivity | now rewrite Ha].
  - cbn [Py.mem_char] in *. now rewrite Ha, IH.
Qed.

(** A string leaf of a court summary never holds the box-wrap character,
    whatever the text of its node; it is the stripped text when that text
    has no box-wrap character. *)
Theorem summary_leaf_without_box_wrap (leaf_name : string) (node : Node)
  (visited_children : list value) :
  exists text,
    summary_visit_leaf leaf_name node visited_children
    = Ok (VDict [(leaf_name, VStr text)])
    /\ sep_free DocketReader.box_wrap text
    /\ (sep_free DocketReader.box_wrap (node_text node) ->
        text = Py.strip (node_text node)).
Proof.
  eexists. split; [reflexivity|]. split.
  - apply mem_char_remove_char.
  - intros H. apply remove_char_free. unfold Py.strip.
    now apply mem_char_rstrip, mem_char_lstrip.
Qed.

(** ** Money in parentheses *)

(** For a money text that starts with a parenthesis, the second and the
    last character are cut off unread: whatever they are, the value is the
    negation of the float nearest to the decimal between them. *)
Theorem money_value_parenthesis (node_text d : string) (q : Q)
  (second final : ascii) :
  plain_decimal d q ->
  Py.remove_char ","%char (Py.strip node_text)
  = String "(" (String second (d ++ String final "")) ->
  money_value node_text = Ok (- Py.round_to_float false q)%float.
Proof.
  intros Hd Hm. destruct (float_plain_decimal d q Hd) as [Hfl _].
  unfold money_value. rewrite Hm.
  change (Ascii.eqb "(" "$") with false.
  change (Ascii.eqb "(" "(") with true. cbv iota.
  replace (substring 2
             (String.length
                (String "(" (String second (d ++ String final ""))) - 3)
             (String "(" (String second (d ++ String final ""))))
    with d.
  - rewrite Hfl. reflexivity.
  - cbn [substring String.length]. rewrite length_append.
    cbn [String.length].
    replace (S (S (String.length d + 1)) - 3)%nat
      with (String.length d) by lia.
    now rewrite substring_prefix.
Qed.

End ReducerProperties.

Section ReducerExamples.

Import Parsing Reducers MoreSamples.
Local Open Scope list_scope.

Lemma visit_county_section_settles_witness :
  exists children,
    VList [ VDict [];
            VList [ VDict [("docket_number"%string,
                            VStr "CP-09-CR-0000001-2020");
                           ("otn"%string, VStr "T 123456-7");
                           ("county"%string, VStr "Bucks")];
                    VNode (mkNode "" "" []) ] ]
    = VList children
    /\ List.length children = List.length bucks_children
    /\ Forall county_settled (flatten children).
Proof.
  apply (visit_county_section_settles closed_section bucks_children).
  reflexivity.
Defined.

Lemma visit_category_section_tags_witness :
  exists children,
    visit_category_section closed_section closed_children
    = Ok (VList children)
    /\ flatten children
       = map (with_category "Closed") (flatten closed_children).
Proof.
  apply (visit_category_section_tags closed_section closed_children).
  repeat constructor.
Defined.

Lemma visit_whole_summary_collects_witness :
  exists summary_info,
    visit_whole_summary closed_section summary_children
    = Ok (VDict summary_info)
    /\ dict_get "dockets" summary_info
       = Some (VList (filter is_docket (flatten summary_children)))
    /\ forall key,
        key <> "dockets"%string ->
        dict_get key summary_info
        = dict_get key
            (rev (bindings
                    (filter (fun item => negb (is_docket item))
                       (flatten summary_children)))).
Proof.
  apply (visit_whole_summary_collects closed_section summary_children).
  simpl.
  repeat (apply Forall_cons;
          [first [left; reflexivity | right; reflexivity]|]).
  apply Forall_nil.
Defined.

Lemma money_value_parenthesis_witness :
  money_value " (-5.00x" = Ok (- Py.round_to_float false (decimal "5" "00"))%float.
Proof.
  apply (money_value_parenthesis " (-5.00x" "5.00" (decimal "5" "00")
           "-"%char "x"%char).
  - apply (plain_point "5" "00"); (reflexivity || discriminate).
  - reflexivity.
Defined.

End ReducerExamples.

(* ================================================================== *)
(** * The reserved-character check and the output format *)

Section CharacterFree.

Import Font Extraction.
Local Open Scope list_scope.

Variable page : DocketPageObject.
Variables x_tolerance y_tolerance : float.

(** A character that no font of the page decodes to, and that is none of
    the three markers the interpreter adds to a content. *)
Variable c : ascii.
Hypothesis fonts_free :
  forall font v,
    In font (map snd (fonts page)) -> In v (map snd (unicode_map font)) ->
    Py.mem_char c v = false.
Hypothesis not_box_wrap : Ascii.eqb DocketReader.box_wrap c = false.
Hypothesis not_tab : Ascii.eqb DocketReader.tab c = false.
Hypothesis not_comes_before : Ascii.eqb DocketReader.comes_before c = false.

Lemma lookup_In {V : Type} (d : list (N * V)) (k : N) (v : V) :
  lookup d k = Ok v -> In v (map snd d).
Proof.
  induction d as [|[k' v'] d IH]; simpl; [discriminate|].
  destruct (N.eqb k' k); intros H.
  - injection H as <-. now left.
  - right. now apply IH.
Qed.

Lemma decode_from_free (font : PdfFontWrapper) (bs : list Byte.byte) :
  In font (map snd (fonts page)) ->
  forall content width cw,
    decode_from font bs content width = Ok cw ->
    Py.mem_char c content = false ->
    Py.mem_char c (fst cw) = false.
Proof.
  intros Hfont.
  induction bs as [|x bs IH]; intros content width cw H Hc; simpl in H.
  - now injection H as <-.
  - destruct (lookup (unicode_map font) (Byte.to_N x)) as [u|e] eqn:Eu;
      [|discriminate].
    simpl in H.
    destruct (lookup (widths font) (Byte.to_N x)) as [w|e]; [|discriminate].
    simpl in H. apply (IH _ _ _ H).
    rewrite mem_char_append, Hc. simpl.
    apply (fonts_free font u Hfont). exact (lookup_In _ _ _ Eu).
Qed.

Lemma drop_last_free (s : string) :
  Py.mem_char c s = false -> Py.mem_char c (Py.drop_last s) = false.
Proof.
  induction s as [|a s IH]; intros H; [reflexivity|].
  cbn [Py.mem_char] in H. apply orb_false_iff in H. destruct H as [Ha Hs].
  destruct s as [|b s]; [reflexivity|].
  change (Py.drop_last (String a (String b s)))
    with (String a (Py.drop_last (String b s))).
  cbn [Py.mem_char]. rewrite Ha. exact (IH Hs).
Qed.

Lemma terminate_segment_free (st st' : interpreter) :
  character_free c st ->
  terminate_segment page st = Ok st' -> character_free c st'.
Proof.
  unfold terminate_segment, character_free. intros [Hc Hall].
  destruct (negb (content (segment st) =? "")%string).
  - destruct (lookup_name (font_output_names page)
                (ts_font_name (text_state st))) as [name|e]; [|discriminate].
    simpl. intros H. injection H as <-. cbn.
    split; [reflexivity|]. apply Forall_app. split; [exact Hall|].
    constructor; [|constructor].
    destruct (ends_with_box_wrap (content (segment st))); cbn;
      [now apply drop_last_free | exact Hc].
  - simpl. intros H. injection H as <-. cbn. now split.
Qed.

Lemma marker_free (st : interpreter) (marker : ascii) :
  Ascii.eqb marker c = false ->
  Py.mem_char c (content (segment st)) = false ->
  Py.mem_char c (content (segment st) ++ DocketReader.chr marker) = false.
Proof.
  intros Hm Hc. rewrite mem_char_append, Hc. simpl. now rewrite Hm.
Qed.

Lemma reposition_horizontal_free (dx : float) (st : interpreter) :
  character_free c st ->
  character_free c (reposition_horizontal x_tolerance dx st).
Proof.
  unfold reposition_horizontal, character_free. intros [Hc Hall].
  destruct ((dx <? 0)%float && negb (content (segment st) =? "")%string).
  - cbn. split; [now apply marker_free | exact Hall].
  - destruct ((0 <? dx)%float && negb (content (segment st) =? "")%string).
    + destruct (x_tolerance * size (text_state st)
                <? dx - cur_displacement st)%float.
      * cbn. split; [now apply marker_free | exact Hall].
      * destruct (dx - cur_displacement st <? -0.1)%float; cbn; now split.
    + now split.
Qed.

Lemma reposition_free (dx dy : float) (st st' : interpreter) :
  character_free c st ->
  reposition page x_tolerance y_tolerance dx dy st = Ok st' ->
  character_free c st'.
Proof.
  unfold reposition. intros Hfree.
  destruct ((dy <? 0)%float
            && (abs (dx + x_translation_from_origin (segment st))
                <? x_tolerance)%float).
  { simpl. intros H. injection H as <-. destruct Hfree as [Hc Hall].
    split; cbn; [now apply marker_free | exact Hall]. }
  destruct ((0 <? dy)%float
            && (abs (dy + y_translation_from_origin (segment st))
                <? y_tolerance)%float).
  { simpl. intros H. injection H as <-. destruct Hfree as [Hc Hall].
    split; cbn; [|exact Hall].
    destruct (dx <? 0)%float; now apply marker_free. }
  destruct (y_tolerance <=? abs dy)%float.
  - destruct (terminate_segment page st) as [st1|e] eqn:E; [|discriminate].
    simpl. intros H. injection H as <-.
    exact (terminate_segment_free _ _ Hfree E).
  - simpl. intros H. injection H as <-.
    exact (reposition_horizontal_free dx st Hfree).
Qed.

Lemma show_free (bs : list Byte.byte) (st st' : interpreter) :
  character_free c st -> show page bs st = Ok st' -> character_free c st'.
Proof.
  unfold show. intros [Hc Hall].
  destruct (lookup_name (fonts page) (ts_font_name (text_state st)))
    as [font|e] eqn:E; [|discriminate].
  simpl.
  destruct (get_content_and_width font bs) as [cw|e] eqn:Ecw; [|discriminate].
  simpl. intros H. injection H as <-. split; cbn; [|exact Hall].
  rewrite mem_char_append, Hc. simpl.
  apply (decode_from_free font bs) with (content := EmptyString) (width := 0%Z);
    [|exact Ecw | reflexivity].
  revert E. clear. generalize (fonts page). intros d.
  induction d as [|[k' v'] d IH]; simpl; [discriminate|].
  destruct (String.eqb k' (ts_font_name (text_state st))); intros H.
  - injection H as <-. now left.
  - right. now apply IH.
Qed.

Lemma show_items_free (items : list TJ_item) :
  forall st st',
    character_free c st -> show_items page items st = Ok st' ->
    character_free c st'.
Proof.
  induction items as [|[bs|n] rest IH]; intros st st' Hfree H; simpl in H.
  - now injection H as <-.
  - destruct (show page bs st) as [st1|e] eqn:E; [|discriminate].
    simpl in H. apply (IH _ _ (show_free _ _ _ Hfree E) H).
  - eapply IH; [|exact H]. exact Hfree.
Qed.

Lemma operation_visitor_free (op : operation) (cm tm : matrix)
  (st st' : interpreter) :
  character_free c st ->
  operation_visitor page x_tolerance y_tolerance op cm tm st = Ok st' ->
  character_free c st'.
Proof.
  intros Hfree. unfold operation_visitor.
  set (st0 := match op, origin_coordinates (segment st) with
              | (TJ _ | Tj _), None => _
              | _, _ => st
              end).
  assert (H0 : character_free c st0).
  { subst st0. destruct op; try exact Hfree;
      destruct (origin_coordinates (segment st)); exact Hfree. }
  clearbody st0. destruct op.
  - destruct (terminate_segment page st0) as [st1|e] eqn:E; [|discriminate].
    simpl. intros H. injection H as <-.
    exact (terminate_segment_free _ _ H0 E).
  - intros H. injection H as <-. exact H0.
  - destruct (terminate_segment page st0) as [st1|e] eqn:E; [|discriminate].
    simpl. destruct (text_state_stack st1) as [|top below]; [discriminate|].
    intros H. injection H as <-.
    exact (terminate_segment_free _ _ H0 E).
  - apply terminate_segment_free, H0.
  - apply reposition_free, H0.
  - apply show_items_free, H0.
  - apply show_free, H0.
  - intros H. injection H as <-. exact H0.
  - intros H. injection H as <-. exact H0.
  - intros H. injection H as <-. exact H0.
  - intros H. injection H as <-. exact H0.
Qed.

Lemma run_free (ops : list (operation * matrix * matrix)) :
  forall st st',
    character_free c st ->
    run page x_tolerance y_tolerance ops st = Ok st' ->
    character_free c st'.
Proof.
  induction ops as [|[[op cm] tm] rest IH]; intros st st' Hfree H; simpl in H.
  - now injection H as <-.
  - destruct (operation_visitor page x_tolerance y_tolerance op cm tm st)
      as [st1|e] eqn:E; [|discriminate].
    simpl in H. apply (IH _ _ (operation_visitor_free _ _ _ _ _ Hfree E) H).
Qed.

End CharacterFree.

Section OutputFormat.

Import Font Extraction.
Local Open Scope list_scope.

Variable page_fonts : list (string * PdfFontWrapper).
Variable page : DocketPageObject.
Variables x_tolerance y_tolerance : float.
Variable format_coordinate : float -> string.

Lemma page_fonts_free (c : ascii) :
  page_init page_fonts = Ok page ->
  one_character_maps page_fonts = true ->
  is_special (String c "") = true ->
  forall font v,
    In font (map snd (fonts page)) -> In v (map snd (unicode_map font)) ->
    Py.mem_char c v = false.
Proof.
  unfold page_init. intros Hinit Hone Hspecial font v Hfont Hv.
  destruct (init_fonts page_fonts []) as [names|e] eqn:E; [|discriminate].
  injection Hinit as <-. cbn [fonts] in Hfont.
  apply in_map_iff in Hfont. destruct Hfont as ([name f] & Hf & Hin).
  simpl in Hf. subst f.
  pose proof (init_fonts_ok _ _ _ E name font v Hin Hv) as Hv'.
  unfold one_character_maps in Hone.
  rewrite forallb_forall in Hone. specialize (Hone _ Hin). simpl in Hone.
  rewrite forallb_forall in Hone.
  apply in_map_iff in Hv. destruct Hv as ([k u] & Hu & Hk).
  simpl in Hu. subst u. specialize (Hone _ Hk). simpl in Hone.
  destruct v as [|a [|b v]]; [reflexivity | | discriminate].
  cbn [Py.mem_char]. destruct (Ascii.eqb_spec a c) as [->|]; [|reflexivity].
  congruence.
Qed.

Lemma page_names (name : string) :
  page_init page_fonts = Ok page ->
  In name (map snd (font_output_names page)) ->
  name = "bold"%string \/ name = "normal"%string.
Proof.
  unfold page_init. intros Hinit Hin.
  destruct (init_fonts page_fonts []) as [names|e] eqn:E; [|discriminate].
  injection Hinit as <-. cbn [font_output_names] in Hin.
  apply init_fonts_names in E. cbn [app] in E. subst names.
  rewrite map_map in Hin. apply in_map_iff in Hin.
  destruct Hin as ([n f] & <- & _). simpl. unfold output_name.
  destruct (Py.contains "bold" (Py.lower (base_font f))); auto.
Qed.

Lemma run_named (ops : list (operation * matrix * matrix)) :
  forall st st',
    Forall (named page) (extracted_segments st) ->
    run page x_tolerance y_tolerance ops st = Ok st' ->
    Forall (named page) (extracted_segments st').
Proof.
  induction ops as [|[[op cm] tm] rest IH]; intros st st' Hall H; simpl in H.
  - now injection H as <-.
  - destruct (operation_visitor page x_tolerance y_tolerance op cm tm st)
      as [st1|e] eqn:E; [|discriminate].
    simpl in H.
    destruct (operation_visitor_step _ _ _ _ _ _ _ _ E)
      as ((more & Hm & _ & Hn) & _).
    apply (IH _ _ (eq_ind_r (Forall (named page))
                     (proj2 (Forall_app _ _ _) (conj Hall Hn)) Hm) H).
Qed.

Lemma segment_to_str_line (seg : TextSegment) (s : string) :
  page_init page_fonts = Ok page ->
  (forall x, sep_free DocketReader.terminator (format_coordinate x)) ->
  sep_free DocketReader.terminator (content seg) ->
  named page seg ->
  segment_to_str format_coordinate seg = Ok s ->
  exists body,
    s = (body ++ String DocketReader.terminator "")%string
    /\ sep_free DocketReader.terminator body.
Proof.
  intros Hinit Hfc Hc (name & Hname & Hin). unfold segment_to_str.
  rewrite Hname.
  destruct (origin_coordinates seg) as [[x y]|]; [|discriminate].
  intros H. injection H as <-.
  exists (content seg ++ DocketReader.chr DocketReader.properties_open
          ++ (format_coordinate x ++ "," ++ format_coordinate y ++ "," ++ name)
          ++ DocketReader.chr DocketReader.properties_close)%string.
  split.
  - unfold DocketReader.chr. rewrite !append_assoc. simpl.
    rewrite !append_assoc. reflexivity.
  - unfold sep_free in *. rewrite !mem_char_append, Hc, (Hfc x), (Hfc y).
    destruct (page_names name Hinit Hin) as [-> | ->]; reflexivity.
Qed.

Lemma format_segments_lines (segs : list TextSegment) :
  page_init page_fonts = Ok page ->
  (forall x, sep_free DocketReader.terminator (format_coordinate x)) ->
  Forall (fun seg => sep_free DocketReader.terminator (content seg)) segs ->
  Forall (named page) segs ->
  forall text,
    format_segments format_coordinate segs = Ok text ->
    List.length (Py.split DocketReader.terminator text)
    = S (List.length segs).
Proof.
  intros Hinit Hfc Hfree Hnamed.
  induction segs as [|seg rest IH]; intros text H; simpl in H.
  - now injection H as <-.
  - inversion Hfree as [|? ? Hc Hfree']; subst.
    inversion Hnamed as [|? ? Hn Hnamed']; subst.
    destruct (segment_to_str format_coordinate seg) as [s|e] eqn:E;
      [|discriminate].
    simpl in H.
    destruct (format_segments format_coordinate rest) as [r|e];
      [|discriminate].
    simpl in H. injection H as <-.
    destruct (segment_to_str_line seg s Hinit Hfc Hc Hn E) as (body & -> & Hb).
    rewrite append_assoc. cbn [String.append].
    rewrite (split_append_sep DocketReader.terminator body r Hb).
    cbn [List.length]. now rewrite (IH Hfree' Hnamed' r eq_refl).
Qed.

(** What the reserved-character check is for.  On a page that is built from
    fonts whose maps give at most one character per character id, no
    segment the interpreter emits holds the terminator or a bracket of the
    properties in its content, and the extracted text has exactly one line
    per segment before its empty last line. *)
Theorem extract_text_one_line_per_segment
  (ops : list (operation * matrix * matrix)) (st : interpreter) :
  page_init page_fonts = Ok page ->
  one_character_maps page_fonts = true ->
  (forall x, sep_free DocketReader.terminator (format_coordinate x)) ->
  run page x_tolerance y_tolerance ops initial = Ok st ->
  Forall (fun seg => format_free (content seg)) (extracted_segments st)
  /\ forall text,
      extract_text page x_tolerance y_tolerance format_coordinate ops = Ok text ->
      List.length (Py.split DocketReader.terminator text)
      = S (List.length (extracted_segments st)).
Proof.
  intros Hinit Hone Hfc Hrun.
  assert (Hfree : forall c,
             is_special (String c "") = true ->
             Ascii.eqb DocketReader.box_wrap c = false ->
             Ascii.eqb DocketReader.tab c = false ->
             Ascii.eqb DocketReader.comes_before c = false ->
             Forall (fun seg => Py.mem_char c (content seg) = false)
               (extracted_segments st)).
  { intros c Hs H1 H2 H3.
    apply (run_free page x_tolerance y_tolerance c
             (page_fonts_free c Hinit Hone Hs) H1 H2 H3 ops initial st);
      [|exact Hrun].
    split; [reflexivity | constructor]. }
  pose proof (Hfree DocketReader.terminator eq_refl eq_refl eq_refl eq_refl)
    as Ht.
  pose proof (Hfree DocketReader.properties_open
                eq_refl eq_refl eq_refl eq_refl) as Ho.
  pose proof (Hfree DocketReader.properties_close
                eq_refl eq_refl eq_refl eq_refl) as Hc.
  split.
  - rewrite Forall_forall in *. intros seg Hin. unfold format_free, sep_free.
    auto.
  - intros text. unfold extract_text. rewrite Hrun. cbn [bind].
    apply (format_segments_lines _ Hinit Hfc Ht).
    apply (run_named ops initial st); [constructor | exact Hrun].
Qed.

End OutputFormat.

Section OutputFormatExamples.

Import Font Extraction Samples MoreSamples.
Local Open Scope list_scope.

Lemma extract_text_one_line_per_segment_witness :
  Forall (fun seg => format_free (content seg))
    (extracted_segments after_two_line_block)
  /\ forall text,
      extract_text two_fonts_page 0.3 1 (fun _ => "000.00"%string)
        two_line_block = Ok text ->
      List.length (Py.split DocketReader.terminator text)
      = S (List.length (extracted_segments after_two_line_block)).
Proof.
  apply (extract_text_one_line_per_segment (fonts two_fonts_page)
           two_fonts_page 0.3 1 (fun _ => "000.00"%string) two_line_block
           after_two_line_block).
  - reflexivity.
  - reflexivity.
  - intros x. reflexivity.
  - vm_compute. reflexivity.
Defined.

End OutputFormatExamples.

(* ================================================================== *)
(** * The markers of the [Td] handler *)

Section Repositioning.

Import Font Extraction.
Local Open Scope list_scope.

Variable page : DocketPageObject.
Variables x_tolerance y_tolerance : float.

(** Whatever the move, [Td] resets the displacement, and it either ends the
    segment or adds at most one marker to its content: the box-wrap, the
    comes-before or the tab character.  The origin of a segment that goes
    on is not touched, and nothing is emitted. *)
Theorem reposition_adds_one_marker (x_translation y_translation : float)
  (st st' : interpreter) :
  reposition page x_tolerance y_tolerance x_translation y_translation st
  = Ok st' ->
  cur_displacement st' = 0%float
  /\ (segment st' = new_segment
      \/ exists marker,
          In marker [ EmptyString;
                      DocketReader.chr DocketReader.box_wrap;
                      DocketReader.chr DocketReader.comes_before;
                      DocketReader.chr DocketReader.tab ]
          /\ content (segment st') = (content (segment st) ++ marker)%string
          /\ origin_coordinates (segment st') = origin_coordinates (segment st)
          /\ extracted_segments st' = extracted_segments st).
Proof.
  unfold reposition.
  destruct ((y_translation <? 0)%float
            && (abs (x_translation + x_translation_from_origin (segment st))
                <? x_tolerance)%float).
  { simpl. intros H. injection H as <-. cbn. split; [reflexivity|].
    right. eexists. split; [right; left; reflexivity|]. auto. }
  destruct ((0 <? y_translation)%float
            && (abs (y_translation + y_translation_from_origin (segment st))
                <? y_tolerance)%float).
  { simpl. intros H. injection H as <-. cbn. split; [reflexivity|].
    right. destruct (x_translation <? 0)%float; eexists;
      (split; [|split; [reflexivity | auto]]); simpl; auto. }
  destruct (y_tolerance <=? abs y_translation)%float.
  - destruct (terminate_segment page st) as [st1|e] eqn:E; [|discriminate].
    simpl. intros H. injection H as <-.
    destruct (terminate_segment_step _ _ _ E) as (_ & Hs & _).
    cbn. split; [reflexivity | now left].
  - simpl. intros H. injection H as <-. cbn. split; [reflexivity|].
    right. unfold reposition_horizontal.
    destruct ((x_translation <? 0)%float
              && negb (content (segment st) =? "")%string).
    { eexists. split; [right; right; left; reflexivity|]. cbn. auto. }
    destruct ((0 <? x_translation)%float
              && negb (content (segment st) =? "")%string).
    + destruct (x_tolerance * size (text_state st)
                <? x_translation - cur_displacement st)%float.
      * eexists. split; [right; right; right; left; reflexivity|]. cbn. auto.
      * destruct (x_translation - cur_displacement st <? -0.1)%float;
          exists EmptyString; (split; [now left|]); cbn;
          now rewrite append_nil_r.
    + exists EmptyString. split; [now left|]. now rewrite append_nil_r.
Qed.

End Repositioning.

Section RepositioningExamples.

Import Font Extraction Samples MoreSamples.
Local Open Scope list_scope.
Local Open Scope float_scope.

Lemma reposition_adds_one_marker_witness :
  0 = 0
  /\ ({| content := "AB_"; origin_coordinates := Some (72, 700);
         font_name := None;
         x_translation_from_origin := 0;
         y_translation_from_origin := 0 |} = new_segment
      \/ exists marker,
          In marker [ EmptyString;
                      DocketReader.chr DocketReader.box_wrap;
                      DocketReader.chr DocketReader.comes_before;
                      DocketReader.chr DocketReader.tab ]
          /\ "AB_"%string = ("AB" ++ marker)%string
          /\ Some (72, 700) = Some (72, 700)
          /\ @nil TextSegment = []).
Proof.
  apply (reposition_adds_one_marker one_font_page 0.3 1 5 0
           (in_segment "AB" 0 0)
           {| text_state := {| ts_font_name := "/F1"; size := 10 |};
              text_state_stack := [];
              segment :=
                {| content := "AB_"; origin_coordinates := Some (72, 700);
                   font_name := None;
                   x_translation_from_origin := 0;
                   y_translation_from_origin := 0 |};
              extracted_segments := [];
              cur_displacement := 0;
              log := [] |}).
  vm_compute. reflexivity.
Defined.

End RepositioningExamples.

(* ================================================================== *)
(** * The reducers that join the parts of a description *)

Section PartCollectors.

Import Parsing Reducers.
Local Open Scope list_scope.

Variables part field : string.
Hypothesis field_not_part : field <> part.

Lemma strings_of_snoc (parts : list value) (ss : list string) (s : string) :
  strings_of parts = Ok ss ->
  strings_of (parts ++ [VStr s]) = Ok (ss ++ [s]).
Proof.
  revert ss. induction parts as [|x xs IH]; intros ss H; simpl in *.
  - now injection H as <-.
  - destruct x; try discriminate.
    destruct (strings_of xs) as [ss'|e]; [|discriminate].
    simpl in H. injection H as <-. now rewrite (IH ss' eq_refl).
Qed.

Lemma dict_get_rev_remove (key k : string) (d : list (string * value)) :
  dict_get key (rev (dict_remove k d))
  = if String.eqb k key then None else dict_get key (rev d).
Proof.
  unfold dict_remove. rewrite <- filter_rev.
  apply (dict_get_remove key k (rev d)).
Qed.

Lemma parts_loop_collects (items : list value) :
  forall info parts ss,
    Forall (part_record part) items ->
    strings_of parts = Ok ss ->
    dict_get part info = None ->
    exists info' parts',
      parts_loop part items (info, parts) = Ok (info', parts')
      /\ strings_of parts' = Ok (ss ++ part_strings part items)
      /\ dict_get part info' = None
      /\ forall key,
          key <> part ->
          dict_get key info'
          = match dict_get key (rev (bindings items)) with
            | Some v => Some v
            | None => dict_get key info
            end.
Proof.
  induction items as [|x xs IH]; intros info parts ss Hall Hss Hinfo.
  - exists info, parts. split; [reflexivity|].
    split; [now rewrite app_nil_r|]. split; [exact Hinfo | reflexivity].
  - inversion Hall as [|? ? Hx Hxs]; subst.
    destruct x as [n|l|d|s|f|y m dy]; simpl in Hx; try contradiction.
    cbn [parts_loop parts_step contains_key bind fst snd].
    rewrite dict_has_get.
    destruct (dict_get part d) as [v|] eqn:E.
    + destruct v as [n|l|d'|s|f|y m dy]; try contradiction.
      destruct (IH (dict_update info (dict_remove part d))
                  (parts ++ [VStr s]) (ss ++ [s]) Hxs
                  (strings_of_snoc _ _ _ Hss)) as (info' & parts' & Hrun & Hp & Hn & Hk).
      { rewrite dict_get_update, dict_get_rev_remove, String.eqb_refl.
        exact Hinfo. }
      exists info', parts'. split; [exact Hrun|].
      split; [|split; [exact Hn|]].
      * rewrite Hp, <- app_assoc. cbn [part_strings flat_map].
        now rewrite E.
      * intros key Hkey. rewrite (Hk key Hkey).
        rewrite (bindings_cons (VDict d) xs), rev_app_distr, dict_get_app.
        destruct (dict_get key (rev (bindings xs))); [reflexivity|].
        rewrite dict_get_update, dict_get_rev_remove.
        destruct (String.eqb_spec part key); [congruence|].
        unfold bindings. cbn [flat_map]. now rewrite app_nil_r.
    + destruct (IH (dict_update info d) parts ss Hxs Hss)
        as (info' & parts' & Hrun & Hp & Hn & Hk).
      { rewrite dict_get_update, (dict_get_rev_None _ _ E). exact Hinfo. }
      exists info', parts'. split; [exact Hrun|].
      split; [|split; [exact Hn|]].
      * rewrite Hp. cbn [part_strings flat_map]. now rewrite E.
      * intros key Hkey. rewrite (Hk key Hkey).
        rewrite (bindings_cons (VDict d) xs), rev_app_distr, dict_get_app.
        destruct (dict_get key (rev (bindings xs))); [reflexivity|].
        rewrite dict_get_update.
        unfold bindings. cbn [flat_map]. now rewrite app_nil_r.
Qed.

Lemma joined_parts_collects (visited_children : list value) :
  Forall (part_record part) (flatten visited_children) ->
  exists info,
    joined_parts part field visited_children = Ok info
    /\ dict_get field info
       = Some (VStr (Py.strip
                       (Py.join " " (part_strings part
                                       (flatten visited_children)))))
    /\ dict_get part info = None
    /\ forall key,
        key <> field -> key <> part ->
        dict_get key info
        = dict_get key (rev (bindings (flatten visited_children))).
Proof.
  intros Hall.
  destruct (parts_loop_collects (flatten visited_children) [] [] [] Hall
              eq_refl eq_refl) as (info' & parts' & Hrun & Hp & Hn & Hk).
  unfold joined_parts. rewrite Hrun. cbn [bind snd fst]. rewrite Hp.
  cbn [bind app]. eexists. split; [reflexivity|].
  rewrite !dict_get_set, String.eqb_refl. split; [reflexivity|]. split.
  - destruct (String.eqb_spec field part); [congruence | exact Hn].
  - intros key Hf Hpart. rewrite dict_get_set.
    destruct (String.eqb_spec field key); [congruence|].
    rewrite (Hk key Hpart).
    now destruct (dict_get key (rev (bindings (flatten visited_children)))).
Qed.

End PartCollectors.

Section PartReducers.

Import Parsing Reducers MoreSamples.
Local Open Scope list_scope.

(** On children that are records with string parts, [visit_charge_info]
    returns a record under "charge_info" in which "charge_description" is
    the parts joined by single spaces and stripped, no part is left, and
    every other key has the value of its last occurrence among the
    children. *)
Theorem visit_charge_info_joins (node : Node) (visited_children : list value) :
  Forall (part_record "charge_description_part") (flatten visited_children) ->
  exists charge_info,
    visit_charge_info node visited_children
    = Ok (VDict [("charge_info"%string, VDict charge_info)])
    /\ dict_get "charge_description" charge_info
       = Some (VStr (Py.strip
                       (Py.join " " (part_strings "charge_description_part"
                                       (flatten visited_children)))))
    /\ dict_get "charge_description_part" charge_info = None
    /\ forall key,
        key <> "charge_description"%string ->
        key <> "charge_description_part"%string ->
        dict_get key charge_info
        = dict_get key (rev (bindings (flatten visited_children))).
Proof.
  intros Hall.
  destruct (joined_parts_collects "charge_description_part"
              "charge_description" ltac:(discriminate) visited_children Hall)
    as (info & Hrun & H).
  exists info. unfold visit_charge_info. rewrite Hrun.
  split; [reflexivity | exact H].
Qed.

Lemma visit_charge_info_joins_witness :
  exists charge_info,
    visit_charge_info closed_section charge_children
    = Ok (VDict [("charge_info"%string, VDict charge_info)])
    /\ dict_get "charge_description" charge_info
       = Some (VStr (Py.strip
                       (Py.join " " (part_strings "charge_description_part"
                                       (flatten charge_children)))))
    /\ dict_get "charge_description_part" charge_info = None
    /\ forall key,
        key <> "charge_description"%string ->
        key <> "charge_description_part"%string ->
        dict_get key charge_info
        = dict_get key (rev (bindings (flatten charge_children))).
Proof.
  apply (visit_charge_info_joins closed_section charge_children).
  repeat constructor.
Defined.

(** [visit_disposition_grade_statute] does the same with the parts of the
    offense disposition, and returns the record itself. *)
Theorem visit_disposition_grade_statute_joins (node : Node)
  (visited_children : list value) :
  Forall (part_record "offense_disposition_part") (flatten visited_children) ->
  exists record,
    visit_disposition_grade_statute node visited_children = Ok (VDict record)
    /\ dict_get "offense_disposition" record
       = Some (VStr (Py.strip
                       (Py.join " " (part_strings "offense_disposition_part"
                                       (flatten visited_children)))))
    /\ dict_get "offense_disposition_part" record = None
    /\ forall key,
        key <> "offense_disposition"%string ->
        key <> "offense_disposition_part"%string ->
        dict_get key record
        = dict_get key (rev (bindings (flatten visited_children))).
Proof.
  intros Hall.
  destruct (joined_parts_collects "offense_disposition_part"
              "offense_disposition" ltac:(discriminate) visited_children Hall)
    as (info & Hrun & H).
  exists info. unfold visit_disposition_grade_statute. rewrite Hrun.
  split; [reflexivity | exact H].
Qed.

Lemma visit_disposition_grade_statute_joins_witness :
  exists record,
    visit_disposition_grade_statute closed_section
      [ VDict [("offense_disposition_part"%string, VStr "Guilty")];
        VList [ VDict [("grade"%string, VStr "M1")];
                VDict [("offense_disposition_part"%string, VStr "Plea")] ] ]
    = Ok (VDict record)
    /\ dict_get "offense_disposition" record
       = Some (VStr (Py.strip
                       (Py.join " "
                          (part_strings "offense_disposition_part"
                             (flatten
                                [ VDict [("offense_disposition_part"%string,
                                          VStr "Guilty")];
                                  VList [ VDict [("grade"%string, VStr "M1")];
                                          VDict [("offense_disposition_part"%string,
                                                  VStr "Plea")] ] ])))))
    /\ dict_get "offense_disposition_part" record = None
    /\ forall key,
        key <> "offense_disposition"%string ->
        key <> "offense_disposition_part"%string ->
        dict_get key record
        = dict_get key
            (rev (bindings
                    (flatten
                       [ VDict [("offense_disposition_part"%string,
                                 VStr "Guilty")];
                         VList [ VDict [("grade"%string, VStr "M1")];
                                 VDict [("offense_disposition_part"%string,
                                         VStr "Plea")] ] ]))).
Proof.
  apply (visit_disposition_grade_statute_joins closed_section).
  repeat constructor.
Defined.

End PartReducers.
